(** * The MAVLink bridge of the Pegasus simulator

  A shallow embedding of [exts/pegasus_isaac/pegasus_isaac/mavlink_interface.py]
  and the properties of its sensor aggregator, scheduler loop and
  connection lifecycle.

  Python attributes keep their names without the leading underscore
  ([self._sensor_data] is [sensor_data]).  Methods are computations in a
  state-and-exception monad over the [World]: the interface object
  together with what the interpreter and the network hold around it (the
  wall clock, the wire, the console, the threads). *)

From Stdlib Require Import ZArith Lia.
From Stdlib.Floats Require Import SpecFloat.
From stdpp Require Import base strings gmap list.

Open Scope string_scope.
Open Scope list_scope.
Open Scope Z_scope.

(** ** Python values *)

Module Py.

(** A Python [float] is an IEEE 754 binary64 number. *)
Definition prec : Z := 53.
Definition emax : Z := 1024.
Abbreviation float := spec_float.

(** [float(z)] for a Python [int]: the nearest binary64, ties to even.  The
    integers this file converts are the literals of the source. *)
Definition float_of_int (z : Z) : float :=
  match z with
  | Z0 => S754_zero false
  | Zpos p => binary_round prec emax false p 0
  | Zneg p => binary_round prec emax true p 0
  end.

Definition fmul (x y : float) : float := SFmul prec emax x y.
Definition fsub (x y : float) : float := SFsub prec emax x y.
Definition fdiv (x y : float) : float := SFdiv prec emax x y.
Definition fgt (x y : float) : bool := SFltb y x.

(** The values the bridge handles: numbers, and sequences of them for the
    three-axis samples. *)
#[warnings="-register-all"] Inductive pyval : Type :=
| VInt (z : Z)
| VFloat (f : float)
| VList (l : list pyval).

#[global] Instance pyval_inhabited : Inhabited pyval := populate (VInt 0).

Inductive exn : Type :=
| KeyError (k : string)
| IndexError
| TypeError
| ValueError
| OverflowError
| AttributeError
| RuntimeError
| ZeroDivisionError
| ConnectionError.

(** What running a piece of Python gives: a value, an exception that
    travels up, or no return at all (a call that blocks for ever). *)
Inductive outcome (A : Type) : Type :=
| Ok (a : A)
| Raise (e : exn)
| Hang.
#[global] Arguments Ok {A} a.
#[global] Arguments Raise {A} e.
#[global] Arguments Hang {A}.

Abbreviation dict := (gmap string pyval).

(** [d[k]] *)
Definition getitem (d : dict) (k : string) : outcome pyval :=
  match d !! k with
  | Some v => Ok v
  | None => Raise (KeyError k)
  end.

(** [v[i]] for a literal index [i >= 0] *)
Definition index (v : pyval) (i : nat) : outcome pyval :=
  match v with
  | VList l =>
      match l !! i with
      | Some x => Ok x
      | None => Raise IndexError
      end
  | _ => Raise TypeError
  end.

Definition and_then {A B} (r : outcome A) (k : A -> outcome B) : outcome B :=
  match r with
  | Ok a => k a
  | Raise e => Raise e
  | Hang => Hang
  end.

(** [d[k][i]] *)
Definition getitem_index (d : dict) (k : string) (i : nat) : outcome pyval :=
  and_then (getitem d k) (fun v => index v i).

(** [v * k] for an [int] literal [k]: exact on integers, rounded on floats,
    repetition on lists. *)
Definition mul (v : pyval) (k : Z) : pyval :=
  match v with
  | VInt z => VInt (z * k)
  | VFloat f => VFloat (fmul f (float_of_int k))
  | VList l => VList (mjoin (replicate (Z.to_nat k) l))
  end.

(** [int(f)] for a float: the digits before the point, towards zero. *)
Definition trunc (f : float) : outcome Z :=
  match f with
  | S754_zero _ => Ok 0
  | S754_infinity _ => Raise OverflowError
  | S754_nan => Raise ValueError
  | S754_finite s m e => Ok (cond_Zopp s (Z.shiftl (Z.pos m) e))
  end.

(** [int(v)] *)
Definition int (v : pyval) : outcome Z :=
  match v with
  | VInt z => Ok z
  | VFloat f => trunc f
  | VList _ => Raise TypeError
  end.

(** [int(d[k])] and [int(d[k] * scale)] *)
Definition int_item (d : dict) (k : string) : outcome Z :=
  and_then (getitem d k) int.

Definition int_scaled_item (d : dict) (k : string) (scale : Z) : outcome Z :=
  and_then (getitem d k) (fun v => int (mul v scale)).

(** [a - b] where [a] is a float *)
Definition fsub_val (a : float) (b : pyval) : outcome float :=
  match b with
  | VInt z => Ok (fsub a (float_of_int z))
  | VFloat f => Ok (fsub a f)
  | VList _ => Raise TypeError
  end.

End Py.
Export Py.

(** ** [SensorSource]: the group codes of the HIL_SENSOR bitmask *)

Module SensorSource.
Definition ACCEL : Z := 7.           (* 0b111 *)
Definition GYRO : Z := 56.           (* 0b111000 *)
Definition MAG : Z := 448.           (* 0b111000000 *)
Definition BARO : Z := 6656.         (* 0b1101000000000 *)
Definition DIFF_PRESS : Z := 1024.   (* 0b10000000000 *)
End SensorSource.


(** ** [SensorMsg]: the sensor data that can be sent through mavlink *)

Record SensorMsg : Type := Build_SensorMsg {
  new_imu_data : bool;  (* IMU Data *)
  xacc : pyval;
  yacc : pyval;
  zacc : pyval;
  xgyro : pyval;
  ygyro : pyval;
  zgyro : pyval;
  new_bar_data : bool;  (* Baro Data *)
  abs_pressure : pyval;
  pressure_alt : pyval;
  temperature : pyval;
  new_mag_data : bool;  (* Magnetometer Data *)
  xmag : pyval;
  ymag : pyval;
  zmag : pyval;
  new_press_data : bool;  (* Airspeed Data *)
  diff_pressure : pyval;
  new_gps_data : bool;  (* GPS Data *)
  fix_type : pyval;
  latitude_deg : pyval;
  longitude_deg : pyval;
  altitude : pyval;
  eph : pyval;
  epv : pyval;
  velocity : pyval;
  velocity_north : pyval;
  velocity_east : pyval;
  velocity_down : pyval;
  cog : pyval;
  satellites_visible : pyval
}.

Definition set_new_imu_data (v : bool) (m : SensorMsg) : SensorMsg :=
  Build_SensorMsg v (xacc m) (yacc m) (zacc m) (xgyro m) (ygyro m) (zgyro m) (new_bar_data m)
  (abs_pressure m) (pressure_alt m) (temperature m) (new_mag_data m) (xmag m) (ymag m)
  (zmag m) (new_press_data m) (diff_pressure m) (new_gps_data m) (fix_type m) (latitude_deg m)
  (longitude_deg m) (altitude m) (eph m) (epv m) (velocity m) (velocity_north m)
  (velocity_east m) (velocity_down m) (cog m) (satellites_visible m).
Definition set_xacc (v : pyval) (m : SensorMsg) : SensorMsg :=
  Build_SensorMsg (new_imu_data m) v (yacc m) (zacc m) (xgyro m) (ygyro m) (zgyro m)
  (new_bar_data m) (abs_pressure m) (pressure_alt m) (temperature m) (new_mag_data m) (xmag m)
  (ymag m) (zmag m) (new_press_data m) (diff_pressure m) (new_gps_data m) (fix_type m)
  (latitude_deg m) (longitude_deg m) (altitude m) (eph m) (epv m) (velocity m)
  (velocity_north m) (velocity_east m) (velocity_down m) (cog m) (satellites_visible m).
Definition set_yacc (v : pyval) (m : SensorMsg) : SensorMsg :=
  Build_SensorMsg (new_imu_data m) (xacc m) v (zacc m) (xgyro m) (ygyro m) (zgyro m)
  (new_bar_data m) (abs_pressure m) (pressure_alt m) (temperature m) (new_mag_data m) (xmag m)
  (ymag m) (zmag m) (new_press_data m) (diff_pressure m) (new_gps_data m) (fix_type m)
  (latitude_deg m) (longitude_deg m) (altitude m) (eph m) (epv m) (velocity m)
  (velocity_north m) (velocity_east m) (velocity_down m) (cog m) (satellites_visible m).
Definition set_zacc (v : pyval) (m : SensorMsg) : SensorMsg :=
  Build_SensorMsg (new_imu_data m) (xacc m) (yacc m) v (xgyro m) (ygyro m) (zgyro m)
  (new_bar_data m) (abs_pressure m) (pressure_alt m) (temperature m) (new_mag_data m) (xmag m)
  (ymag m) (zmag m) (new_press_data m) (diff_pressure m) (new_gps_data m) (fix_type m)
  (latitude_deg m) (longitude_deg m) (altitude m) (eph m) (epv m) (velocity m)
  (velocity_north m) (velocity_east m) (velocity_down m) (cog m) (satellites_visible m).
Definition set_xgyro (v : pyval) (m : SensorMsg) : SensorMsg :=
  Build_SensorMsg (new_imu_data m) (xacc m) (yacc m) (zacc m) v (ygyro m) (zgyro m)
  (new_bar_data m) (abs_pressure m) (pressure_alt m) (temperature m) (new_mag_data m) (xmag m)
  (ymag m) (zmag m) (new_press_data m) (diff_pressure m) (new_gps_data m) (fix_type m)
  (latitude_deg m) (longitude_deg m) (altitude m) (eph m) (epv m) (velocity m)
  (velocity_north m) (velocity_east m) (velocity_down m) (cog m) (satellites_visible m).
Definition set_ygyro (v : pyval) (m : SensorMsg) : SensorMsg :=
  Build_SensorMsg (new_imu_data m) (xacc m) (yacc m) (zacc m) (xgyro m) v (zgyro m)
  (new_bar_data m) (abs_pressure m) (pressure_alt m) (temperature m) (new_mag_data m) (xmag m)
  (ymag m) (zmag m) (new_press_data m) (diff_pressure m) (new_gps_data m) (fix_type m)
  (latitude_deg m) (longitude_deg m) (altitude m) (eph m) (epv m) (velocity m)
  (velocity_north m) (velocity_east m) (velocity_down m) (cog m) (satellites_visible m).
Definition set_zgyro (v : pyval) (m : SensorMsg) : SensorMsg :=
  Build_SensorMsg (new_imu_data m) (xacc m) (yacc m) (zacc m) (xgyro m) (ygyro m) v
  (new_bar_data m) (abs_pressure m) (pressure_alt m) (temperature m) (new_mag_data m) (xmag m)
  (ymag m) (zmag m) (new_press_data m) (diff_pressure m) (new_gps_data m) (fix_type m)
  (latitude_deg m) (longitude_deg m) (altitude m) (eph m) (epv m) (velocity m)
  (velocity_north m) (velocity_east m) (velocity_down m) (cog m) (satellites_visible m).
Definition set_new_bar_data (v : bool) (m : SensorMsg) : SensorMsg :=
  Build_SensorMsg (new_imu_data m) (xacc m) (yacc m) (zacc m) (xgyro m) (ygyro m) (zgyro m) v
  (abs_pressure m) (pressure_alt m) (temperature m) (new_mag_data m) (xmag m) (ymag m)
  (zmag m) (new_press_data m) (diff_pressure m) (new_gps_data m) (fix_type m) (latitude_deg m)
  (longitude_deg m) (altitude m) (eph m) (epv m) (velocity m) (velocity_north m)
  (velocity_east m) (velocity_down m) (cog m) (satellites_visible m).
Definition set_abs_pressure (v : pyval) (m : SensorMsg) : SensorMsg :=
  Build_SensorMsg (new_imu_data m) (xacc m) (yacc m) (zacc m) (xgyro m) (ygyro m) (zgyro m)
  (new_bar_data m) v (pressure_alt m) (temperature m) (new_mag_data m) (xmag m) (ymag m)
  (zmag m) (new_press_data m) (diff_pressure m) (new_gps_data m) (fix_type m) (latitude_deg m)
  (longitude_deg m) (altitude m) (eph m) (epv m) (velocity m) (velocity_north m)
  (velocity_east m) (velocity_down m) (cog m) (satellites_visible m).
Definition set_pressure_alt (v : pyval) (m : SensorMsg) : SensorMsg :=
  Build_SensorMsg (new_imu_data m) (xacc m) (yacc m) (zacc m) (xgyro m) (ygyro m) (zgyro m)
  (new_bar_data m) (abs_pressure m) v (temperature m) (new_mag_data m) (xmag m) (ymag m)
  (zmag m) (new_press_data m) (diff_pressure m) (new_gps_data m) (fix_type m) (latitude_deg m)
  (longitude_deg m) (altitude m) (eph m) (epv m) (velocity m) (velocity_north m)
  (velocity_east m) (velocity_down m) (cog m) (satellites_visible m).
Definition set_temperature (v : pyval) (m : SensorMsg) : SensorMsg :=
  Build_SensorMsg (new_imu_data m) (xacc m) (yacc m) (zacc m) (xgyro m) (ygyro m) (zgyro m)
  (new_bar_data m) (abs_pressure m) (pressure_alt m) v (new_mag_data m) (xmag m) (ymag m)
  (zmag m) (new_press_data m) (diff_pressure m) (new_gps_data m) (fix_type m) (latitude_deg m)
  (longitude_deg m) (altitude m) (eph m) (epv m) (velocity m) (velocity_north m)
  (velocity_east m) (velocity_down m) (cog m) (satellites_visible m).
Definition set_new_mag_data (v : bool) (m : SensorMsg) : SensorMsg :=
  Build_SensorMsg (new_imu_data m) (xacc m) (yacc m) (zacc m) (xgyro m) (ygyro m) (zgyro m)
  (new_bar_data m) (abs_pressure m) (pressure_alt m) (temperature m) v (xmag m) (ymag m)
  (zmag m) (new_press_data m) (diff_pressure m) (new_gps_data m) (fix_type m) (latitude_deg m)
  (longitude_deg m) (altitude m) (eph m) (epv m) (velocity m) (velocity_north m)
  (velocity_east m) (velocity_down m) (cog m) (satellites_visible m).
Definition set_xmag (v : pyval) (m : SensorMsg) : SensorMsg :=
  Build_SensorMsg (new_imu_data m) (xacc m) (yacc m) (zacc m) (xgyro m) (ygyro m) (zgyro m)
  (new_bar_data m) (abs_pressure m) (pressure_alt m) (temperature m) (new_mag_data m) v
  (ymag m) (zmag m) (new_press_data m) (diff_pressure m) (new_gps_data m) (fix_type m)
  (latitude_deg m) (longitude_deg m) (altitude m) (eph m) (epv m) (velocity m)
  (velocity_north m) (velocity_east m) (velocity_down m) (cog m) (satellites_visible m).
Definition set_ymag (v : pyval) (m : SensorMsg) : SensorMsg :=
  Build_SensorMsg (new_imu_data m) (xacc m) (yacc m) (zacc m) (xgyro m) (ygyro m) (zgyro m)
  (new_bar_data m) (abs_pressure m) (pressure_alt m) (temperature m) (new_mag_data m) (xmag m)
  v (zmag m) (new_press_data m) (diff_pressure m) (new_gps_data m) (fix_type m)
  (latitude_deg m) (longitude_deg m) (altitude m) (eph m) (epv m) (velocity m)
  (velocity_north m) (velocity_east m) (velocity_down m) (cog m) (satellites_visible m).
Definition set_zmag (v : pyval) (m : SensorMsg) : SensorMsg :=
  Build_SensorMsg (new_imu_data m) (xacc m) (yacc m) (zacc m) (xgyro m) (ygyro m) (zgyro m)
  (new_bar_data m) (abs_pressure m) (pressure_alt m) (temperature m) (new_mag_data m) (xmag m)
  (ymag m) v (new_press_data m) (diff_pressure m) (new_gps_data m) (fix_type m)
  (latitude_deg m) (longitude_deg m) (altitude m) (eph m) (epv m) (velocity m)
  (velocity_north m) (velocity_east m) (velocity_down m) (cog m) (satellites_visible m).
Definition set_new_press_data (v : bool) (m : SensorMsg) : SensorMsg :=
  Build_SensorMsg (new_imu_data m) (xacc m) (yacc m) (zacc m) (xgyro m) (ygyro m) (zgyro m)
  (new_bar_data m) (abs_pressure m) (pressure_alt m) (temperature m) (new_mag_data m) (xmag m)
  (ymag m) (zmag m) v (diff_pressure m) (new_gps_data m) (fix_type m) (latitude_deg m)
  (longitude_deg m) (altitude m) (eph m) (epv m) (velocity m) (velocity_north m)
  (velocity_east m) (velocity_down m) (cog m) (satellites_visible m).
Definition set_diff_pressure (v : pyval) (m : SensorMsg) : SensorMsg :=
  Build_SensorMsg (new_imu_data m) (xacc m) (yacc m) (zacc m) (xgyro m) (ygyro m) (zgyro m)
  (new_bar_data m) (abs_pressure m) (pressure_alt m) (temperature m) (new_mag_data m) (xmag m)
  (ymag m) (zmag m) (new_press_data m) v (new_gps_data m) (fix_type m) (latitude_deg m)
  (longitude_deg m) (altitude m) (eph m) (epv m) (velocity m) (velocity_north m)
  (velocity_east m) (velocity_down m) (cog m) (satellites_visible m).
Definition set_new_gps_data (v : bool) (m : SensorMsg) : SensorMsg :=
  Build_SensorMsg (new_imu_data m) (xacc m) (yacc m) (zacc m) (xgyro m) (ygyro m) (zgyro m)
  (new_bar_data m) (abs_pressure m) (pressure_alt m) (temperature m) (new_mag_data m) (xmag m)
  (ymag m) (zmag m) (new_press_data m) (diff_pressure m) v (fix_type m) (latitude_deg m)
  (longitude_deg m) (altitude m) (eph m) (epv m) (velocity m) (velocity_north m)
  (velocity_east m) (velocity_down m) (cog m) (satellites_visible m).
Definition set_fix_type (v : pyval) (m : SensorMsg) : SensorMsg :=
  Build_SensorMsg (new_imu_data m) (xacc m) (yacc m) (zacc m) (xgyro m) (ygyro m) (zgyro m)
  (new_bar_data m) (abs_pressure m) (pressure_alt m) (temperature m) (new_mag_data m) (xmag m)
  (ymag m) (zmag m) (new_press_data m) (diff_pressure m) (new_gps_data m) v (latitude_deg m)
  (longitude_deg m) (altitude m) (eph m) (epv m) (velocity m) (velocity_north m)
  (velocity_east m) (velocity_down m) (cog m) (satellites_visible m).
Definition set_latitude_deg (v : pyval) (m : SensorMsg) : SensorMsg :=
  Build_SensorMsg (new_imu_data m) (xacc m) (yacc m) (zacc m) (xgyro m) (ygyro m) (zgyro m)
  (new_bar_data m) (abs_pressure m) (pressure_alt m) (temperature m) (new_mag_data m) (xmag m)
  (ymag m) (zmag m) (new_press_data m) (diff_pressure m) (new_gps_data m) (fix_type m) v
  (longitude_deg m) (altitude m) (eph m) (epv m) (velocity m) (velocity_north m)
  (velocity_east m) (velocity_down m) (cog m) (satellites_visible m).
Definition set_longitude_deg (v : pyval) (m : SensorMsg) : SensorMsg :=
  Build_SensorMsg (new_imu_data m) (xacc m) (yacc m) (zacc m) (xgyro m) (ygyro m) (zgyro m)
  (new_bar_data m) (abs_pressure m) (pressure_alt m) (temperature m) (new_mag_data m) (xmag m)
  (ymag m) (zmag m) (new_press_data m) (diff_pressure m) (new_gps_data m) (fix_type m)
  (latitude_deg m) v (altitude m) (eph m) (epv m) (velocity m) (velocity_north m)
  (velocity_east m) (velocity_down m) (cog m) (satellites_visible m).
Definition set_altitude (v : pyval) (m : SensorMsg) : SensorMsg :=
  Build_SensorMsg (new_imu_data m) (xacc m) (yacc m) (zacc m) (xgyro m) (ygyro m) (zgyro m)
  (new_bar_data m) (abs_pressure m) (pressure_alt m) (temperature m) (new_mag_data m) (xmag m)
  (ymag m) (zmag m) (new_press_data m) (diff_pressure m) (new_gps_data m) (fix_type m)
  (latitude_deg m) (longitude_deg m) v (eph m) (epv m) (velocity m) (velocity_north m)
  (velocity_east m) (velocity_down m) (cog m) (satellites_visible m).
Definition set_eph (v : pyval) (m : SensorMsg) : SensorMsg :=
  Build_SensorMsg (new_imu_data m) (xacc m) (yacc m) (zacc m) (xgyro m) (ygyro m) (zgyro m)
  (new_bar_data m) (abs_pressure m) (pressure_alt m) (temperature m) (new_mag_data m) (xmag m)
  (ymag m) (zmag m) (new_press_data m) (diff_pressure m) (new_gps_data m) (fix_type m)
  (latitude_deg m) (longitude_deg m) (altitude m) v (epv m) (velocity m) (velocity_north m)
  (velocity_east m) (velocity_down m) (cog m) (satellites_visible m).
Definition set_epv (v : pyval) (m : SensorMsg) : SensorMsg :=
  Build_SensorMsg (new_imu_data m) (xacc m) (yacc m) (zacc m) (xgyro m) (ygyro m) (zgyro m)
  (new_bar_data m) (abs_pressure m) (pressure_alt m) (temperature m) (new_mag_data m) (xmag m)
  (ymag m) (zmag m) (new_press_data m) (diff_pressure m) (new_gps_data m) (fix_type m)
  (latitude_deg m) (longitude_deg m) (altitude m) (eph m) v (velocity m) (velocity_north m)
  (velocity_east m) (velocity_down m) (cog m) (satellites_visible m).
Definition set_velocity (v : pyval) (m : SensorMsg) : SensorMsg :=
  Build_SensorMsg (new_imu_data m) (xacc m) (yacc m) (zacc m) (xgyro m) (ygyro m) (zgyro m)
  (new_bar_data m) (abs_pressure m) (pressure_alt m) (temperature m) (new_mag_data m) (xmag m)
  (ymag m) (zmag m) (new_press_data m) (diff_pressure m) (new_gps_data m) (fix_type m)
  (latitude_deg m) (longitude_deg m) (altitude m) (eph m) (epv m) v (velocity_north m)
  (velocity_east m) (velocity_down m) (cog m) (satellites_visible m).
Definition set_velocity_north (v : pyval) (m : SensorMsg) : SensorMsg :=
  Build_SensorMsg (new_imu_data m) (xacc m) (yacc m) (zacc m) (xgyro m) (ygyro m) (zgyro m)
  (new_bar_data m) (abs_pressure m) (pressure_alt m) (temperature m) (new_mag_data m) (xmag m)
  (ymag m) (zmag m) (new_press_data m) (diff_pressure m) (new_gps_data m) (fix_type m)
  (latitude_deg m) (longitude_deg m) (altitude m) (eph m) (epv m) (velocity m) v
  (velocity_east m) (velocity_down m) (cog m) (satellites_visible m).
Definition set_velocity_east (v : pyval) (m : SensorMsg) : SensorMsg :=
  Build_SensorMsg (new_imu_data m) (xacc m) (yacc m) (zacc m) (xgyro m) (ygyro m) (zgyro m)
  (new_bar_data m) (abs_pressure m) (pressure_alt m) (temperature m) (new_mag_data m) (xmag m)
  (ymag m) (zmag m) (new_press_data m) (diff_pressure m) (new_gps_data m) (fix_type m)
  (latitude_deg m) (longitude_deg m) (altitude m) (eph m) (epv m) (velocity m)
  (velocity_north m) v (velocity_down m) (cog m) (satellites_visible m).
Definition set_velocity_down (v : pyval) (m : SensorMsg) : SensorMsg :=
  Build_SensorMsg (new_imu_data m) (xacc m) (yacc m) (zacc m) (xgyro m) (ygyro m) (zgyro m)
  (new_bar_data m) (abs_pressure m) (pressure_alt m) (temperature m) (new_mag_data m) (xmag m)
  (ymag m) (zmag m) (new_press_data m) (diff_pressure m) (new_gps_data m) (fix_type m)
  (latitude_deg m) (longitude_deg m) (altitude m) (eph m) (epv m) (velocity m)
  (velocity_north m) (velocity_east m) v (cog m) (satellites_visible m).
Definition set_cog (v : pyval) (m : SensorMsg) : SensorMsg :=
  Build_SensorMsg (new_imu_data m) (xacc m) (yacc m) (zacc m) (xgyro m) (ygyro m) (zgyro m)
  (new_bar_data m) (abs_pressure m) (pressure_alt m) (temperature m) (new_mag_data m) (xmag m)
  (ymag m) (zmag m) (new_press_data m) (diff_pressure m) (new_gps_data m) (fix_type m)
  (latitude_deg m) (longitude_deg m) (altitude m) (eph m) (epv m) (velocity m)
  (velocity_north m) (velocity_east m) (velocity_down m) v (satellites_visible m).
Definition set_satellites_visible (v : pyval) (m : SensorMsg) : SensorMsg :=
  Build_SensorMsg (new_imu_data m) (xacc m) (yacc m) (zacc m) (xgyro m) (ygyro m) (zgyro m)
  (new_bar_data m) (abs_pressure m) (pressure_alt m) (temperature m) (new_mag_data m) (xmag m)
  (ymag m) (zmag m) (new_press_data m) (diff_pressure m) (new_gps_data m) (fix_type m)
  (latitude_deg m) (longitude_deg m) (altitude m) (eph m) (epv m) (velocity m)
  (velocity_north m) (velocity_east m) (velocity_down m) (cog m) v.

(** ** The wire: frames of the MAVLink dialect the bridge sends and reads *)

Module Wire.

(** Positional arguments of pymavlink's [heartbeat_send]. *)
Record heartbeat : Type := {
  mav_type : Z;
  autopilot : Z;
  base_mode : Z;
  custom_mode : Z;
  system_status : Z
}.

(** Positional arguments of pymavlink's [hil_sensor_send]. *)
Record hil_sensor : Type := {
  time_usec : Z;
  xacc : pyval;
  yacc : pyval;
  zacc : pyval;
  xgyro : pyval;
  ygyro : pyval;
  zgyro : pyval;
  xmag : pyval;
  ymag : pyval;
  zmag : pyval;
  abs_pressure : pyval;
  diff_pressure : pyval;
  pressure_alt : pyval;
  temperature : pyval;
  fields_updated : Z
}.

(** Positional arguments of pymavlink's [hil_gps_send]. *)
Record hil_gps : Type := {
  gps_time_usec : Z;
  fix_type : pyval;
  lat : pyval;
  lon : pyval;
  alt : pyval;
  eph : pyval;
  epv : pyval;
  vel : pyval;
  vn : pyval;
  ve : pyval;
  vd : pyval;
  cog : pyval;
  satellites_visible : pyval
}.

Inductive frame : Type :=
| HEARTBEAT (h : heartbeat)
| HIL_SENSOR (s : hil_sensor)
| HIL_GPS (g : hil_gps).

(** What the peer sends.  The source decodes none of it: it tells a
    heartbeat (through [wait_heartbeat]) from the rest. *)
Inductive message : Type :=
| PEER_HEARTBEAT
| PEER_OTHER (msgid : Z).

(** [mavutil.mavlink.MAV_TYPE_GENERIC], [mavutil.mavlink.MAV_AUTOPILOT_INVALID] *)
Definition MAV_TYPE_GENERIC : Z := 0.
Definition MAV_AUTOPILOT_INVALID : Z := 8.

Definition is_heartbeat (f : frame) : bool :=
  match f with HEARTBEAT _ => true | _ => false end.

Definition is_peer_heartbeat (m : message) : bool :=
  match m with PEER_HEARTBEAT => true | _ => false end.

End Wire.

(** ** [MavlinkInterface] *)

(** The object [mavutil.mavlink_connection] returns: its identity and the
    endpoint it was opened on. *)
Record Connection : Type := {
  conn_id : nat;
  conn_port : string
}.

(** [threading.Lock()]; it is only ever held inside one step. *)
Inductive Lock : Type := Unlocked.

(** Where the thread that runs [mavlink_update] stands; the line of the
    source each point is at is given with [sched_step]. *)
Inductive pc : Type :=
| LoopTest
| LockstepGate
| LockstepWait
| ClearImu
| Poll
| PollRecv (needs_to_wait_for_actuator : bool)
| HeartbeatCheck
| HeartbeatSend
| HeartbeatStamp
| SensorMsgs
| GroundTruth
| Control
| Sleep
| Exited
| Crashed (e : exn).

(** A [threading.Thread(target=self.mavlink_update)]. *)
Inductive Thread : Type :=
| NotStarted
| At (p : pc).

Record MavlinkInterface : Type := Build_MavlinkInterface {
  connection_port : string;
  connection : option Connection;
  update_rate : float;  (* Hz *)
  is_running : bool;
  GPS_fix_type : Z;  (* GPS constants *)
  GPS_satellites_visible : Z;
  GPS_eph : Z;
  GPS_epv : Z;
  sensor_data : SensorMsg;
  num_inputs : nat;
  input_reference : list float;
  armed : bool;
  input_offset : list float;
  input_scaling : list float;
  enable_lockstep : bool;
  received_first_imu : bool;
  received_first_actuator : bool;
  received_imu : bool;
  received_actuator : bool;
  received_first_hearbeat : bool;
  first_hearbeat_lock : Lock;
  last_heartbeat_sent_time : pyval;
  update_thread : option Thread
}.

Definition set_connection (v : option Connection) (o : MavlinkInterface) : MavlinkInterface :=
  Build_MavlinkInterface (connection_port o) v (update_rate o) (is_running o) (GPS_fix_type o)
  (GPS_satellites_visible o) (GPS_eph o) (GPS_epv o) (sensor_data o) (num_inputs o)
  (input_reference o) (armed o) (input_offset o) (input_scaling o) (enable_lockstep o)
  (received_first_imu o) (received_first_actuator o) (received_imu o) (received_actuator o)
  (received_first_hearbeat o) (first_hearbeat_lock o) (last_heartbeat_sent_time o)
  (update_thread o).
Definition set_is_running (v : bool) (o : MavlinkInterface) : MavlinkInterface :=
  Build_MavlinkInterface (connection_port o) (connection o) (update_rate o) v (GPS_fix_type o)
  (GPS_satellites_visible o) (GPS_eph o) (GPS_epv o) (sensor_data o) (num_inputs o)
  (input_reference o) (armed o) (input_offset o) (input_scaling o) (enable_lockstep o)
  (received_first_imu o) (received_first_actuator o) (received_imu o) (received_actuator o)
  (received_first_hearbeat o) (first_hearbeat_lock o) (last_heartbeat_sent_time o)
  (update_thread o).
Definition set_sensor_data (v : SensorMsg) (o : MavlinkInterface) : MavlinkInterface :=
  Build_MavlinkInterface (connection_port o) (connection o) (update_rate o) (is_running o)
  (GPS_fix_type o) (GPS_satellites_visible o) (GPS_eph o) (GPS_epv o) v (num_inputs o)
  (input_reference o) (armed o) (input_offset o) (input_scaling o) (enable_lockstep o)
  (received_first_imu o) (received_first_actuator o) (received_imu o) (received_actuator o)
  (received_first_hearbeat o) (first_hearbeat_lock o) (last_heartbeat_sent_time o)
  (update_thread o).
Definition set_received_first_imu (v : bool) (o : MavlinkInterface) : MavlinkInterface :=
  Build_MavlinkInterface (connection_port o) (connection o) (update_rate o) (is_running o)
  (GPS_fix_type o) (GPS_satellites_visible o) (GPS_eph o) (GPS_epv o) (sensor_data o)
  (num_inputs o) (input_reference o) (armed o) (input_offset o) (input_scaling o)
  (enable_lockstep o) v (received_first_actuator o) (received_imu o) (received_actuator o)
  (received_first_hearbeat o) (first_hearbeat_lock o) (last_heartbeat_sent_time o)
  (update_thread o).
Definition set_received_first_actuator (v : bool) (o : MavlinkInterface) : MavlinkInterface :=
  Build_MavlinkInterface (connection_port o) (connection o) (update_rate o) (is_running o)
  (GPS_fix_type o) (GPS_satellites_visible o) (GPS_eph o) (GPS_epv o) (sensor_data o)
  (num_inputs o) (input_reference o) (armed o) (input_offset o) (input_scaling o)
  (enable_lockstep o) (received_first_imu o) v (received_imu o) (received_actuator o)
  (received_first_hearbeat o) (first_hearbeat_lock o) (last_heartbeat_sent_time o)
  (update_thread o).
Definition set_received_imu (v : bool) (o : MavlinkInterface) : MavlinkInterface :=
  Build_MavlinkInterface (connection_port o) (connection o) (update_rate o) (is_running o)
  (GPS_fix_type o) (GPS_satellites_visible o) (GPS_eph o) (GPS_epv o) (sensor_data o)
  (num_inputs o) (input_reference o) (armed o) (input_offset o) (input_scaling o)
  (enable_lockstep o) (received_first_imu o) (received_first_actuator o) v
  (received_actuator o) (received_first_hearbeat o) (first_hearbeat_lock o)
  (last_heartbeat_sent_time o) (update_thread o).
Definition set_received_actuator (v : bool) (o : MavlinkInterface) : MavlinkInterface :=
  Build_MavlinkInterface (connection_port o) (connection o) (update_rate o) (is_running o)
  (GPS_fix_type o) (GPS_satellites_visible o) (GPS_eph o) (GPS_epv o) (sensor_data o)
  (num_inputs o) (input_reference o) (armed o) (input_offset o) (input_scaling o)
  (enable_lockstep o) (received_first_imu o) (received_first_actuator o) (received_imu o) v
  (received_first_hearbeat o) (first_hearbeat_lock o) (last_heartbeat_sent_time o)
  (update_thread o).
Definition set_received_first_hearbeat (v : bool) (o : MavlinkInterface) : MavlinkInterface :=
  Build_MavlinkInterface (connection_port o) (connection o) (update_rate o) (is_running o)
  (GPS_fix_type o) (GPS_satellites_visible o) (GPS_eph o) (GPS_epv o) (sensor_data o)
  (num_inputs o) (input_reference o) (armed o) (input_offset o) (input_scaling o)
  (enable_lockstep o) (received_first_imu o) (received_first_actuator o) (received_imu o)
  (received_actuator o) v (first_hearbeat_lock o) (last_heartbeat_sent_time o)
  (update_thread o).
Definition set_first_hearbeat_lock (v : Lock) (o : MavlinkInterface) : MavlinkInterface :=
  Build_MavlinkInterface (connection_port o) (connection o) (update_rate o) (is_running o)
  (GPS_fix_type o) (GPS_satellites_visible o) (GPS_eph o) (GPS_epv o) (sensor_data o)
  (num_inputs o) (input_reference o) (armed o) (input_offset o) (input_scaling o)
  (enable_lockstep o) (received_first_imu o) (received_first_actuator o) (received_imu o)
  (received_actuator o) (received_first_hearbeat o) v (last_heartbeat_sent_time o)
  (update_thread o).
Definition set_last_heartbeat_sent_time (v : pyval) (o : MavlinkInterface) : MavlinkInterface :=
  Build_MavlinkInterface (connection_port o) (connection o) (update_rate o) (is_running o)
  (GPS_fix_type o) (GPS_satellites_visible o) (GPS_eph o) (GPS_epv o) (sensor_data o)
  (num_inputs o) (input_reference o) (armed o) (input_offset o) (input_scaling o)
  (enable_lockstep o) (received_first_imu o) (received_first_actuator o) (received_imu o)
  (received_actuator o) (received_first_hearbeat o) (first_hearbeat_lock o) v
  (update_thread o).
Definition set_update_thread (v : option Thread) (o : MavlinkInterface) : MavlinkInterface :=
  Build_MavlinkInterface (connection_port o) (connection o) (update_rate o) (is_running o)
  (GPS_fix_type o) (GPS_satellites_visible o) (GPS_eph o) (GPS_epv o) (sensor_data o)
  (num_inputs o) (input_reference o) (armed o) (input_offset o) (input_scaling o)
  (enable_lockstep o) (received_first_imu o) (received_first_actuator o) (received_imu o)
  (received_actuator o) (received_first_hearbeat o) (first_hearbeat_lock o)
  (last_heartbeat_sent_time o) v.

(** ** The world around the object *)

Inductive logline : Type :=
| Warn (s : string)
| WarnMsg (m : option Wire.message).

(** A thread that runs [wait_for_first_hearbeat]. *)
Inductive waiter : Type :=
| WaitStart
| WaitHeartbeat.

Record World : Type := Build_World {
  self : MavlinkInterface;          (* the object *)
  clock : float;                    (* what [time.time()] returns now *)
  link_up : bool;                   (* whether a frame sent now gets through *)
  endpoint_up : bool;               (* whether the endpoint can be opened now *)
  next_handle : nat;                (* identity of the next connection object *)
  closed : list nat;                (* connections closed so far *)
  wire : list (nat * Wire.frame);   (* frames sent, oldest first, with their connection *)
  inbox : list Wire.message;        (* frames of the peer not read yet *)
  console : list logline;           (* [carb.log_warn], oldest first *)
  waiters : list waiter             (* threads running [wait_for_first_hearbeat] *)
}.

Definition set_self (v : MavlinkInterface) (w : World) : World :=
  Build_World v (clock w) (link_up w) (endpoint_up w) (next_handle w) (closed w) (wire w)
  (inbox w) (console w) (waiters w).
Definition set_clock (v : float) (w : World) : World :=
  Build_World (self w) v (link_up w) (endpoint_up w) (next_handle w) (closed w) (wire w)
  (inbox w) (console w) (waiters w).
Definition set_link_up (v : bool) (w : World) : World :=
  Build_World (self w) (clock w) v (endpoint_up w) (next_handle w) (closed w) (wire w)
  (inbox w) (console w) (waiters w).
Definition set_endpoint_up (v : bool) (w : World) : World :=
  Build_World (self w) (clock w) (link_up w) v (next_handle w) (closed w) (wire w) (inbox w)
  (console w) (waiters w).
Definition set_next_handle (v : nat) (w : World) : World :=
  Build_World (self w) (clock w) (link_up w) (endpoint_up w) v (closed w) (wire w) (inbox w)
  (console w) (waiters w).
Definition set_closed (v : list nat) (w : World) : World :=
  Build_World (self w) (clock w) (link_up w) (endpoint_up w) (next_handle w) v (wire w)
  (inbox w) (console w) (waiters w).
Definition set_wire (v : list (nat * Wire.frame)) (w : World) : World :=
  Build_World (self w) (clock w) (link_up w) (endpoint_up w) (next_handle w) (closed w) v
  (inbox w) (console w) (waiters w).
Definition set_inbox (v : list Wire.message) (w : World) : World :=
  Build_World (self w) (clock w) (link_up w) (endpoint_up w) (next_handle w) (closed w)
  (wire w) v (console w) (waiters w).
Definition set_console (v : list logline) (w : World) : World :=
  Build_World (self w) (clock w) (link_up w) (endpoint_up w) (next_handle w) (closed w)
  (wire w) (inbox w) v (waiters w).
Definition set_waiters (v : list waiter) (w : World) : World :=
  Build_World (self w) (clock w) (link_up w) (endpoint_up w) (next_handle w) (closed w)
  (wire w) (inbox w) (console w) v.

(** ** Methods as computations over the world *)

Definition M (A : Type) : Type := World -> outcome A * World.

Definition ret {A} (a : A) : M A := fun w => (Ok a, w).

Definition bind {A B} (m : M A) (k : A -> M B) : M B :=
  fun w =>
    match m w with
    | (Ok a, w') => k a w'
    | (Raise e, w') => (Raise e, w')
    | (Hang, w') => (Hang, w')
    end.

Declare Scope py_scope.
Delimit Scope py_scope with py.
Notation "x <- m ;; k" := (bind m (fun x => k))
  (at level 100, m at next level, right associativity) : py_scope.
Notation "m ;; k" := (bind m (fun _ => k))
  (at level 100, right associativity) : py_scope.
Open Scope py_scope.

Definition raise {A} (e : exn) : M A := fun w => (Raise e, w).

(** The value of an expression that reads no attribute. *)
Definition eval {A} (r : outcome A) : M A := fun w => (r, w).

(** [try: m  except: h] with a bare [except]: whatever [m] raises is
    caught, and what [m] wrote before raising stays written. *)
Definition try_except {A} (m h : M A) : M A :=
  fun w =>
    match m w with
    | (Raise _, w') => h w'
    | r => r
    end.

Definition attr {A} (f : MavlinkInterface -> A) : M A :=
  fun w => (Ok (f (self w)), w).

Definition assign (f : MavlinkInterface -> MavlinkInterface) : M unit :=
  fun w => (Ok tt, set_self (f (self w)) w).

(** [self._sensor_data.<field>] and [self._sensor_data.<field> = v] *)
Definition sensor {A} (f : SensorMsg -> A) : M A :=
  attr (fun o => f (sensor_data o)).

Definition assign_sensor (f : SensorMsg -> SensorMsg) : M unit :=
  assign (fun o => set_sensor_data (f (sensor_data o)) o).

(** [carb.log_warn] *)
Definition log_warn (l : logline) : M unit :=
  fun w => (Ok tt, set_console (console w ++ [l]) w).

(** [time.time()] *)
Definition time_time : M float := fun w => (Ok (clock w), w).

(** [mavutil.mavlink_connection(port)]: a new object each time, or a
    failure to open the endpoint. *)
Definition mavlink_connection (port : string) : M Connection :=
  fun w =>
    if endpoint_up w
    then (Ok {| conn_id := next_handle w; conn_port := port |},
          set_next_handle (S (next_handle w)) w)
    else (Raise ConnectionError, w).

(** [self._connection.mav.<frame>_send(...)]: [None] has no attribute
    [mav]; whether the encoder and the transport let the frame through is
    the environment's. *)
Definition conn_send (f : Wire.frame) : M unit :=
  c <- attr connection ;;
  match c with
  | None => raise AttributeError
  | Some c =>
      fun w =>
        if link_up w
        then (Ok tt, set_wire (wire w ++ [(conn_id c, f)]) w)
        else (Raise ConnectionError, w)
  end.

(** [self._connection.close()] *)
Definition conn_close : M unit :=
  c <- attr connection ;;
  match c with
  | None => raise AttributeError
  | Some c => fun w => (Ok tt, set_closed (conn_id c :: closed w) w)
  end.

(** *** The constructor *)

Definition fzero : float := S754_zero false.
Definition fone : float := Eval vm_compute in float_of_int 1.
Definition f250 : float := Eval vm_compute in float_of_int 250.

(** The world in which [MavlinkInterface(connection, num_thrusters,
    enable_lockstep)] has just returned, at wall-clock time [t]. *)
Definition Build (port : string) (num_thrusters : nat) (lockstep : bool)
    (t : float) : World :=
  {| self :=
       {| connection_port := port;
          connection := Some {| conn_id := 0; conn_port := port |};
          update_rate := f250;
          is_running := false;
          GPS_fix_type := 3;
          GPS_satellites_visible := 10;
          GPS_eph := 1;
          GPS_epv := 1;
          sensor_data :=
            {| new_imu_data := false;
               xacc := VFloat fzero; yacc := VFloat fzero; zacc := VFloat fzero;
               xgyro := VFloat fzero; ygyro := VFloat fzero; zgyro := VFloat fzero;
               new_bar_data := false;
               abs_pressure := VFloat fzero; pressure_alt := VFloat fzero;
               temperature := VFloat fzero;
               new_mag_data := false;
               xmag := VFloat fzero; ymag := VFloat fzero; zmag := VFloat fzero;
               new_press_data := false;
               diff_pressure := VFloat fzero;
               new_gps_data := false;
               fix_type := VInt 0;
               latitude_deg := VInt (-999);
               longitude_deg := VInt (-999);
               altitude := VInt (-999);
               eph := VFloat fone;
               epv := VFloat fone;
               velocity := VFloat fzero;
               velocity_north := VFloat fzero;
               velocity_east := VFloat fzero;
               velocity_down := VFloat fzero;
               cog := VFloat fzero;
               satellites_visible := VInt 0 |};
          num_inputs := num_thrusters;
          input_reference := replicate num_thrusters fzero;
          armed := false;
          input_offset := replicate num_thrusters fzero;
          input_scaling := replicate num_thrusters fzero;
          enable_lockstep := lockstep;
          received_first_imu := false;
          received_first_actuator := false;
          received_imu := false;
          received_actuator := false;
          received_first_hearbeat := false;
          first_hearbeat_lock := Unlocked;
          last_heartbeat_sent_time := VInt 0;
          update_thread := None |};
     clock := t;
     link_up := true;
     endpoint_up := true;
     next_handle := 1;
     closed := [];
     wire := [];
     inbox := [];
     console := [];
     waiters := [] |}.

(** *** The producer's side: sensor updates (lines 111-165) *)

Definition update_imu_data (data : dict) : M unit :=
  (* Acelerometer data *)
  v <- eval (getitem_index data "linear_acceleration" 0) ;; assign_sensor (set_xacc v) ;;
  v <- eval (getitem_index data "linear_acceleration" 1) ;; assign_sensor (set_yacc v) ;;
  v <- eval (getitem_index data "linear_acceleration" 2) ;; assign_sensor (set_zacc v) ;;
  (* Gyro data *)
  v <- eval (getitem_index data "angular_velocity" 0) ;; assign_sensor (set_xgyro v) ;;
  v <- eval (getitem_index data "angular_velocity" 1) ;; assign_sensor (set_ygyro v) ;;
  v <- eval (getitem_index data "angular_velocity" 2) ;; assign_sensor (set_zgyro v) ;;
  (* Signal that we have new IMU data *)
  assign_sensor (set_new_imu_data true).

Definition update_gps_data (data : dict) : M unit :=
  z <- eval (int_item data "fix_type") ;; assign_sensor (set_fix_type (VInt z)) ;;
  z <- eval (int_scaled_item data "latitude" 10000000) ;;
  assign_sensor (set_latitude_deg (VInt z)) ;;
  z <- eval (int_scaled_item data "longitude" 10000000) ;;
  assign_sensor (set_longitude_deg (VInt z)) ;;
  z <- eval (int_scaled_item data "altitude" 1000) ;; assign_sensor (set_altitude (VInt z)) ;;
  z <- eval (int_item data "eph") ;; assign_sensor (set_eph (VInt z)) ;;
  z <- eval (int_item data "epv") ;; assign_sensor (set_epv (VInt z)) ;;
  z <- eval (int_scaled_item data "speed" 100) ;; assign_sensor (set_velocity (VInt z)) ;;
  z <- eval (int_scaled_item data "velocity_north" 100) ;;
  assign_sensor (set_velocity_north (VInt z)) ;;
  z <- eval (int_scaled_item data "velocity_east" 100) ;;
  assign_sensor (set_velocity_east (VInt z)) ;;
  z <- eval (int_scaled_item data "velocity_down" 100) ;;
  assign_sensor (set_velocity_down (VInt z)) ;;
  z <- eval (int_scaled_item data "cog" 100) ;; assign_sensor (set_cog (VInt z)) ;;
  z <- eval (int_item data "sattelites_visible") ;;
  assign_sensor (set_satellites_visible (VInt z)) ;;
  (* Signal that we have new GPS data *)
  assign_sensor (set_new_gps_data true).

Definition update_bar_data (data : dict) : M unit :=
  v <- eval (getitem data "temperature") ;; assign_sensor (set_temperature v) ;;
  v <- eval (getitem data "absolute_pressure") ;; assign_sensor (set_abs_pressure v) ;;
  v <- eval (getitem data "pressure_altitude") ;; assign_sensor (set_pressure_alt v) ;;
  (* Signal that we have new Barometer data *)
  assign_sensor (set_new_bar_data true).

Definition update_mag_data (data : dict) : M unit :=
  v <- eval (getitem_index data "magnetic_field" 0) ;; assign_sensor (set_xmag v) ;;
  v <- eval (getitem_index data "magnetic_field" 1) ;; assign_sensor (set_ymag v) ;;
  v <- eval (getitem_index data "magnetic_field" 2) ;; assign_sensor (set_zmag v) ;;
  (* Signal that we have new Magnetometer data *)
  assign_sensor (set_new_mag_data true).

(** The class has no method for the airspeed group: [new_press_data] and
    [diff_pressure] change only when the producer assigns the two
    attributes of [_sensor_data] itself.  This is that pair of
    assignments. *)
Definition write_press_data (v : pyval) : M unit :=
  assign_sensor (set_diff_pressure v) ;;
  assign_sensor (set_new_press_data true).

(** [update_imu] (lines 228-229); the argument can be anything. *)
Definition update_imu {A : Type} (imu_data : A) : M unit :=
  assign (set_received_imu true).

(** *** Sending (lines 324-427) *)

Definition send_heartbeat (mav_type : Z) : M unit :=
  log_warn (Warn "Sending heartbeat") ;;
  conn_send (Wire.HEARTBEAT
    {| Wire.mav_type := mav_type;
       Wire.autopilot := Wire.MAV_AUTOPILOT_INVALID;
       Wire.base_mode := 0; Wire.custom_mode := 0; Wire.system_status := 0 |}).

(** Lines 345-365 of [send_sensor_msgs]: which sensors have new data to
    send.  Each dirty flag found up is taken down. *)
Definition collect_fields_updated : M Z :=
  let fields_updated := 0 in
  f <- sensor new_imu_data ;;
  fields_updated <-
    (if f
     then assign_sensor (set_new_imu_data false) ;;
          ret (Z.lor (Z.lor fields_updated SensorSource.ACCEL) SensorSource.GYRO)
     else ret fields_updated) ;;
  f <- sensor new_mag_data ;;
  fields_updated <-
    (if f
     then assign_sensor (set_new_mag_data false) ;;
          ret (Z.lor fields_updated SensorSource.MAG)
     else ret fields_updated) ;;
  f <- sensor new_bar_data ;;
  fields_updated <-
    (if f
     then assign_sensor (set_new_bar_data false) ;;
          ret (Z.lor fields_updated SensorSource.BARO)
     else ret fields_updated) ;;
  f <- sensor new_press_data ;;
  fields_updated <-
    (if f
     then assign_sensor (set_new_press_data false) ;;
          ret (Z.lor fields_updated SensorSource.DIFF_PRESS)
     else ret fields_updated) ;;
  ret fields_updated.

(** The arguments of the call at lines 368-384, read off the attributes.
    The slot pymavlink names [temperature] is given [altitude]. *)
Definition hil_sensor_args (t : Z) (m : SensorMsg) (fields_updated : Z)
  : Wire.hil_sensor :=
  {| Wire.time_usec := t;
     Wire.xacc := xacc m; Wire.yacc := yacc m; Wire.zacc := zacc m;
     Wire.xgyro := xgyro m; Wire.ygyro := ygyro m; Wire.zgyro := zgyro m;
     Wire.xmag := xmag m; Wire.ymag := ymag m; Wire.zmag := zmag m;
     Wire.abs_pressure := abs_pressure m;
     Wire.diff_pressure := diff_pressure m;
     Wire.pressure_alt := pressure_alt m;
     Wire.temperature := altitude m;
     Wire.fields_updated := fields_updated |}.

Definition send_sensor_msgs : M unit :=
  log_warn (Warn "Sending sensor msgs") ;;
  fields_updated <- collect_fields_updated ;;
  try_except
    (t <- time_time ;;
     t <- eval (trunc t) ;;
     m <- sensor id ;;
     conn_send (Wire.HIL_SENSOR (hil_sensor_args t m fields_updated)))
    (log_warn (Warn "Could not send sensor data through mavlink")).

Definition hil_gps_args (t : Z) (m : SensorMsg) : Wire.hil_gps :=
  {| Wire.gps_time_usec := t;
     Wire.fix_type := fix_type m;
     Wire.lat := latitude_deg m;
     Wire.lon := longitude_deg m;
     Wire.alt := altitude m;
     Wire.eph := eph m;
     Wire.epv := epv m;
     Wire.vel := velocity m;
     Wire.vn := velocity_north m;
     Wire.ve := velocity_east m;
     Wire.vd := velocity_down m;
     Wire.cog := cog m;
     Wire.satellites_visible := satellites_visible m |}.

Definition send_gps_msgs : M unit :=
  log_warn (Warn "Sending GPS msgs") ;;
  (* Do not send GPS data, if no new data was received *)
  f <- sensor new_gps_data ;;
  if negb f then ret tt else
  assign_sensor (set_new_gps_data false) ;;
  try_except
    (t <- time_time ;;
     t <- eval (trunc t) ;;
     m <- sensor id ;;
     conn_send (Wire.HIL_GPS (hil_gps_args t m)))
    (log_warn (Warn "Could not send gps data through mavlink")).

Definition send_ground_truth : M unit := ret tt.

Definition handle_control : M unit := ret tt.

(** *** The scheduler thread: [mavlink_update] (lines 250-286), one step at a
    time, with [poll_mavlink_messages] (lines 289-322) unfolded in it *)

(** [self._connection.recv_match(blocking=...)]: the next frame of the
    peer, [None] when there is none and the call does not block, and no
    return yet when there is none and it blocks. *)
Definition recv_match (blocking : bool) : M (option Wire.message) :=
  c <- attr connection ;;
  match c with
  | None => raise AttributeError
  | Some _ =>
      fun w =>
        match inbox w with
        | m :: rest => (Ok (Some m), set_inbox rest w)
        | [] => if blocking then (Hang, w) else (Ok None, w)
        end
  end.

(** Lines 295-303: the test of the first heartbeat under the lock, then
    the set-up of the receive loop. *)
Definition poll_enter : M pc :=
  f <- attr received_first_hearbeat ;;
  if negb f then ret HeartbeatCheck else
  a <- attr received_first_actuator ;;
  l <- attr enable_lockstep ;;
  let needs_to_wait_for_actuator := a && l in
  assign (set_received_actuator false) ;;
  ret (PollRecv needs_to_wait_for_actuator).

(** Lines 306-322: one turn of the [while True] loop. *)
Definition poll_recv (needs_to_wait_for_actuator : bool) : M pc :=
  msg <- recv_match needs_to_wait_for_actuator ;;
  log_warn (WarnMsg msg) ;;
  r <- attr received_actuator ;;
  if negb needs_to_wait_for_actuator || r
  then ret HeartbeatCheck
  else ret (PollRecv needs_to_wait_for_actuator).

(** Line 270: [(time.time() - self._last_heartbeat_sent_time) > 1.0 or
    self._received_first_hearbeat == False] *)
Definition heartbeat_due : M bool :=
  t <- time_time ;;
  last <- attr last_heartbeat_sent_time ;;
  d <- eval (fsub_val t last) ;;
  if fgt d fone then ret true else
  f <- attr received_first_hearbeat ;;
  ret (negb f).

(** Line 286: [time.sleep(1.0/self._update_rate)].  The division raises on
    a zero rate, [time.sleep] on a period that is negative, not a number
    or too large (here: infinite; the finite periods [time.sleep] refuses
    as too large are not told apart); how long the thread sleeps is not
    part of the world. *)
Definition sleep_period : M unit :=
  r <- attr update_rate ;;
  match r with
  | S754_zero _ => raise ZeroDivisionError
  | _ =>
      match fdiv fone r with
      | S754_nan => raise ValueError
      | S754_infinity false => raise OverflowError
      | S754_infinity true => raise ValueError
      | S754_finite true _ _ => raise ValueError
      | _ => ret tt
      end
  end.

Definition sched_at (p : pc) : M pc :=
  match p with
  | LoopTest =>                                   (* line 256 *)
      r <- attr is_running ;;
      ret (if r then LockstepGate else Exited)
  | LockstepGate =>                               (* line 259 *)
      f <- attr received_first_imu ;;
      ret (if f then LockstepWait else ClearImu)
  | LockstepWait =>                               (* lines 260-262 *)
      i <- attr received_imu ;;
      r <- attr is_running ;;
      ret (if negb i && r then LockstepWait else ClearImu)
  | ClearImu =>                                   (* line 264 *)
      assign (set_received_imu false) ;;
      ret Poll
  | Poll => poll_enter                            (* line 267 *)
  | PollRecv needs => poll_recv needs
  | HeartbeatCheck =>                             (* line 270 *)
      b <- heartbeat_due ;;
      ret (if b then HeartbeatSend else SensorMsgs)
  | HeartbeatSend =>                              (* line 271 *)
      send_heartbeat Wire.MAV_TYPE_GENERIC ;;
      ret HeartbeatStamp
  | HeartbeatStamp =>                             (* line 272 *)
      t <- time_time ;;
      assign (set_last_heartbeat_sent_time (VFloat t)) ;;
      ret SensorMsgs
  | SensorMsgs =>                                 (* line 275 *)
      send_sensor_msgs ;;
      ret GroundTruth
  | GroundTruth =>                                (* line 278 *)
      send_ground_truth ;;
      ret Control
  | Control =>                                    (* line 283 *)
      handle_control ;;
      ret Sleep
  | Sleep =>                                      (* line 286 *)
      sleep_period ;;
      ret LoopTest
  | Exited => ret Exited
  | Crashed e => ret (Crashed e)
  end.

Definition finished (p : pc) : bool :=
  match p with
  | Exited | Crashed _ => true
  | _ => false
  end.

Definition set_thread (t : Thread) (w : World) : World :=
  set_self (set_update_thread (Some t) (self w)) w.

(** One step of the thread [_update_thread] refers to.  A blocked receive
    leaves the thread where it is; an exception nobody catches ends it. *)
Definition sched_step (w : World) : World :=
  match update_thread (self w) with
  | Some (At p) =>
      match sched_at p w with
      | (Ok p', w') => set_thread (At p') w'
      | (Raise e, w') => set_thread (At (Crashed e)) w'
      | (Hang, _) => w
      end
  | _ => w
  end.

Definition sched_pc (w : World) : option pc :=
  match update_thread (self w) with
  | Some (At p) => Some p
  | _ => None
  end.

(** *** [wait_for_first_hearbeat] (lines 231-248), run by the [i]-th of the
    threads [start_stream] has spawned *)

Fixpoint drop_through_heartbeat (l : list Wire.message) : list Wire.message :=
  match l with
  | [] => []
  | m :: l' => if Wire.is_peer_heartbeat m then l' else drop_through_heartbeat l'
  end.

Definition waiter_step (i : nat) (w : World) : World :=
  match waiters w !! i with
  | Some WaitStart =>                             (* line 238 *)
      set_waiters (<[i := WaitHeartbeat]> (waiters w))
        (set_console (console w ++ [Warn "Waiting for first hearbeat"]) w)
  | Some WaitHeartbeat =>                         (* lines 239-248 *)
      match connection (self w) with
      | None => set_waiters (delete i (waiters w)) w
      | Some _ =>
          if existsb Wire.is_peer_heartbeat (inbox w)
          then
            let o := set_received_first_hearbeat true (self w) in
            let o :=
              match update_thread o with
              | Some NotStarted => set_update_thread (Some (At LoopTest)) o
              | _ => o
              end in
            set_waiters (delete i (waiters w))
              (set_console (console w ++ [Warn "Received first hearbeat"])
                 (set_inbox (drop_through_heartbeat (inbox w))
                    (set_self o w)))
          else set_inbox [] w
      end
  | None => w
  end.

(** *** What happens around a blocked caller *)

Inductive env_event : Type :=
| SchedStep
| WaiterStep (i : nat)
| ClockTick (t : float)
| LinkSet (up : bool)
| EndpointSet (up : bool)
| Deliver (m : Wire.message).

Definition env_step (e : env_event) (w : World) : World :=
  match e with
  | SchedStep => sched_step w
  | WaiterStep i => waiter_step i w
  | ClockTick t => set_clock t w
  | LinkSet up => set_link_up up w
  | EndpointSet up => set_endpoint_up up w
  | Deliver m => set_inbox (inbox w ++ [m]) w
  end.

(** [self._update_thread.join()]: the caller waits through [during] for
    the thread to end, and is still waiting if it has not ended by then. *)
Fixpoint join (during : list env_event) : M unit :=
  fun w =>
    match update_thread (self w) with
    | None => (Raise AttributeError, w)
    | Some NotStarted => (Raise RuntimeError, w)
    | Some (At p) =>
        if finished p then (Ok tt, w)
        else
          match during with
          | [] => (Hang, w)
          | e :: during' => join during' (env_step e w)
          end
    end.

(** *** The lifecycle (lines 173-226) *)

Definition re_initialize_interface : M unit :=
  assign (set_is_running false) ;;
  (* Restart the connection *)
  port <- attr connection_port ;;
  c <- mavlink_connection port ;;
  assign (set_connection (Some c)) ;;
  assign (set_received_first_imu false) ;;
  assign (set_received_first_actuator false) ;;
  assign (set_received_imu false) ;;
  assign (set_received_actuator false) ;;
  assign (set_received_first_hearbeat false) ;;
  assign (set_first_hearbeat_lock Unlocked) ;;
  assign (set_last_heartbeat_sent_time (VInt 0)).

Definition start_stream : M unit :=
  (* If we are already running the mavlink interface, then ignore the function call *)
  r <- attr is_running ;;
  if r then ret tt else
  c <- attr connection ;;
  (match c with
   | None => re_initialize_interface
   | Some _ => ret tt
   end) ;;
  assign (set_is_running true) ;;
  assign (set_update_thread (Some NotStarted)) ;;
  fun w => (Ok tt, set_waiters (waiters w ++ [WaitStart]) w).

Definition stop_stream (during : list env_event) : M unit :=
  (* If the simulation was already stoped, then ignore the function call *)
  r <- attr is_running ;;
  if negb r then ret tt else
  assign (set_is_running false) ;;
  join during ;;
  conn_close ;;
  assign (set_connection None).

(** *** Runs: the producer's calls and the environment interleaved *)

Inductive call : Type :=
| UpdateImuData (data : dict)
| UpdateGpsData (data : dict)
| UpdateBarData (data : dict)
| UpdateMagData (data : dict)
| WritePressData (v : pyval)
| UpdateImu (imu_data : dict)
| StartStream
| StopStream (during : list env_event)
| ReInitializeInterface
| SendGpsMsgs.

Definition invoke (c : call) : M unit :=
  match c with
  | UpdateImuData d => update_imu_data d
  | UpdateGpsData d => update_gps_data d
  | UpdateBarData d => update_bar_data d
  | UpdateMagData d => update_mag_data d
  | WritePressData v => write_press_data v
  | UpdateImu d => update_imu d
  | StartStream => start_stream
  | StopStream during => stop_stream during
  | ReInitializeInterface => re_initialize_interface
  | SendGpsMsgs => send_gps_msgs
  end.

Inductive event : Type :=
| Env (e : env_event)
| Call (c : call).

Definition step (e : event) (w : World) : World :=
  match e with
  | Env e => env_step e w
  | Call c => snd (invoke c w)
  end.

Definition run (tr : list event) (w : World) : World :=
  foldl (fun w e => step e w) w tr.

(** [n] steps of the scheduler thread with nothing in between. *)
Fixpoint sched_run (n : nat) (w : World) : World :=
  match n with
  | O => w
  | S n' => sched_run n' (sched_step w)
  end.

(** ** The vocabulary of the properties *)

(** Whether a call returned. *)
Definition is_ok {A} (r : outcome A) : bool :=
  match r with Ok _ => true | _ => false end.

(** The world after [self._sensor_data] has been rewritten by [f]. *)
Definition with_sensor (f : SensorMsg -> SensorMsg) (w : World) : World :=
  set_self (set_sensor_data (f (sensor_data (self w))) (self w)) w.

(** The world after one more line on the console, one more frame on the
    wire, a new recorded heartbeat time. *)
Definition logged (l : logline) (w : World) : World :=
  set_console (console w ++ [l]) w.

Definition sent (c : nat) (f : Wire.frame) (w : World) : World :=
  set_wire (wire w ++ [(c, f)]) w.

Definition stamped (t : float) (w : World) : World :=
  set_self (set_last_heartbeat_sent_time (VFloat t) (self w)) w.

(** Whether a frame sent now gets through, and then on which connection
    and with which timestamp [int(time.time())]. *)
Definition can_send (w : World) : option (nat * Z) :=
  match trunc (clock w), connection (self w), link_up w with
  | Ok t, Some c, true => Some (conn_id c, t)
  | _, _, _ => None
  end.

(** The frame [send_heartbeat] sends from the loop. *)
Definition heartbeat_frame : Wire.frame :=
  Wire.HEARTBEAT
    {| Wire.mav_type := Wire.MAV_TYPE_GENERIC;
       Wire.autopilot := Wire.MAV_AUTOPILOT_INVALID;
       Wire.base_mode := 0; Wire.custom_mode := 0; Wire.system_status := 0 |}.

(** The heartbeat frames sent so far. *)
Definition heartbeats (w : World) : list Wire.frame :=
  filter (fun f => Wire.is_heartbeat f = true) (map snd (wire w)).


(** *** The sensor aggregator between two drains *)

(** All four sensor flags taken down. *)
Definition clear_flags (m : SensorMsg) : SensorMsg :=
  set_new_press_data false
    (set_new_bar_data false (set_new_mag_data false (set_new_imu_data false m))).

(** The bitmask the flags of a [SensorMsg] stand for. *)
Definition mask_of_flags (m : SensorMsg) : Z :=
  Z.lor
    (Z.lor
       (Z.lor (if new_imu_data m then Z.lor SensorSource.ACCEL SensorSource.GYRO else 0)
          (if new_mag_data m then SensorSource.MAG else 0))
       (if new_bar_data m then SensorSource.BARO else 0))
    (if new_press_data m then SensorSource.DIFF_PRESS else 0).

(** The dirty flags of the sensor aggregator, in the order the drain
    reads them. *)
Definition sensor_flags (w : World) : list bool :=
  let m := sensor_data (self w) in
  [new_imu_data m; new_mag_data m; new_bar_data m; new_press_data m].

(** The updates of the sensor aggregator the class has a method for.
    (It has none for the airspeed group: nothing in it sets
    [new_press_data].) *)
Inductive sensor_update : Type :=
| ImuUpdate (data : dict)
| MagUpdate (data : dict)
| BarUpdate (data : dict).

Definition apply_update (u : sensor_update) : M unit :=
  match u with
  | ImuUpdate d => update_imu_data d
  | MagUpdate d => update_mag_data d
  | BarUpdate d => update_bar_data d
  end.

(** The code of the group an update is for; an IMU update is for two. *)
Definition group_code (u : sensor_update) : Z :=
  match u with
  | ImuUpdate _ => Z.lor SensorSource.ACCEL SensorSource.GYRO
  | MagUpdate _ => SensorSource.MAG
  | BarUpdate _ => SensorSource.BARO
  end.

(** The updates are applied in order; one that raises leaves behind what it
    wrote before raising and the producer carries on.  Returned with the
    world are the codes of the updates that returned. *)
Fixpoint apply_updates (us : list sensor_update) (w : World) : list Z * World :=
  match us with
  | [] => ([], w)
  | u :: us' =>
      match apply_update u w with
      | (Ok _, w') =>
          let '(cs, w'') := apply_updates us' w' in (group_code u :: cs, w'')
      | (_, w') => apply_updates us' w'
      end
  end.

(** Whether [d[k]] is there, and whether it is a sequence with components
    0, 1 and 2. *)
Definition has_key (d : dict) (k : string) : bool :=
  match d !! k with
  | Some _ => true
  | None => false
  end.

Definition has_triple (d : dict) (k : string) : bool :=
  match d !! k with
  | Some (VList (_ :: _ :: _ :: _)) => true
  | _ => false
  end.

(** Whether the argument of an update holds everything the update reads. *)
Definition complete (u : sensor_update) : bool :=
  match u with
  | ImuUpdate d =>
      has_triple d "linear_acceleration" && has_triple d "angular_velocity"
  | MagUpdate d => has_triple d "magnetic_field"
  | BarUpdate d =>
      has_key d "temperature" && has_key d "absolute_pressure"
      && has_key d "pressure_altitude"
  end.

(** The codes of the groups a list of updates touches: those of the
    updates whose argument is complete, in order. *)
Fixpoint touched_codes (us : list sensor_update) : list Z :=
  match us with
  | [] => []
  | u :: us' =>
      if complete u then group_code u :: touched_codes us' else touched_codes us'
  end.

(** The bitwise OR of a list of codes. *)
Definition or_codes (cs : list Z) : Z := foldr Z.lor 0 cs.

(** *** The conversions of the GPS aggregator *)

(** The keys [update_gps_data] scales, each with its factor and the
    attribute it goes to. *)
Definition gps_scaled : list (string * Z * (SensorMsg -> pyval)) :=
  [("latitude", 10000000, latitude_deg);
   ("longitude", 10000000, longitude_deg);
   ("altitude", 1000, altitude);
   ("speed", 100, velocity);
   ("velocity_north", 100, velocity_north);
   ("velocity_east", 100, velocity_east);
   ("velocity_down", 100, velocity_down);
   ("cog", 100, cog)].

(** The eleven attributes [update_gps_data] assigns before it reads the
    satellite count, in the order of the assignments. *)
Definition gps_fields (m : SensorMsg) : list pyval :=
  [fix_type m; latitude_deg m; longitude_deg m; altitude m; eph m; epv m;
   velocity m; velocity_north m; velocity_east m; velocity_down m; cog m].

(** The eleven conversions that come before that read, in the same order. *)
Definition gps_conversions (data : dict) : list (outcome Z) :=
  [int_item data "fix_type";
   int_scaled_item data "latitude" 10000000;
   int_scaled_item data "longitude" 10000000;
   int_scaled_item data "altitude" 1000;
   int_item data "eph";
   int_item data "epv";
   int_scaled_item data "speed" 100;
   int_scaled_item data "velocity_north" 100;
   int_scaled_item data "velocity_east" 100;
   int_scaled_item data "velocity_down" 100;
   int_scaled_item data "cog" 100].

(** *** Views of the world that a computation may leave alone *)

Definition keeps {V A : Type} (view : World -> V) (m : M A) : Prop :=
  forall w, view (snd (m w)) = view w.

(** What the lifecycle methods own: the connection, its endpoint, the
    running flag, and the handles given out and closed so far. *)
Definition lifecycle (w : World)
  : option Connection * string * bool * nat * list nat :=
  (connection (self w), connection_port (self w), is_running (self w),
   next_handle w, closed w).

(** The thread [_update_thread] refers to, and where it stands. *)
Definition thread_view (w : World) : option Thread := update_thread (self w).

(** Handles are given out in order: the live connection and the closed
    ones are older than the next one, and the live connection is on the
    endpoint of the interface. *)
Definition handles_ok (w : World) : Prop :=
  (forall c, connection (self w) = Some c ->
             (conn_id c < next_handle w)%nat /\ conn_port c = connection_port (self w)) /\
  Forall (fun h => (h < next_handle w)%nat) (closed w).

(** The four [LockstepFlags] and the first-heartbeat flag. *)
Definition transient_flags (w : World) : list bool :=
  [received_first_imu (self w); received_first_actuator (self w);
   received_imu (self w); received_actuator (self w);
   received_first_hearbeat (self w)].

(** *** The scheduler thread on its way out, and at the gate *)

(** How many steps the scheduler thread is from its end once the running
    flag is down and it does not wait for an actuator message. *)
Definition rank (p : pc) : nat :=
  match p with
  | LockstepGate => 13
  | LockstepWait => 12
  | ClearImu => 11
  | Poll => 10
  | PollRecv _ => 9
  | HeartbeatCheck => 8
  | HeartbeatSend => 7
  | HeartbeatStamp => 6
  | SensorMsgs => 5
  | GroundTruth => 4
  | Control => 3
  | Sleep => 2
  | LoopTest => 1
  | Exited | Crashed _ => 0
  end.

(** The flags that make [poll_mavlink_messages] wait for an actuator. *)
Definition waits_for_actuator (w : World) : bool :=
  received_first_actuator (self w) && enable_lockstep (self w).

(** A stopping interface whose scheduler thread will get to its end. *)
Definition winding_down (w : World) : Prop :=
  is_running (self w) = false /\
  waits_for_actuator w = false /\
  sched_pc w <> Some (PollRecv true).

(** Along the run [tr] from [w], no IMU sample is announced and nobody
    stops the stream: [received_imu] is down and [is_running] up in every
    world the run goes through. *)
Fixpoint quiet (tr : list event) (w : World) : bool :=
  negb (received_imu (self w)) && is_running (self w) &&
  match tr with
  | [] => true
  | e :: tr' => quiet tr' (step e w)
  end.

(** *** Samples and scenarios *)

Definition endpoint : string := "udpin:localhost:4560".

(** [{"linear_acceleration": [1, 2, 3], "angular_velocity": [0, 0, 0]}] *)
Definition imu_123 : dict :=
  <["linear_acceleration" := VList [VInt 1; VInt 2; VInt 3]]>
    (<["angular_velocity" := VList [VInt 0; VInt 0; VInt 0]]> ∅).

(** The binary64 nearest to 47.1234567: what the literal denotes. *)
Definition lat_47_1234567 : float :=
  Eval vm_compute in fdiv (float_of_int 471234567) (float_of_int 10000000).

(** The binary64 nearest to 1.9999. *)
Definition alt_1_9999 : float :=
  Eval vm_compute in fdiv (float_of_int 19999) (float_of_int 10000).

(** A GPS sample as the code reads it, the key of the satellite count
    spelt the way [update_gps_data] spells it. *)
Definition gps_sample : dict :=
  <["fix_type" := VInt 3]>
  (<["latitude" := VFloat lat_47_1234567]>
  (<["longitude" := VFloat (float_of_int 8)]>
  (<["altitude" := VFloat alt_1_9999]>
  (<["eph" := VFloat fone]>
  (<["epv" := VFloat fone]>
  (<["speed" := VFloat fzero]>
  (<["velocity_north" := VFloat fzero]>
  (<["velocity_east" := VFloat fzero]>
  (<["velocity_down" := VFloat fzero]>
  (<["cog" := VFloat fzero]>
  (<["sattelites_visible" := VInt 10]> ∅))))))))))).

(** The same sample with the key spelt [satellites_visible]. *)
Definition gps_sample_spelt_right : dict :=
  <["satellites_visible" := VInt 10]> (delete "sattelites_visible" gps_sample).

(** Wall-clock readings for the scenarios: 10.0 and 10.5 seconds. *)
Definition t_10 : float := Eval vm_compute in float_of_int 10.
Definition t_10_5 : float := Eval vm_compute in fdiv (float_of_int 21) (float_of_int 2).

(** [start_stream] has returned and [mavlink_update] is entered before the
    peer's first heartbeat has come (the method is public; the interface
    itself enters it only after that heartbeat). *)
Definition entered_early (t : float) : World :=
  set_thread (At LoopTest) (snd (start_stream (Build endpoint 4 true t))).

(** The producer and the peer bring the interface to its steady state:
    stream started, first heartbeat received, the scheduler thread some
    steps into its first tick. *)
Definition streaming : World :=
  run [Call StartStream; Env (WaiterStep 0); Env (Deliver Wire.PEER_HEARTBEAT);
       Env (WaiterStep 0); Env SchedStep; Env SchedStep; Env SchedStep;
       Call (UpdateImu ∅); Env SchedStep; Env SchedStep]
    (Build endpoint 4 true t_10).

(** The scheduler thread is about to enter the lockstep gate of a tick,
    with the lockstep setting and flags as given. *)
Definition at_gate (lockstep first_imu first_actuator : bool) : World :=
  set_thread (At LockstepGate)
    (set_self
       (set_received_first_imu first_imu
          (set_received_first_actuator first_actuator
             (set_is_running true (self (Build endpoint 4 lockstep t_10)))))
       (Build endpoint 4 lockstep t_10)).

(** Traffic that announces no IMU sample: GPS and barometer samples, a
    clock tick, and steps of the scheduler thread in between. *)
Definition gate_traffic : list event :=
  [Call (UpdateGpsData gps_sample); Env SchedStep; Env (ClockTick t_10_5);
   Call (UpdateBarData ∅); Env SchedStep].

(** ** More vocabulary: the groups of the sensor record, and the rest of
    the class *)

(** Whether the bits of a group are all set in a mask. *)
Definition has_group (mask code : Z) : bool := Z.land mask code =? code.

(** The attributes of [SensorMsg] group by group, each with its flag. *)
Definition imu_group (m : SensorMsg) : bool * list pyval :=
  (new_imu_data m, [xacc m; yacc m; zacc m; xgyro m; ygyro m; zgyro m]).

Definition bar_group (m : SensorMsg) : bool * list pyval :=
  (new_bar_data m, [abs_pressure m; pressure_alt m; temperature m]).

Definition mag_group (m : SensorMsg) : bool * list pyval :=
  (new_mag_data m, [xmag m; ymag m; zmag m]).

Definition press_group (m : SensorMsg) : bool * list pyval :=
  (new_press_data m, [diff_pressure m]).

Definition gps_group (m : SensorMsg) : bool * list pyval :=
  (new_gps_data m, gps_fields m ++ [satellites_visible m]).

(** The groups a call of the producer has no business with. *)
Definition foreign_groups (c : call) (m : SensorMsg) : list (bool * list pyval) :=
  match c with
  | UpdateImuData _ => [bar_group m; mag_group m; press_group m; gps_group m]
  | UpdateGpsData _ => [imu_group m; bar_group m; mag_group m; press_group m]
  | UpdateBarData _ => [imu_group m; mag_group m; press_group m; gps_group m]
  | UpdateMagData _ => [imu_group m; bar_group m; press_group m; gps_group m]
  | WritePressData _ => [imu_group m; bar_group m; mag_group m; gps_group m]
  | _ => [imu_group m; bar_group m; mag_group m; press_group m; gps_group m]
  end.

(** The calls that feed the aggregators. *)
Definition is_sensor_call (c : call) : bool :=
  match c with
  | UpdateImuData _ | UpdateGpsData _ | UpdateBarData _ | UpdateMagData _
  | WritePressData _ => true
  | _ => false
  end.

(** A computation that writes to [_sensor_data] and nowhere else. *)
Definition sensor_only {A} (m : M A) : Prop :=
  forall w, exists f, snd (m w) = with_sensor f w.

(** The twelve conversions of [update_gps_data] and the twelve attributes
    they go to, in the order of the source. *)
Definition gps_all_conversions (data : dict) : list (outcome Z) :=
  gps_conversions data ++ [int_item data "sattelites_visible"].

Definition gps_all_fields (m : SensorMsg) : list pyval :=
  gps_fields m ++ [satellites_visible m].

(** The values of the conversions that come before the first one that
    does not return, and the exception of that one. *)
Fixpoint ok_prefix (rs : list (outcome Z)) : list Z :=
  match rs with
  | Ok z :: rs' => z :: ok_prefix rs'
  | _ => []
  end.

Fixpoint first_raise (rs : list (outcome Z)) : option exn :=
  match rs with
  | Ok _ :: rs' => first_raise rs'
  | Raise e :: _ => Some e
  | _ => None
  end.

(** The [HIL_GPS] frames among those sent. *)
Definition gps_frames (l : list (nat * Wire.frame)) : list Wire.hil_gps :=
  omap (fun '(_, f) => match f with Wire.HIL_GPS g => Some g | _ => None end) l.

(** What the scheduler thread has no business with: the GPS frames on the
    wire, and in [_sensor_data] every value and the GPS dirty flag (all
    but the four flags of the sensor aggregator). *)
Definition gps_view (w : World) : list Wire.hil_gps * SensorMsg :=
  (gps_frames (wire w), clear_flags (sensor_data (self w))).

Definition is_gps_frame (f : Wire.frame) : bool :=
  match f with Wire.HIL_GPS _ => true | _ => false end.


(** The stream is started and the peer's first heartbeat has just been
    taken by the waiting thread, which has started the loop. *)
Definition handshaken : World :=
  run [Call StartStream; Env (WaiterStep 0); Env (Deliver (Wire.PEER_OTHER 30));
       Env (Deliver Wire.PEER_HEARTBEAT); Env (Deliver (Wire.PEER_OTHER 31));
       Env (WaiterStep 0)]
    (Build endpoint 4 true t_10).

(** The stream is started and no heartbeat of the peer has come. *)
Definition awaiting_heartbeat : World :=
  run [Call StartStream; Env (WaiterStep 0)] (Build endpoint 4 true t_10).

(** [__del__] (lines 167-171): the connection is closed if there is one;
    the attribute keeps referring to it. *)
Definition del_interface : M unit :=
  c <- attr connection ;;
  match c with
  | None => ret tt
  | Some _ => conn_close
  end.

(** No connection has been closed twice, and the one in use has not been
    closed. *)
Definition tidy (w : World) : Prop :=
  handles_ok w /\
  NoDup (closed w) /\
  forall c, connection (self w) = Some c -> conn_id c ∉ closed w.

(** The connection [h] has been dropped: the interface does not refer to
    it, and it was never closed. *)
Definition leaked (h : nat) (w : World) : Prop :=
  (h < next_handle w)%nat /\
  (h ∉ closed w) /\
  forall c, connection (self w) = Some c -> conn_id c <> h.

(** The lockstep is not engaged: the flags that gate its two waits are
    down, and the scheduler thread is in neither wait. *)
Definition dormant (w : World) : Prop :=
  received_first_imu (self w) = false /\
  received_first_actuator (self w) = false /\
  sched_pc w <> Some LockstepWait /\
  sched_pc w <> Some (PollRecv true).

(** The flags that gate the waits of the lockstep, and the thread. *)
Definition lockstep_view (w : World) : bool * bool * option Thread :=
  (received_first_imu (self w), received_first_actuator (self w),
   update_thread (self w)).

Definition gate_flags (w : World) : bool * bool :=
  (received_first_imu (self w), received_first_actuator (self w)).

(** The scheduler thread runs only with the peer's first heartbeat in. *)
Definition started_after_heartbeat (w : World) : Prop :=
  forall p, sched_pc w = Some p -> received_first_hearbeat (self w) = true.

Definition heartbeat_view (w : World) : bool * option Thread :=
  (received_first_hearbeat (self w), update_thread (self w)).

Definition heartbeat_flag (w : World) : bool := received_first_hearbeat (self w).

(** No direct call of [re_initialize_interface] in a run. *)
Definition is_re_initialize (e : event) : bool :=
  match e with Call ReInitializeInterface => true | _ => false end.

(** A session: the stream is started, the peer shakes hands, the loop
    runs for a while, the stream is stopped and started again. *)
Definition session : list event :=
  [Call StartStream; Env (WaiterStep 0); Env (Deliver Wire.PEER_HEARTBEAT);
   Env (WaiterStep 0); Env SchedStep; Env SchedStep; Env SchedStep;
   Call (StopStream (replicate 13 SchedStep)); Call StartStream].

(** Whether lines 270-271 get through: the time since the recorded send
    can be computed, there is a connection, and the frame gets through. *)
Definition heartbeat_goes_out (w : World) : option Connection :=
  match fsub_val (clock w) (last_heartbeat_sent_time (self w)),
        connection (self w), link_up w with
  | Ok _, Some c, true => Some c
  | _, _, _ => None
  end.

(** The link goes down in the first tick of a loop entered before the
    peer's heartbeat. *)
Definition entered_early_link_down : World :=
  set_link_up false (sched_run 3 (entered_early t_10)).

(** * Properties *)

(** ** Stepping through a method *)

Ltac step_m :=
  match goal with
  | |- context [match ?r with Ok _ => _ | Raise _ => _ | Hang => _ end] =>
      destruct r eqn:?
  end.

(** Opens a world down to the fields of its [SensorMsg]. *)
Ltac open_world w :=
  let o := fresh "o" in
  let m := fresh "m" in
  destruct w as [o ? ? ? ? ? ? ? ? ?];
  destruct o as [? ? ? ? ? ? ? ? m ? ? ? ? ? ? ? ? ? ? ? ? ? ?];
  destruct m as [f_imu ? ? ? ? ? ? f_bar ? ? ? f_mag ? ? ? f_press ? f_gps
                   ? ? ? ? ? ? ? ? ? ? ? ?].

(** ** The drain of the sensor aggregator *)

Lemma collect_fields_updated_spec (w : World) :
  collect_fields_updated w
  = (Ok (mask_of_flags (sensor_data (self w))), with_sensor clear_flags w).
Proof.
  open_world w.
  unfold collect_fields_updated, mask_of_flags, with_sensor, clear_flags,
    bind, sensor, attr, assign_sensor, assign, ret.
  cbn.
  destruct f_imu, f_mag, f_bar, f_press; reflexivity.
Qed.

Lemma sensor_data_with_sensor (f : SensorMsg -> SensorMsg) (w : World) :
  sensor_data (self (with_sensor f w)) = f (sensor_data (self w)).
Proof. reflexivity. Qed.

Lemma assign_sensor_eq (f : SensorMsg -> SensorMsg) (w : World) :
  assign_sensor f w = (Ok tt, with_sensor f w).
Proof. reflexivity. Qed.

(** Rewrites a method made of reads of the argument and assignments to
    [_sensor_data] into its cases, one for each read that can raise. *)
Ltac sensor_cases :=
  unfold bind, eval;
  repeat (step_m; rewrite ?assign_sensor_eq; cbn [fst snd is_ok]; try reflexivity).

(** An update that returns puts the code of its group in the mask the
    flags stand for; one that raises leaves the flags as they were. *)
Lemma apply_update_mask (u : sensor_update) (w : World) :
  mask_of_flags (sensor_data (self (snd (apply_update u w))))
  = if is_ok (fst (apply_update u w))
    then Z.lor (group_code u) (mask_of_flags (sensor_data (self w)))
    else mask_of_flags (sensor_data (self w)).
Proof.
  destruct u as [d | d | d]; cbn [apply_update];
    unfold update_imu_data, update_mag_data, update_bar_data.
  all: sensor_cases.
  all: rewrite ?assign_sensor_eq; cbn [fst snd is_ok];
    rewrite !sensor_data_with_sensor;
    destruct (sensor_data (self w)) as
      [f_imu ? ? ? ? ? ? f_bar ? ? ? f_mag ? ? ? f_press ? f_gps
         ? ? ? ? ? ? ? ? ? ? ? ?];
    destruct f_imu, f_mag, f_bar, f_press; reflexivity.
Qed.

(** An update returns exactly when its argument is complete: every read
    of the argument finds its key and, under it, its component. *)
Lemma apply_update_returns (u : sensor_update) (w : World) :
  is_ok (fst (apply_update u w)) = complete u.
Proof.
  destruct u as [d | d | d]; cbn [apply_update complete];
    unfold update_imu_data, update_mag_data, update_bar_data, has_triple, has_key,
      bind, eval, getitem_index, getitem, and_then, index.
  - destruct (d !! "linear_acceleration") as [[z | f | [| a [| b [| c l]]]] |];
      cbn; try reflexivity.
    destruct (d !! "angular_velocity") as [[z | f | [| a' [| b' [| c' l']]]] |];
      cbn; reflexivity.
  - destruct (d !! "magnetic_field") as [[z | f | [| a [| b [| c l]]]] |];
      cbn; reflexivity.
  - destruct (d !! "temperature"); cbn; [| reflexivity].
    destruct (d !! "absolute_pressure"); cbn; [| reflexivity].
    destruct (d !! "pressure_altitude"); cbn; reflexivity.
Qed.

(** So the updates that return are those whose argument is complete. *)
Lemma apply_updates_touched (us : list sensor_update) (w : World) :
  fst (apply_updates us w) = touched_codes us.
Proof.
  revert w; induction us as [| u us IH]; intros w; [reflexivity |].
  cbn [apply_updates touched_codes].
  rewrite <- (apply_update_returns u w).
  destruct (apply_update u w) as [[[] | e |] w']; cbn [fst is_ok].
  - specialize (IH w'). destruct (apply_updates us w') as [cs w''].
    cbn [fst] in *. rewrite IH. reflexivity.
  - apply IH.
  - apply IH.
Qed.

Lemma or_codes_cons (c : Z) (cs : list Z) :
  or_codes (c :: cs) = Z.lor c (or_codes cs).
Proof. reflexivity. Qed.

(** An IMU sample, a magnetometer update that raises on its empty
    argument, a barometer update that raises half-way: one group is
    touched. *)
Example touched_by_imu_only :
  fst (apply_updates
         [ImuUpdate imu_123; MagUpdate ∅;
          BarUpdate (<["temperature" := VInt 20]> ∅)]
         (Build endpoint 4 true fzero))
  = [0x3F].
Proof. vm_compute. reflexivity. Qed.

(** Whatever the flags stood for before, after the updates they stand for
    that and the codes of the groups touched. *)
Lemma apply_updates_mask (us : list sensor_update) (w : World) :
  mask_of_flags (sensor_data (self (snd (apply_updates us w))))
  = Z.lor (or_codes (fst (apply_updates us w)))
      (mask_of_flags (sensor_data (self w))).
Proof.
  revert w; induction us as [| u us IH]; intros w.
  - reflexivity.
  - cbn [apply_updates].
    pose proof (apply_update_mask u w) as Hu.
    destruct (apply_update u w) as [[[] | e |] w'] eqn:Hr; cbn [fst snd is_ok] in Hu.
    + specialize (IH w').
      destruct (apply_updates us w') as [cs w''] eqn:Hrs; cbn [fst snd] in *.
      rewrite IH, Hu, or_codes_cons.
      rewrite !Z.lor_assoc. f_equal. apply Z.lor_comm.
    + rewrite IH, Hu. reflexivity.
    + rewrite IH, Hu. reflexivity.
Qed.

(** What [send_sensor_msgs] does, in one equation: it never raises; the
    flags are down before the send is tried; the frame carries every
    stored value and the mask the flags stood for. *)
Lemma send_sensor_msgs_spec (w : World) :
  send_sensor_msgs w
  = (Ok tt,
     let w1 := with_sensor clear_flags (logged (Warn "Sending sensor msgs") w) in
     match can_send w with
     | Some (c, t) =>
         sent c (Wire.HIL_SENSOR
                   (hil_sensor_args t (clear_flags (sensor_data (self w)))
                      (mask_of_flags (sensor_data (self w))))) w1
     | None => logged (Warn "Could not send sensor data through mavlink") w1
     end).
Proof.
  unfold send_sensor_msgs.
  unfold bind at 1. unfold log_warn at 1.
  unfold bind at 1. rewrite collect_fields_updated_spec.
  unfold can_send, try_except, bind, time_time, eval, sensor, attr, conn_send,
    raise, log_warn, logged, sent, with_sensor.
  open_world w; cbn.
  destruct clock0 as [s | s | | s m e]; cbn; try reflexivity.
  all: destruct connection0 as [c |]; cbn; try reflexivity.
  all: destruct link_up0; reflexivity.
Qed.

Lemma sensor_flags_cleared (w : World) :
  sensor_flags (with_sensor clear_flags w) = [false; false; false; false].
Proof. reflexivity. Qed.


Lemma send_sensor_msgs_sensor_data (w : World) :
  sensor_data (self (snd (send_sensor_msgs w))) = clear_flags (sensor_data (self w)).
Proof.
  rewrite send_sensor_msgs_spec; cbn [snd].
  destruct (can_send w) as [[c t] |]; reflexivity.
Qed.

(** C1. Whatever updates of the sensor aggregator ([update_imu_data],
    [update_mag_data], [update_bar_data]) come between two drains, the
    second drain composes the bitwise OR of the codes of the groups touched
    since the first, with ACCEL = 0x07, GYRO = 0x38, MAG = 0x1C0,
    BARO = 0x1A00, DIFF_PRESS = 0x400 (an IMU update gives 0x3F).  An
    update touches its group when its argument holds everything it reads:
    it is then, and only then, that it returns and has put its flag up.
    The class has no update for the differential pressure: its code is in
    the mask exactly when [new_press_data] has been set since the first
    drain ([press]), which only an assignment from outside the class does.
    The frame the drain sends carries that mask, and the four dirty flags
    of the sensor aggregator are down when it returns.  (The dirty flag of
    the GPS aggregator is not its business: it is left as it was.) *)
Theorem drain_mask_is_or_of_touched (w0 : World) (press : bool)
    (us : list sensor_update) :
  let w1 := with_sensor (set_new_press_data press) (snd (send_sensor_msgs w0)) in
  let w2 := snd (apply_updates us w1) in
  let w3 := snd (send_sensor_msgs w2) in
  let mask :=
    Z.lor (or_codes (touched_codes us))
      (if press then SensorSource.DIFF_PRESS else 0) in
  (SensorSource.ACCEL = 0x07 /\ SensorSource.GYRO = 0x38 /\
   SensorSource.MAG = 0x1C0 /\ SensorSource.BARO = 0x1A00 /\
   SensorSource.DIFF_PRESS = 0x400 /\
   forall d, group_code (ImuUpdate d) = 0x3F) /\
  fst (apply_updates us w1) = touched_codes us /\
  fst (collect_fields_updated w2) = Ok mask /\
  fst (send_sensor_msgs w2) = Ok tt /\
  wire w3
  = match can_send w2 with
    | Some (c, t) =>
        (wire w2 ++ [(c, Wire.HIL_SENSOR
                           (hil_sensor_args t (sensor_data (self w3)) mask))])%list
    | None => wire w2
    end /\
  sensor_flags w3 = [false; false; false; false] /\
  new_gps_data (sensor_data (self w3)) = new_gps_data (sensor_data (self w2)).
Proof.
  intros w1 w2 w3 mask.
  assert (Hmask : mask_of_flags (sensor_data (self w2)) = mask).
  { subst w2 mask. rewrite apply_updates_mask, apply_updates_touched.
    f_equal. subst w1.
    rewrite sensor_data_with_sensor, send_sensor_msgs_sensor_data.
    destruct press; reflexivity. }
  split; [repeat split |].
  split; [apply apply_updates_touched |].
  rewrite collect_fields_updated_spec; cbn [fst]. rewrite Hmask.
  split; [reflexivity |].
  assert (Hsd : sensor_data (self w3) = clear_flags (sensor_data (self w2)))
    by (subst w3; apply send_sensor_msgs_sensor_data).
  rewrite Hsd. subst w3. rewrite send_sensor_msgs_spec; cbn [fst snd].
  rewrite Hmask.
  split; [reflexivity |].
  destruct (can_send w2) as [[c t] |]; repeat split.
Qed.


(** ** The scheduler thread at its steps *)

Lemma sched_step_at (p : pc) (w : World) :
  sched_pc w = Some p ->
  sched_step w
  = match sched_at p w with
    | (Ok p', w') => set_thread (At p') w'
    | (Raise e, w') => set_thread (At (Crashed e)) w'
    | (Hang, _) => w
    end.
Proof.
  unfold sched_pc, sched_step.
  destruct (update_thread (self w)) as [[| q] |]; try discriminate.
  intros [= ->]. reflexivity.
Qed.

Lemma sched_pc_set_thread (p : pc) (w : World) :
  sched_pc (set_thread (At p) w) = Some p.
Proof. reflexivity. Qed.

(** C7. When the batched sensor frame cannot be encoded or transmitted,
    [send_sensor_msgs] does not raise: the failure is logged and the
    scheduler thread goes on to the next steps of its tick.  The dirty
    flags were taken down before the send was tried and stay down: nothing
    went on the wire, and the next drain composes mask 0, so the bits of
    the dropped update are never sent. *)
Theorem sensor_send_failure_absorbed (w : World) :
  can_send w = None ->
  sched_pc w = Some SensorMsgs ->
  let w' := snd (send_sensor_msgs w) in
  fst (send_sensor_msgs w) = Ok tt /\
  console w'
  = (console w ++ [Warn "Sending sensor msgs";
                   Warn "Could not send sensor data through mavlink"])%list /\
  wire w' = wire w /\
  sensor_flags w' = [false; false; false; false] /\
  fst (collect_fields_updated w') = Ok 0 /\
  sched_step w = set_thread (At GroundTruth) w' /\
  sched_pc (sched_run 3 w) = Some Sleep /\
  is_running (self (sched_run 3 w)) = is_running (self w).
Proof.
  intros Hfail Hpc w'.
  assert (Hw' : w' = logged (Warn "Could not send sensor data through mavlink")
                       (with_sensor clear_flags (logged (Warn "Sending sensor msgs") w))).
  { subst w'. rewrite send_sensor_msgs_spec; cbn [snd]. rewrite Hfail. reflexivity. }
  assert (Hstep : sched_step w = set_thread (At GroundTruth) w').
  { rewrite (sched_step_at SensorMsgs w Hpc). cbn [sched_at]. unfold bind, ret.
    subst w'. destruct (send_sensor_msgs w) as [r w''] eqn:Hs.
    pose proof (send_sensor_msgs_spec w) as Hspec. rewrite Hs in Hspec.
    injection Hspec as -> _. reflexivity. }
  split; [rewrite send_sensor_msgs_spec; reflexivity |].
  split; [rewrite Hw'; cbn; rewrite <- app_assoc; reflexivity |].
  split; [rewrite Hw'; reflexivity |].
  split; [rewrite Hw'; reflexivity |].
  split; [rewrite collect_fields_updated_spec, Hw'; reflexivity |].
  split; [exact Hstep |].
  cbn [sched_run]. rewrite Hstep, Hw'.
  split; reflexivity.
Qed.

(** The link goes down with a fresh IMU sample waiting to be sent. *)
Lemma sensor_send_failure_absorbed_witness :
  let w := set_thread (At SensorMsgs)
             (set_link_up false
                (snd (update_imu_data imu_123 (Build endpoint 4 true fzero)))) in
  mask_of_flags (sensor_data (self w)) = 0x3F /\
  wire (snd (send_sensor_msgs w)) = [] /\
  fst (collect_fields_updated (snd (send_sensor_msgs w))) = Ok 0 /\
  sched_pc (sched_run 3 w) = Some Sleep.
Proof.
  intros w.
  pose proof (sensor_send_failure_absorbed w eq_refl eq_refl) as H.
  cbv zeta in H.
  destruct H as (_ & _ & Hwire & _ & Hmask & _ & Hpc & _).
  split; [reflexivity |].
  split; [rewrite Hwire; reflexivity |].
  split; [exact Hmask | exact Hpc].
Defined.

(** ** The GPS aggregator *)

Lemma trunc_finite (s : bool) (m : positive) (e : Z) :
  trunc (S754_finite s m e)
  = Ok (if 0 <=? e then cond_Zopp s (Z.pos m) * 2 ^ e
        else Z.quot (cond_Zopp s (Z.pos m)) (2 ^ (- e))).
Proof.
  cbn [trunc]. f_equal.
  destruct (Z.leb_spec 0 e) as [He | He].
  - rewrite Z.shiftl_mul_pow2 by lia. destruct s; cbn [cond_Zopp]; lia.
  - rewrite <- (Z.opp_involutive e) at 1.
    rewrite Z.shiftl_opp_r, Z.shiftr_div_pow2 by lia.
    assert (Hp : 0 < 2 ^ (- e)) by (apply Z.pow_pos_nonneg; lia).
    destruct s; cbn [cond_Zopp].
    + change (Z.neg m) with (- Z.pos m).
      rewrite Z.quot_opp_l by lia. rewrite Z.quot_div_nonneg by lia. reflexivity.
    + rewrite Z.quot_div_nonneg by lia. reflexivity.
Qed.

Lemma send_gps_msgs_spec (w : World) :
  send_gps_msgs w
  = (Ok tt,
     let w1 := logged (Warn "Sending GPS msgs") w in
     if new_gps_data (sensor_data (self w))
     then
       let w2 := with_sensor (set_new_gps_data false) w1 in
       match can_send w with
       | Some (c, t) =>
           sent c (Wire.HIL_GPS
                     (hil_gps_args t (set_new_gps_data false (sensor_data (self w))))) w2
       | None => logged (Warn "Could not send gps data through mavlink") w2
       end
     else w1).
Proof.
  unfold send_gps_msgs, can_send, try_except, bind, time_time, eval, sensor, attr,
    conn_send, raise, log_warn, logged, sent, with_sensor, assign_sensor, assign, ret.
  open_world w; cbn.
  destruct f_gps; cbn; [| reflexivity].
  destruct clock0 as [s | s | | s m e]; cbn; try reflexivity.
  all: destruct connection0 as [c |]; cbn; try reflexivity.
  all: destruct link_up0; reflexivity.
Qed.

Ltac gps_cases :=
  unfold update_gps_data, bind, eval;
  repeat (step_m; rewrite ?assign_sensor_eq; cbn [fst snd]).

(** C8. [update_gps_data] stores latitude and longitude multiplied by 1e7,
    altitude by 1e3, the speeds and the course by 1e2, each cut to an
    integer by [int]: towards zero, not to the nearest.  A latitude of
    47.1234567 is stored as 471234567, and that is the latitude of the
    frame the next [send_gps_msgs] sends. *)
Theorem gps_update_fixed_point (data : dict) (w : World) :
  fst (update_gps_data data w) = Ok tt ->
  let w' := snd (update_gps_data data w) in
  let m := sensor_data (self w') in
  Forall (fun '(k, scale, field) =>
            exists v z, data !! k = Some v /\ int (mul v scale) = Ok z /\
                        field m = VInt z) gps_scaled /\
  (forall f scale, int (mul (VFloat f) scale) = trunc (fmul f (float_of_int scale))) /\
  (forall s mm e,
     trunc (S754_finite s mm e)
     = Ok (if 0 <=? e then cond_Zopp s (Z.pos mm) * 2 ^ e
           else Z.quot (cond_Zopp s (Z.pos mm)) (2 ^ (- e)))) /\
  (data !! "latitude" = Some (VFloat lat_47_1234567) ->
   latitude_deg m = VInt 471234567 /\
   wire (snd (send_gps_msgs w'))
   = match can_send w' with
     | Some (c, t) =>
         (wire w' ++ [(c, Wire.HIL_GPS (hil_gps_args t (set_new_gps_data false m)))])%list
     | None => wire w'
     end /\
   forall t, Wire.lat (hil_gps_args t (set_new_gps_data false m)) = VInt 471234567).
Proof.
  intros Hok w' m.
  assert (Hm : exists z0 z1 z2 z3 z4 z5 z6 z7 z8 z9 z10 z11,
             gps_conversions data
             = [Ok z0; Ok z1; Ok z2; Ok z3; Ok z4; Ok z5; Ok z6; Ok z7; Ok z8; Ok z9; Ok z10]
             /\ gps_fields m = map VInt [z0; z1; z2; z3; z4; z5; z6; z7; z8; z9; z10]
             /\ int_item data "sattelites_visible" = Ok z11
             /\ new_gps_data m = true).
  { subst m w'. revert Hok. gps_cases; try discriminate. intros _.
    unfold gps_conversions.
    repeat match goal with H : _ = Ok _ |- _ => rewrite H; clear H end.
    do 12 eexists. repeat split. }
  destruct Hm as (z0 & z1 & z2 & z3 & z4 & z5 & z6 & z7 & z8 & z9 & z10 & z11
                  & Hconv & Hfields & _ & Hflag).
  injection Hconv as H0 H1 H2 H3 H4 H5 H6 H7 H8 H9 H10.
  injection Hfields as F0 F1 F2 F3 F4 F5 F6 F7 F8 F9 F10.
  assert (Hscaled : forall k scale z,
             int_scaled_item data k scale = Ok z ->
             exists v, data !! k = Some v /\ int (mul v scale) = Ok z).
  { intros k scale z. unfold int_scaled_item, getitem.
    destruct (data !! k) as [v |]; cbn; [eauto | discriminate]. }
  split.
  { repeat constructor.
    - destruct (Hscaled _ _ _ H1) as (v & ? & ?); eauto.
    - destruct (Hscaled _ _ _ H2) as (v & ? & ?); eauto.
    - destruct (Hscaled _ _ _ H3) as (v & ? & ?); eauto.
    - destruct (Hscaled _ _ _ H6) as (v & ? & ?); eauto.
    - destruct (Hscaled _ _ _ H7) as (v & ? & ?); eauto.
    - destruct (Hscaled _ _ _ H8) as (v & ? & ?); eauto.
    - destruct (Hscaled _ _ _ H9) as (v & ? & ?); eauto.
    - destruct (Hscaled _ _ _ H10) as (v & ? & ?); eauto. }
  split; [reflexivity |].
  split; [apply trunc_finite |].
  intros Hlat.
  assert (Hz : z1 = 471234567).
  { unfold int_scaled_item, getitem in H1. rewrite Hlat in H1.
    vm_compute in H1. congruence. }
  subst z1.
  split; [exact F1 |].
  split.
  - rewrite send_gps_msgs_spec; cbn [snd]. fold m. rewrite Hflag.
    destruct (can_send w') as [[c t] |]; reflexivity.
  - intros t. exact F1.
Qed.

(** The scenario of the specification, on a fresh interface. *)
Lemma gps_update_fixed_point_witness :
  let w' := snd (update_gps_data gps_sample (Build endpoint 4 true fzero)) in
  latitude_deg (sensor_data (self w')) = VInt 471234567 /\
  altitude (sensor_data (self w')) = VInt 1999 /\
  exists g, wire (snd (send_gps_msgs w')) = [(0%nat, Wire.HIL_GPS g)] /\
            Wire.lat g = VInt 471234567.
Proof.
  intros w'.
  pose proof (gps_update_fixed_point gps_sample (Build endpoint 4 true fzero) eq_refl) as H.
  cbv zeta in H. destruct H as (_ & _ & _ & H).
  destruct (H eq_refl) as (Hlat & Hwire & Hframe).
  split; [exact Hlat |].
  split; [reflexivity |].
  eexists. split; [exact Hwire | apply Hframe].
Defined.

Lemma int_not_hang (v : pyval) : int v <> Hang.
Proof. destruct v as [z | [s | s | | s m e] | l]; discriminate. Qed.

Lemma int_item_not_hang (data : dict) (k : string) : int_item data k <> Hang.
Proof.
  unfold int_item, getitem. destruct (data !! k); cbn; [apply int_not_hang | discriminate].
Qed.

Lemma int_scaled_item_not_hang (data : dict) (k : string) (scale : Z) :
  int_scaled_item data k scale <> Hang.
Proof.
  unfold int_scaled_item, getitem.
  destruct (data !! k); cbn; [apply int_not_hang | discriminate].
Qed.

Lemma int_item_missing (data : dict) (k : string) :
  data !! k = None -> int_item data k = Raise (KeyError k).
Proof. unfold int_item, getitem. intros ->. reflexivity. Qed.

(** C10, as the code has it. With the key ["sattelites_visible"] missing,
    [update_gps_data] raises and leaves the GPS dirty flag and the
    satellite count as they were.  When the eleven conversions before
    that read go through, the exception is the missing-key error for
    ["sattelites_visible"] and the eleven attributes have been overwritten
    by then: the update is not atomic. *)
Theorem gps_update_without_key_not_atomic (data : dict) (w : World) :
  data !! "sattelites_visible" = None ->
  let r := fst (update_gps_data data w) in
  let m := sensor_data (self w) in
  let m' := sensor_data (self (snd (update_gps_data data w))) in
  (exists e, r = Raise e) /\
  new_gps_data m' = new_gps_data m /\
  satellites_visible m' = satellites_visible m /\
  (forall zs, gps_conversions data = map Ok zs ->
     r = Raise (KeyError "sattelites_visible") /\
     gps_fields m' = map VInt zs).
Proof.
  intros Hkey r m m'.
  pose proof (int_item_missing data _ Hkey) as Hsat.
  subst r m m'. unfold update_gps_data, bind, eval. rewrite Hsat.
  gps_cases; rewrite ?sensor_data_with_sensor.
  all: try (exfalso; eapply int_item_not_hang; eassumption).
  all: try (exfalso; eapply int_scaled_item_not_hang; eassumption).
  all: (split; [eexists; reflexivity |]).
  all: (split; [reflexivity |]).
  all: (split; [reflexivity |]).
  all: intros zs Hzs; unfold gps_conversions in Hzs.
  all: repeat match goal with
         | H : int_item _ _ = _ |- _ => rewrite H in Hzs; clear H
         | H : int_scaled_item _ _ _ = _ |- _ => rewrite H in Hzs; clear H
         end.
  all: destruct zs as [| z0 [| z1 [| z2 [| z3 [| z4 [| z5 [| z6 [| z7 [| z8 [| z9
         [| z10 [| z11 zs]]]]]]]]]]]]; try discriminate Hzs.
  injection Hzs as -> -> -> -> -> -> -> -> -> -> ->.
  split; reflexivity.
Qed.

(** The sample with the key spelt right: the eleven attributes are
    overwritten, then the update raises. *)
Lemma gps_update_without_key_not_atomic_witness :
  let w := Build endpoint 4 true fzero in
  fst (update_gps_data gps_sample_spelt_right w) = Raise (KeyError "sattelites_visible") /\
  latitude_deg (sensor_data (self (snd (update_gps_data gps_sample_spelt_right w))))
  = VInt 471234567 /\
  new_gps_data (sensor_data (self (snd (update_gps_data gps_sample_spelt_right w))))
  = false.
Proof.
  intros w.
  assert (Hkey : gps_sample_spelt_right !! "sattelites_visible" = None)
    by (vm_compute; reflexivity).
  assert (Hconv : gps_conversions gps_sample_spelt_right
                  = map Ok [3; 471234567; 80000000; 1999; 1; 1; 0; 0; 0; 0; 0])
    by (vm_compute; reflexivity).
  pose proof (gps_update_without_key_not_atomic gps_sample_spelt_right w Hkey) as H.
  cbv zeta in H. destruct H as (_ & Hflag & _ & H).
  destruct (H _ Hconv) as [Hr Hf].
  split; [exact Hr |].
  split; [| exact Hflag].
  exact (f_equal (fun l => nth 1 l (VInt 0)) Hf).
Defined.

(** C10 as stated fails for a dictionary that lacks an earlier key as
    well: with only the count (spelt right) in it, the update raises at
    ["fix_type"] and has overwritten nothing. *)
Lemma gps_update_without_key_counterexample :
  let data : dict := <["satellites_visible" := VInt 10]> ∅ in
  let w := Build endpoint 4 true fzero in
  data !! "sattelites_visible" = None /\
  fst (update_gps_data data w) = Raise (KeyError "fix_type") /\
  gps_fields (sensor_data (self (snd (update_gps_data data w))))
  = gps_fields (sensor_data (self w)) /\
  latitude_deg (sensor_data (self (snd (update_gps_data data w)))) = VInt (-999).
Proof. vm_compute. repeat split. Qed.

(** ** The lockstep hook of the producer *)

(** C9. [update_imu] sets [received_imu] to true and changes nothing else,
    whatever its argument: every other attribute of the interface, the
    sensor payload among them, and everything around the interface stay
    as they were. *)
Theorem update_imu_only_sets_received_imu {A : Type} (imu_data : A) (w : World) :
  let w' := snd (update_imu imu_data w) in
  fst (update_imu imu_data w) = Ok tt /\
  received_imu (self w') = true /\
  sensor_data (self w') = sensor_data (self w) /\
  set_received_imu (received_imu (self w)) (self w') = self w /\
  set_self (self w) w' = w.
Proof.
  destruct w as [o ? ? ? ? ? ? ? ? ?]; destruct o. cbn. repeat split.
Qed.

(** ** One tick of the scheduler *)

Lemma step_Poll_before_heartbeat (w : World) :
  sched_pc w = Some Poll ->
  received_first_hearbeat (self w) = false ->
  sched_step w = set_thread (At HeartbeatCheck) w.
Proof.
  intros Hpc Hf. rewrite (sched_step_at Poll w Hpc).
  cbn [sched_at]. unfold poll_enter, bind, attr. rewrite Hf. reflexivity.
Qed.

Lemma heartbeat_due_spec (d : float) (w : World) :
  fsub_val (clock w) (last_heartbeat_sent_time (self w)) = Ok d ->
  heartbeat_due w = (Ok (fgt d fone || negb (received_first_hearbeat (self w))), w).
Proof.
  intros Hd. unfold heartbeat_due, bind, time_time, attr, eval. rewrite Hd.
  destruct (fgt d fone); reflexivity.
Qed.

Lemma step_HeartbeatCheck (d : float) (w : World) :
  sched_pc w = Some HeartbeatCheck ->
  fsub_val (clock w) (last_heartbeat_sent_time (self w)) = Ok d ->
  sched_step w
  = set_thread
      (At (if fgt d fone || negb (received_first_hearbeat (self w))
           then HeartbeatSend else SensorMsgs)) w.
Proof.
  intros Hpc Hd. rewrite (sched_step_at HeartbeatCheck w Hpc).
  cbn [sched_at]. unfold bind. rewrite (heartbeat_due_spec d w Hd). reflexivity.
Qed.

Lemma step_HeartbeatSend (c : Connection) (w : World) :
  sched_pc w = Some HeartbeatSend ->
  connection (self w) = Some c ->
  link_up w = true ->
  sched_step w
  = set_thread (At HeartbeatStamp)
      (sent (conn_id c) heartbeat_frame (logged (Warn "Sending heartbeat") w)).
Proof.
  intros Hpc Hc Hl. rewrite (sched_step_at HeartbeatSend w Hpc).
  cbn [sched_at]. unfold send_heartbeat, bind, log_warn, conn_send, attr.
  cbn. rewrite Hc. cbn. rewrite Hl. reflexivity.
Qed.

Lemma step_HeartbeatStamp (w : World) :
  sched_pc w = Some HeartbeatStamp ->
  sched_step w = set_thread (At SensorMsgs) (stamped (clock w) w).
Proof.
  intros Hpc. rewrite (sched_step_at HeartbeatStamp w Hpc). reflexivity.
Qed.

Lemma step_SensorMsgs (w : World) :
  sched_pc w = Some SensorMsgs ->
  sched_step w = set_thread (At GroundTruth) (snd (send_sensor_msgs w)).
Proof.
  intros Hpc. rewrite (sched_step_at SensorMsgs w Hpc).
  cbn [sched_at]. unfold bind, ret.
  pose proof (send_sensor_msgs_spec w) as Hs.
  destruct (send_sensor_msgs w) as [r w']. injection Hs as -> _. reflexivity.
Qed.

(** Rewrites the innermost pending step of the thread with [lem]. *)
Ltac sched_next lem tac :=
  match goal with
  | |- context [sched_step (set_thread ?t ?x)] =>
      rewrite (lem (set_thread t x)) by tac
  end.

(** C3, as the code has it. At the heartbeat step of a tick the frame is
    sent and the send time recorded exactly when more than 1.0 second
    separates the clock from the recorded send time (0 before any send),
    or the first heartbeat of the peer has not been received: then the
    thread reaches the sensor step with the frame on the wire and the
    clock recorded, otherwise it reaches it with both untouched. *)
Theorem heartbeat_sent_iff_due (w : World) (c : Connection) (d : float) :
  sched_pc w = Some HeartbeatCheck ->
  fsub_val (clock w) (last_heartbeat_sent_time (self w)) = Ok d ->
  connection (self w) = Some c ->
  link_up w = true ->
  if fgt d fone || negb (received_first_hearbeat (self w))
  then sched_run 3 w
       = set_thread (At SensorMsgs)
           (stamped (clock w)
              (sent (conn_id c) heartbeat_frame (logged (Warn "Sending heartbeat") w)))
  else sched_step w = set_thread (At SensorMsgs) w.
Proof.
  intros Hpc Hd Hc Hl.
  pose proof (step_HeartbeatCheck d w Hpc Hd) as H1.
  destruct (fgt d fone || negb (received_first_hearbeat (self w))); [| exact H1].
  cbn [sched_run]. rewrite H1.
  sched_next (step_HeartbeatSend c) ltac:(first [reflexivity | exact Hc | exact Hl]).
  sched_next step_HeartbeatStamp ltac:(reflexivity).
  destruct w as [o ? ? ? ? ? ? ? ? ?]; destruct o; reflexivity.
Qed.

(** Half a second after a heartbeat went out, with the peer's heartbeat
    received: nothing is sent. *)
Lemma heartbeat_sent_iff_due_witness :
  let w := set_thread (At HeartbeatCheck)
             (set_clock t_10_5
                (set_self (set_received_first_hearbeat true
                             (self (stamped t_10 (Build endpoint 4 true t_10))))
                   (Build endpoint 4 true t_10))) in
  sched_step w = set_thread (At SensorMsgs) w.
Proof.
  intros w.
  assert (Hd : fsub_val (clock w) (last_heartbeat_sent_time (self w))
               = Ok (fsub t_10_5 t_10)) by reflexivity.
  exact (heartbeat_sent_iff_due w {| conn_id := 0; conn_port := endpoint |} _
           eq_refl Hd eq_refl eq_refl).
Defined.

(** C3 as stated fails: before the peer's first heartbeat every tick
    sends one.  Here a heartbeat went out at 10.0 and it is 10.5: not more
    than a second has passed and a heartbeat has been sent, yet the step
    sends another and records 10.5. *)
Lemma heartbeat_cadence_counterexample :
  let w := sched_run 4 (set_clock t_10_5 (sched_run 11 (entered_early t_10))) in
  sched_pc w = Some HeartbeatCheck /\
  received_first_hearbeat (self w) = false /\
  last_heartbeat_sent_time (self w) = VFloat t_10 /\
  fgt (fsub (clock w) t_10) fone = false /\
  heartbeats w = [heartbeat_frame] /\
  heartbeats (sched_run 3 w) = [heartbeat_frame; heartbeat_frame] /\
  last_heartbeat_sent_time (self (sched_run 3 w)) = VFloat t_10_5.
Proof. vm_compute. repeat split. Qed.

(** ** Frames: what the steps of the threads leave alone *)

Section Keeps.

Context {V : Type} (view : World -> V).

Lemma keeps_ret {A} (a : A) : keeps view (ret a).
Proof. intros w. reflexivity. Qed.

Lemma keeps_raise {A} (e : exn) : keeps view (@raise A e).
Proof. intros w. reflexivity. Qed.

Lemma keeps_eval {A} (r : outcome A) : keeps view (eval r).
Proof. intros w. reflexivity. Qed.

Lemma keeps_attr {A} (f : MavlinkInterface -> A) : keeps view (attr f).
Proof. intros w. reflexivity. Qed.

Lemma keeps_time_time : keeps view time_time.
Proof. intros w. reflexivity. Qed.

Lemma keeps_bind {A B} (m : M A) (k : A -> M B) :
  keeps view m -> (forall a, keeps view (k a)) -> keeps view (bind m k).
Proof.
  intros Hm Hk w. unfold bind.
  specialize (Hm w). destruct (m w) as [[a | e |] w']; cbn [snd] in *.
  - rewrite Hk. exact Hm.
  - exact Hm.
  - exact Hm.
Qed.

Lemma keeps_try_except {A} (m h : M A) :
  keeps view m -> keeps view h -> keeps view (try_except m h).
Proof.
  intros Hm Hh w. unfold try_except.
  specialize (Hm w). destruct (m w) as [[a | e |] w']; cbn [snd] in *.
  - exact Hm.
  - rewrite Hh. exact Hm.
  - exact Hm.
Qed.

End Keeps.

(** Breaks a [keeps] goal along the binds and the branches of the method,
    and closes the leaves that compute. *)
Ltac keeps_tac :=
  cbv zeta;
  repeat first
    [ apply keeps_ret | apply keeps_raise | apply keeps_eval | apply keeps_attr
    | apply keeps_time_time
    | apply keeps_bind; [| intros ?]
    | apply keeps_try_except
    | match goal with
      | |- keeps _ (if ?b then _ else _) => destruct b
      | |- keeps _ (match ?x with _ => _ end) => destruct x
      end
    | (intros w; cbn; reflexivity)
    | (intros w; cbn;
       repeat match goal with
         | |- context [match ?x with _ => _ end] => destruct x
         end;
       reflexivity) ].

Lemma sched_at_keeps_lifecycle (p : pc) : keeps lifecycle (sched_at p).
Proof.
  destruct p; cbn [sched_at];
    unfold poll_enter, poll_recv, recv_match, heartbeat_due, send_heartbeat,
      send_sensor_msgs, collect_fields_updated, send_ground_truth, handle_control,
      sleep_period, conn_send, sensor;
    keeps_tac.
Qed.

Lemma lifecycle_set_thread (t : Thread) (w : World) :
  lifecycle (set_thread t w) = lifecycle w.
Proof. reflexivity. Qed.

Lemma sched_step_keeps_lifecycle (w : World) : lifecycle (sched_step w) = lifecycle w.
Proof.
  unfold sched_step.
  destruct (update_thread (self w)) as [[| p] |]; try reflexivity.
  pose proof (sched_at_keeps_lifecycle p w) as H.
  destruct (sched_at p w) as [[p' | e |] w']; cbn [snd] in H;
    rewrite ?lifecycle_set_thread; auto.
Qed.

Lemma waiter_step_keeps_lifecycle (i : nat) (w : World) :
  lifecycle (waiter_step i w) = lifecycle w.
Proof.
  unfold waiter_step.
  destruct (waiters w !! i) as [[|] |]; try reflexivity.
  destruct (connection (self w)) eqn:Hc; try reflexivity.
  destruct (existsb Wire.is_peer_heartbeat (inbox w)); try reflexivity.
  unfold lifecycle; cbn.
  destruct (update_thread (self w)) as [[| p] |]; cbn; rewrite ?Hc; reflexivity.
Qed.

Lemma env_step_keeps_lifecycle (e : env_event) (w : World) :
  lifecycle (env_step e w) = lifecycle w.
Proof.
  destruct e; cbn [env_step];
    auto using sched_step_keeps_lifecycle, waiter_step_keeps_lifecycle.
Qed.

Lemma join_keeps_lifecycle (during : list env_event) : keeps lifecycle (join during).
Proof.
  induction during as [| e during IH]; intros w; cbn [join];
    destruct (update_thread (self w)) as [[| p] |]; try reflexivity;
    destruct (finished p); try reflexivity.
  rewrite IH. apply env_step_keeps_lifecycle.
Qed.

(** ** Stop, then start *)

(** [start_stream] on an interface that [stop_stream] has just left. *)
Lemma start_stream_reopens (w1 : World) :
  is_running (self w1) = false ->
  connection (self w1) = None ->
  endpoint_up w1 = true ->
  exists w2,
    start_stream w1 = (Ok tt, w2) /\
    transient_flags w2 = [false; false; false; false; false] /\
    connection (self w2)
    = Some {| conn_id := next_handle w1; conn_port := connection_port (self w1) |} /\
    connection_port (self w2) = connection_port (self w1) /\
    is_running (self w2) = true /\
    last_heartbeat_sent_time (self w2) = VInt 0 /\
    update_thread (self w2) = Some NotStarted /\
    next_handle w2 = S (next_handle w1) /\
    closed w2 = closed w1.
Proof.
  destruct w1 as [o ? ? ? ? ? ? ? ? ?]; destruct o; cbn.
  intros -> -> ->. eexists. cbn. repeat split.
Qed.

(** When [stop_stream] is called on a running interface and returns, it
    has closed the connection; the [start_stream] that follows, the
    endpoint being reachable, returns with the four lockstep flags and the
    first-heartbeat flag down and with a connection newly opened on the
    same endpoint string, whose handle is not the closed one. *)
Lemma restart_from_running (during : list env_event) (w w1 : World) :
  handles_ok w ->
  is_running (self w) = true ->
  stop_stream during w = (Ok tt, w1) ->
  endpoint_up w1 = true ->
  exists c c' w2,
    connection (self w) = Some c /\
    connection (self w1) = None /\
    closed w1 = conn_id c :: closed w /\
    start_stream w1 = (Ok tt, w2) /\
    transient_flags w2 = [false; false; false; false; false] /\
    connection (self w2) = Some c' /\
    conn_id c' <> conn_id c /\
    (conn_id c' ∉ closed w2) /\
    conn_port c' = conn_port c /\
    is_running (self w2) = true /\
    handles_ok w2.
Proof.
  intros [Hlive Hclosed] Hrun Hstop Hup.
  unfold stop_stream, bind, attr in Hstop. rewrite Hrun in Hstop.
  cbn [negb assign] in Hstop.
  set (wa := set_self (set_is_running false (self w)) w) in Hstop.
  pose proof (join_keeps_lifecycle during wa) as Hj.
  destruct (join during wa) as [[[] | e |] wj]; try discriminate Hstop.
  cbn [snd] in Hj. unfold lifecycle in Hj. cbn in Hj.
  injection Hj as Hconn Hport Hrunj Hnext Hcl.
  unfold conn_close, bind, attr in Hstop. rewrite Hconn in Hstop.
  destruct (connection (self w)) as [c |] eqn:Hc; [| discriminate Hstop].
  cbn in Hstop. injection Hstop as <-.
  destruct (Hlive c eq_refl) as [Hlt Hcport].
  destruct (start_stream_reopens
              (set_self (set_connection None (self (set_closed (conn_id c :: closed wj) wj)))
                 (set_closed (conn_id c :: closed wj) wj)))
    as (w2 & Hstart & Hflags & Hc2 & Hport2 & Hrun2 & _ & _ & Hnext2 & Hcl2);
    [exact Hrunj | reflexivity | exact Hup |].
  cbn in Hc2, Hport2, Hnext2, Hcl2.
  rewrite Hport, Hnext in Hc2. rewrite Hport in Hport2. rewrite Hnext in Hnext2.
  rewrite Hcl in Hcl2.
  exists c, {| conn_id := next_handle w; conn_port := connection_port (self w) |}, w2.
  split; [reflexivity |].
  split; [reflexivity |].
  split; [cbn; rewrite Hcl; reflexivity |].
  split; [exact Hstart |].
  split; [exact Hflags |].
  split; [exact Hc2 |].
  cbn [conn_id conn_port].
  split; [lia |].
  split.
  { rewrite Hcl2. intros Hin. apply elem_of_cons in Hin as [Heq | Hin]; [lia |].
    rewrite Forall_forall in Hclosed. specialize (Hclosed _ Hin). lia. }
  split; [symmetry; exact Hcport |].
  split; [exact Hrun2 |].
  split.
  - intros c2. rewrite Hc2. intros [= <-]. cbn. rewrite Hnext2, Hport2. split; [lia | reflexivity].
  - rewrite Hcl2, Hnext2. constructor; [lia |].
    eapply Forall_impl; [exact Hclosed |]. cbn. intros; lia.
Qed.

(** *** [stop_stream] returns *)

Lemma sched_at_keeps_waits (p : pc) : keeps waits_for_actuator (sched_at p).
Proof.
  destruct p; cbn [sched_at];
    unfold poll_enter, poll_recv, recv_match, heartbeat_due, send_heartbeat,
      send_sensor_msgs, collect_fields_updated, send_ground_truth, handle_control,
      sleep_period, conn_send, sensor;
    keeps_tac.
Qed.

Lemma sched_step_result (p : pc) (w : World) :
  sched_pc w = Some p ->
  sched_pc (sched_step w)
  = Some match fst (sched_at p w) with
         | Ok p' => p'
         | Raise e => Crashed e
         | Hang => p
         end.
Proof.
  intros Hpc. rewrite (sched_step_at p w Hpc).
  destruct (sched_at p w) as [[p' | e |] w']; cbn; [reflexivity | reflexivity | exact Hpc].
Qed.

(** Where one step leads when the running flag is down and no actuator is
    waited for: closer to the end. *)
Lemma sched_at_winds_down (p : pc) (w : World) :
  is_running (self w) = false ->
  waits_for_actuator w = false ->
  p <> PollRecv true ->
  finished p = false ->
  match fst (sched_at p w) with
  | Ok p' => (rank p' < rank p)%nat /\ p' <> PollRecv true
  | Raise _ => True
  | Hang => False
  end.
Proof.
  intros Hrun Hwait Hp Hfin.
  destruct p as [| | | | | needs | | | | | | | | |]; cbn [sched_at]; try discriminate Hfin.
  - unfold bind, attr. rewrite Hrun. cbn. split; [lia | discriminate].
  - unfold bind, attr. cbn. destruct (received_first_imu (self w)); cbn; split;
      first [lia | discriminate].
  - unfold bind, attr. cbn. rewrite Hrun, andb_false_r. cbn. split; [lia | discriminate].
  - cbn. split; [lia | discriminate].
  - unfold poll_enter, bind, attr. cbn.
    destruct (received_first_hearbeat (self w)); cbn.
    + unfold waits_for_actuator in Hwait. rewrite Hwait. split; [lia | discriminate].
    + split; [lia | discriminate].
  - destruct needs; [contradiction Hp; reflexivity |].
    unfold poll_recv, recv_match, bind, attr, raise, log_warn. cbn.
    destruct (connection (self w)); cbn; [| exact I].
    destruct (inbox w); cbn; split; first [lia | discriminate].
  - unfold heartbeat_due, bind, time_time, attr, eval. cbn.
    destruct (fsub_val (clock w) (last_heartbeat_sent_time (self w))) as [d | e |] eqn:Hd;
      cbn; [| exact I |].
    + destruct (fgt d fone); cbn;
        [| destruct (received_first_hearbeat (self w)); cbn ];
        split; first [lia | discriminate].
    + destruct (last_heartbeat_sent_time (self w)); discriminate Hd.
  - unfold send_heartbeat, conn_send, bind, attr, raise, log_warn. cbn.
    destruct (connection (self w)); cbn; [| exact I].
    destruct (link_up w); cbn; [split; first [lia | discriminate] | exact I].
  - cbn. split; [lia | discriminate].
  - unfold bind. rewrite send_sensor_msgs_spec. cbn. split; [lia | discriminate].
  - cbn. split; [lia | discriminate].
  - cbn. split; [lia | discriminate].
  - unfold sleep_period, bind, attr, raise, ret. cbn [fst].
    destruct (update_rate (self w)); cbn [fst]; try exact I;
      match goal with
      | |- context [fdiv ?a ?b] => destruct (fdiv a b) as [[|] | [|] | | [|] ? ?]
      end; cbn [fst rank]; first [exact I | split; [lia | discriminate]].
Qed.

Lemma sched_step_winds_down (p : pc) (w : World) :
  winding_down w ->
  sched_pc w = Some p ->
  finished p = false ->
  winding_down (sched_step w) /\
  exists p', sched_pc (sched_step w) = Some p' /\ (rank p' < rank p \/ finished p' = true)%nat.
Proof.
  intros (Hrun & Hwait & Hpc') Hpc Hfin.
  assert (Hp : p <> PollRecv true) by (intros ->; contradiction).
  pose proof (sched_at_winds_down p w Hrun Hwait Hp Hfin) as Hat.
  pose proof (sched_step_result p w Hpc) as Hres.
  pose proof (sched_step_keeps_lifecycle w) as Hlife.
  assert (Hwait' : waits_for_actuator (sched_step w) = false).
  { rewrite (sched_step_at p w Hpc).
    pose proof (sched_at_keeps_waits p w) as Hk.
    destruct (sched_at p w) as [[p' | e |] w']; cbn [snd] in Hk;
      [| | exact Hwait]; unfold waits_for_actuator in *; cbn; rewrite Hk; exact Hwait. }
  assert (Hrun' : is_running (self (sched_step w)) = false).
  { unfold lifecycle in Hlife. injection Hlife as _ _ Hr _ _. rewrite Hr. exact Hrun. }
  destruct (fst (sched_at p w)) as [p' | e |]; [| | contradiction].
  - destruct Hat as [Hlt Hne].
    split; [repeat split; [exact Hrun' | exact Hwait' | rewrite Hres; congruence] |].
    exists p'. split; [exact Hres | left; exact Hlt].
  - split; [repeat split; [exact Hrun' | exact Hwait' | rewrite Hres; discriminate] |].
    exists (Crashed e). split; [exact Hres | right; reflexivity].
Qed.

Lemma join_returns (n : nat) (w : World) (p : pc) :
  winding_down w ->
  sched_pc w = Some p ->
  (rank p <= n)%nat ->
  fst (join (replicate n SchedStep) w) = Ok tt.
Proof.
  revert w p; induction n as [| n IH]; intros w p Hw Hpc Hrank.
  - cbn [replicate join]. unfold sched_pc in Hpc.
    destruct (update_thread (self w)) as [[| q] |]; try discriminate Hpc.
    injection Hpc as ->. destruct p; cbn in Hrank; try lia; reflexivity.
  - cbn [replicate join].
    pose proof Hpc as Hpc0. unfold sched_pc in Hpc.
    destruct (update_thread (self w)) as [[| q] |]; try discriminate Hpc.
    injection Hpc as ->.
    destruct (finished p) eqn:Hfin; [reflexivity |].
    cbn [env_step].
    destruct (sched_step_winds_down p w Hw Hpc0 Hfin) as (Hw' & p' & Hpc' & Hr).
    apply (IH _ p' Hw' Hpc').
    destruct Hr as [Hr | Hr]; [lia |].
    destruct p'; try discriminate Hr; cbn; lia.
Qed.

(** Enough steps of the scheduler thread let [stop_stream] return, when
    the thread was started and does not wait for an actuator message. *)
Lemma stop_stream_returns (w : World) (p : pc) (c : Connection) (n : nat) :
  is_running (self w) = true ->
  sched_pc w = Some p ->
  p <> PollRecv true ->
  waits_for_actuator w = false ->
  connection (self w) = Some c ->
  (13 <= n)%nat ->
  fst (stop_stream (replicate n SchedStep) w) = Ok tt.
Proof.
  intros Hrun Hpc Hp Hwait Hc Hn.
  unfold stop_stream, bind, attr. rewrite Hrun. cbn [negb assign].
  set (wa := set_self (set_is_running false (self w)) w).
  assert (Hwa : winding_down wa).
  { repeat split; [exact Hwait |]. change (sched_pc wa) with (sched_pc w).
    rewrite Hpc. congruence. }
  assert (Hpca : sched_pc wa = Some p) by exact Hpc.
  pose proof (join_returns n wa p Hwa Hpca) as Hj.
  pose proof (join_keeps_lifecycle (replicate n SchedStep) wa) as Hl.
  destruct (join (replicate n SchedStep) wa) as [r wj]. cbn [fst snd] in *.
  rewrite Hj by (destruct p; cbn; lia).
  unfold lifecycle in Hl. injection Hl as Hconn _ _ _ _.
  unfold conn_close, bind, attr. rewrite Hconn. cbn. rewrite Hc. reflexivity.
Qed.

(** *** [handles_ok] holds from the constructor on *)

Lemma handles_ok_Build (port : string) (n : nat) (lockstep : bool) (t : float) :
  handles_ok (Build port n lockstep t).
Proof.
  split.
  - intros c [= <-]. cbn. split; [lia | reflexivity].
  - constructor.
Qed.

Lemma handles_ok_lifecycle (w w' : World) :
  connection (self w') = connection (self w) ->
  connection_port (self w') = connection_port (self w) ->
  next_handle w' = next_handle w ->
  closed w' = closed w ->
  handles_ok w -> handles_ok w'.
Proof. unfold handles_ok. intros -> -> -> ->. auto. Qed.

Lemma handles_ok_kept (w w' : World) :
  lifecycle w' = lifecycle w -> handles_ok w -> handles_ok w'.
Proof.
  unfold lifecycle. intros [= Hc Hp _ Hn Hcl]. apply handles_ok_lifecycle; assumption.
Qed.

Lemma sensor_call_keeps_lifecycle (c : call) :
  match c with
  | StartStream | StopStream _ | ReInitializeInterface => True
  | _ => keeps lifecycle (invoke c)
  end.
Proof.
  destruct c; cbn [invoke]; try exact I;
    unfold update_imu_data, update_gps_data, update_bar_data, update_mag_data,
      write_press_data, update_imu, send_gps_msgs, conn_send, sensor;
    keeps_tac.
Qed.

Lemma handles_ok_re_initialize (w : World) :
  handles_ok w -> handles_ok (snd (re_initialize_interface w)).
Proof.
  intros [Hlive Hclosed].
  destruct w as [o ? ? ? ? ? ? ? ? ?]; destruct o.
  unfold re_initialize_interface, bind, attr, assign, mavlink_connection. cbn in *.
  destruct endpoint_up0; cbn; (split; [| try exact Hclosed]).
  - intros c [= <-]. cbn. split; [lia | reflexivity].
  - eapply Forall_impl; [exact Hclosed |]. cbn. intros; lia.
  - exact Hlive.
Qed.

Lemma handles_ok_start_stream (w : World) :
  handles_ok w -> handles_ok (snd (start_stream w)).
Proof.
  intros Hok. unfold start_stream, bind at 1, attr at 1.
  destruct (is_running (self w)) eqn:Hrun; [exact Hok |].
  unfold bind at 1, attr at 1.
  destruct (connection (self w)) eqn:Hc.
  - revert Hok. apply handles_ok_lifecycle; reflexivity.
  - pose proof (handles_ok_re_initialize w Hok) as Hre.
    unfold bind at 1.
    destruct (re_initialize_interface w) as [[[] | e |] w']; cbn [snd] in *;
      exact Hre.
Qed.

Lemma handles_ok_stop_stream (during : list env_event) (w : World) :
  handles_ok w -> handles_ok (snd (stop_stream during w)).
Proof.
  intros Hok. unfold stop_stream, bind at 1, attr at 1.
  destruct (is_running (self w)) eqn:Hrun; [| exact Hok].
  cbn [negb]. unfold bind at 1. cbn [assign].
  set (wa := set_self (set_is_running false (self w)) w).
  assert (Hwa : handles_ok wa) by (revert Hok; apply handles_ok_lifecycle; reflexivity).
  pose proof (join_keeps_lifecycle during wa) as Hj.
  unfold bind at 1.
  destruct (join during wa) as [[[] | e |] wj]; cbn [snd] in *;
    try (revert Hwa; apply handles_ok_kept; exact Hj).
  assert (Hwj : handles_ok wj) by (revert Hwa; apply handles_ok_kept; exact Hj).
  unfold conn_close, bind, attr.
  destruct (connection (self wj)) as [c |] eqn:Hc; cbn; [| exact Hwj].
  destruct Hwj as [Hlive Hclosed].
  split; [intros c' [=] |].
  constructor; [apply (Hlive c Hc) | exact Hclosed].
Qed.

Lemma handles_ok_step (e : event) (w : World) :
  handles_ok w -> handles_ok (step e w).
Proof.
  intros Hok. destruct e as [e | c]; cbn [step].
  - revert Hok. apply handles_ok_kept, env_step_keeps_lifecycle.
  - pose proof (sensor_call_keeps_lifecycle c) as Hk.
    destruct c; cbn [invoke];
      try (revert Hok; apply handles_ok_kept; apply Hk).
    + apply handles_ok_start_stream, Hok.
    + apply handles_ok_stop_stream, Hok.
    + apply handles_ok_re_initialize, Hok.
Qed.

Lemma handles_ok_run (tr : list event) (w : World) :
  handles_ok w -> handles_ok (run tr w).
Proof.
  revert w. induction tr as [| e tr IH]; intros w Hok; [exact Hok |].
  apply IH, handles_ok_step, Hok.
Qed.

(** ** The lockstep gate *)

Lemma sensor_call_keeps_thread (c : call) :
  match c with
  | StartStream | StopStream _ | ReInitializeInterface => True
  | _ => keeps thread_view (invoke c)
  end.
Proof.
  destruct c; cbn [invoke]; try exact I;
    unfold update_imu_data, update_gps_data, update_bar_data, update_mag_data,
      write_press_data, update_imu, send_gps_msgs, conn_send, sensor;
    keeps_tac.
Qed.

Lemma stop_stream_stops (during : list env_event) (w : World) :
  is_running (self (snd (stop_stream during w))) = false.
Proof.
  unfold stop_stream, bind at 1, attr at 1.
  destruct (is_running (self w)) eqn:Hrun; [| exact Hrun].
  cbn [negb]. unfold bind at 1. cbn [assign].
  set (wa := set_self (set_is_running false (self w)) w).
  pose proof (join_keeps_lifecycle during wa) as Hj.
  unfold lifecycle in Hj. injection Hj as _ _ Hr _ _.
  unfold bind at 1.
  destruct (join during wa) as [[[] | e |] wj]; cbn [snd] in *; try exact Hr.
  unfold conn_close, bind, attr.
  destruct (connection (self wj)); cbn; exact Hr.
Qed.

Lemma re_initialize_stops (w : World) :
  is_running (self (snd (re_initialize_interface w))) = false.
Proof.
  unfold re_initialize_interface, bind, attr, assign, mavlink_connection. cbn.
  destruct (endpoint_up w); reflexivity.
Qed.

Lemma step_LockstepWait (w : World) :
  sched_pc w = Some LockstepWait ->
  sched_step w
  = set_thread
      (At (if negb (received_imu (self w)) && is_running (self w)
           then LockstepWait else ClearImu)) w.
Proof. intros Hpc. rewrite (sched_step_at LockstepWait w Hpc). reflexivity. Qed.

(** Whatever happens next, a thread that waits at the gate with no IMU
    sample announced still waits there afterwards, unless the stream has
    been stopped meanwhile. *)
Lemma wait_survives_step (e : event) (w : World) :
  sched_pc w = Some LockstepWait ->
  received_imu (self w) = false ->
  is_running (self w) = true ->
  sched_pc (step e w) = Some LockstepWait \/ is_running (self (step e w)) = false.
Proof.
  intros Hpc Himu Hrun.
  destruct e as [e | c]; cbn [step].
  - left. destruct e; cbn [env_step]; try exact Hpc.
    + rewrite (step_LockstepWait w Hpc), Himu, Hrun. reflexivity.
    + unfold waiter_step.
      destruct (waiters w !! i) as [[|] |]; try exact Hpc.
      destruct (connection (self w)); try exact Hpc.
      destruct (existsb Wire.is_peer_heartbeat (inbox w)); try exact Hpc.
      assert (Hut : update_thread (self w) = Some (At LockstepWait)).
      { unfold sched_pc in Hpc.
        destruct (update_thread (self w)) as [[| p] |]; try discriminate Hpc.
        congruence. }
      unfold sched_pc. cbn. repeat (rewrite Hut; cbn). reflexivity.
  - pose proof (sensor_call_keeps_thread c) as Hk.
    destruct c; cbn [invoke];
      try (left; specialize (Hk w); unfold thread_view in Hk; cbn [invoke] in Hk;
           unfold sched_pc in *; rewrite Hk; exact Hpc).
    + left. unfold start_stream, bind, attr. rewrite Hrun. exact Hpc.
    + right. apply stop_stream_stops.
    + right. apply re_initialize_stops.
Qed.

Lemma wait_survives_run (tr : list event) (w : World) :
  sched_pc w = Some LockstepWait ->
  quiet tr w = true ->
  sched_pc (run tr w) = Some LockstepWait.
Proof.
  revert w. induction tr as [| e tr IH]; intros w Hpc Hq; [exact Hpc |].
  cbn [quiet] in Hq. apply andb_prop in Hq as [Hq Hrest].
  apply andb_prop in Hq as [Himu Hrun]. apply negb_true_iff in Himu.
  cbn [run foldl]. apply IH; [| exact Hrest].
  destruct (wait_survives_step e w Hpc Himu Hrun) as [H | H]; [exact H |].
  destruct tr; cbn [quiet] in Hrest; rewrite H, andb_false_r in Hrest; discriminate.
Qed.

(** The wait of lines 259-262, for whatever values the attributes hold
    (no run from the constructor brings [received_first_imu] up, so these
    are values assigned from outside the class).  The gate of the wait is
    [received_first_imu].  When it is up, the thread enters the wait and
    stays in it through whatever the producer, the peer and the other
    threads do, as long as [received_imu] stays down and [is_running] up;
    with either changed its next step leaves the wait.  When the gate is
    down the thread passes without waiting, whether lockstep is enabled or
    not and whatever [received_first_actuator] says. *)
Lemma lockstep_wait_gate (w : World) (tr : list event) :
  sched_pc w = Some LockstepGate ->
  if received_first_imu (self w)
  then
    enable_lockstep (self w) = true ->
    sched_step w = set_thread (At LockstepWait) w /\
    (quiet tr (sched_step w) = true ->
     sched_pc (run tr (sched_step w)) = Some LockstepWait) /\
    (forall w', sched_pc w' = Some LockstepWait ->
                (received_imu (self w') = true \/ is_running (self w') = false) ->
                sched_step w' = set_thread (At ClearImu) w')
  else sched_step w = set_thread (At ClearImu) w.
Proof.
  intros Hpc.
  pose proof (sched_step_at LockstepGate w Hpc) as Hs. cbn in Hs.
  destruct (received_first_imu (self w)); [| exact Hs].
  intros _. split; [exact Hs |]. split.
  - intros Hq. apply wait_survives_run; [rewrite Hs; reflexivity | exact Hq].
  - intros w' Hpc' Hleave. rewrite (step_LockstepWait w' Hpc').
    destruct Hleave as [-> | ->]; [reflexivity | rewrite andb_false_r; reflexivity].
Qed.

Lemma update_imu_sched_pc (d : dict) (w : World) :
  sched_pc (step (Call (UpdateImu d)) w) = sched_pc w.
Proof. reflexivity. Qed.

Lemma update_imu_received (d : dict) (w : World) :
  received_imu (self (step (Call (UpdateImu d)) w)) = true.
Proof. reflexivity. Qed.

(** At a gate that is up: GPS and barometer samples, a clock tick and
    steps of the thread leave it waiting; the call of [update_imu] lets it
    through. *)
Lemma lockstep_wait_gate_example :
  let w := at_gate true true true in
  sched_pc (run gate_traffic (sched_step w)) = Some LockstepWait /\
  sched_pc (sched_step (step (Call (UpdateImu ∅)) (run gate_traffic (sched_step w))))
  = Some ClearImu.
Proof.
  intros w.
  assert (Hpc : sched_pc w = Some LockstepGate) by (vm_compute; reflexivity).
  assert (Hgate : received_first_imu (self w) = true) by (vm_compute; reflexivity).
  assert (Hlock : enable_lockstep (self w) = true) by (vm_compute; reflexivity).
  pose proof (lockstep_wait_gate w gate_traffic Hpc) as H.
  rewrite Hgate in H.
  destruct (H Hlock) as (_ & Hstay & Hleave).
  assert (Hq : quiet gate_traffic (sched_step w) = true) by (vm_compute; reflexivity).
  split; [exact (Hstay Hq) |].
  rewrite Hleave.
  - apply sched_pc_set_thread.
  - rewrite update_imu_sched_pc. exact (Hstay Hq).
  - left. apply update_imu_received.
Defined.

(** The wait does not consult [enable_lockstep]: with lockstep disabled
    and the gate up, the thread waits all the same. *)
Lemma lockstep_disabled_still_waits (w : World) (n : nat) :
  sched_pc w = Some LockstepGate ->
  enable_lockstep (self w) = false ->
  received_first_imu (self w) = true ->
  received_imu (self w) = false ->
  is_running (self w) = true ->
  sched_pc (sched_run (S n) w) = Some LockstepWait.
Proof.
  intros Hpc _ Hgate Himu Hrun.
  assert (Hinv : forall k w', sched_pc w' = Some LockstepWait ->
                   received_imu (self w') = false -> is_running (self w') = true ->
                   sched_pc (sched_run k w') = Some LockstepWait).
  { induction k as [| k IH]; intros w' Hpc' Himu' Hrun'; [exact Hpc' |].
    cbn [sched_run]. rewrite (step_LockstepWait w' Hpc'), Himu', Hrun'.
    apply IH; [reflexivity | exact Himu' | exact Hrun']. }
  cbn [sched_run]. rewrite (sched_step_at LockstepGate w Hpc).
  cbn [sched_at]. unfold bind, attr, ret. rewrite Hgate.
  apply Hinv; [reflexivity | exact Himu | exact Hrun].
Qed.

(** * More of the class *)

(** ** The bitmask can be read back *)

(** X1. The codes of the groups do not overlap: from the mask of the frame
    [send_sensor_msgs] sends (the mask lines 345-365 compose), the
    receiver reads back which of the four dirty flags were up at the
    drain, and an IMU update shows as both ACCEL and GYRO. *)
Theorem mask_reads_back (w : World) (c : nat) (t : Z) :
  can_send w = Some (c, t) ->
  exists s,
    wire (snd (send_sensor_msgs w)) = wire w ++ [(c, Wire.HIL_SENSOR s)] /\
    fst (collect_fields_updated w) = Ok (Wire.fields_updated s) /\
    has_group (Wire.fields_updated s) SensorSource.ACCEL
    = new_imu_data (sensor_data (self w)) /\
    has_group (Wire.fields_updated s) SensorSource.GYRO
    = new_imu_data (sensor_data (self w)) /\
    has_group (Wire.fields_updated s) SensorSource.MAG
    = new_mag_data (sensor_data (self w)) /\
    has_group (Wire.fields_updated s) SensorSource.BARO
    = new_bar_data (sensor_data (self w)) /\
    has_group (Wire.fields_updated s) SensorSource.DIFF_PRESS
    = new_press_data (sensor_data (self w)).
Proof.
  intros Hs. eexists. split.
  { rewrite send_sensor_msgs_spec; cbn [snd]. rewrite Hs. reflexivity. }
  cbn [Wire.fields_updated hil_sensor_args].
  split; [rewrite collect_fields_updated_spec; reflexivity |].
  unfold mask_of_flags.
  destruct (new_imu_data (sensor_data (self w))), (new_mag_data (sensor_data (self w))),
    (new_bar_data (sensor_data (self w))), (new_press_data (sensor_data (self w)));
    vm_compute; repeat split.
Qed.

(** After an IMU sample on a new interface the frame shows ACCEL and GYRO
    and no other group. *)
Lemma mask_reads_back_witness :
  let w := snd (update_imu_data imu_123 (Build endpoint 4 true t_10)) in
  can_send w = Some (0%nat, 10) /\
  exists s,
    wire (snd (send_sensor_msgs w)) = [(0%nat, Wire.HIL_SENSOR s)] /\
    map (has_group (Wire.fields_updated s))
      [SensorSource.ACCEL; SensorSource.GYRO; SensorSource.MAG; SensorSource.BARO;
       SensorSource.DIFF_PRESS]
    = [true; true; false; false; false].
Proof.
  intros w.
  assert (Hs : can_send w = Some (0%nat, 10)) by (vm_compute; reflexivity).
  assert (Hw : wire w = []) by (vm_compute; reflexivity).
  assert (Hi : new_imu_data (sensor_data (self w)) = true) by (vm_compute; reflexivity).
  assert (Hfm : new_mag_data (sensor_data (self w)) = false) by (vm_compute; reflexivity).
  assert (Hfb : new_bar_data (sensor_data (self w)) = false) by (vm_compute; reflexivity).
  assert (Hfp : new_press_data (sensor_data (self w)) = false) by (vm_compute; reflexivity).
  destruct (mask_reads_back w 0%nat 10 Hs) as (s & Hwire & _ & Ha & Hg & Hm & Hb & Hp).
  split; [exact Hs |].
  exists s. rewrite Hw in Hwire. split; [exact Hwire |].
  cbn [map]. rewrite Ha, Hg, Hm, Hb, Hp, Hi, Hfm, Hfb, Hfp. reflexivity.
Defined.

(** ** The producer's calls stay in their group *)

Lemma with_sensor_undo (f : SensorMsg -> SensorMsg) (w : World) :
  set_self (set_sensor_data (sensor_data (self w)) (self (with_sensor f w)))
    (with_sensor f w) = w.
Proof. destruct w as [o ? ? ? ? ? ? ? ? ?]; destruct o; reflexivity. Qed.

Lemma with_sensor_id (w : World) : w = with_sensor (fun m => m) w.
Proof. destruct w as [o ? ? ? ? ? ? ? ? ?]; destruct o; reflexivity. Qed.

Lemma with_sensor_compose (f g : SensorMsg -> SensorMsg) (w : World) :
  with_sensor g (with_sensor f w) = with_sensor (fun m => g (f m)) w.
Proof. reflexivity. Qed.

Lemma sensor_only_eval {A} (r : outcome A) : sensor_only (eval r).
Proof. intros w. exists (fun m => m). apply with_sensor_id. Qed.

Lemma sensor_only_assign (f : SensorMsg -> SensorMsg) : sensor_only (assign_sensor f).
Proof. intros w. exists f. reflexivity. Qed.

Lemma sensor_only_bind {A B} (m : M A) (k : A -> M B) :
  sensor_only m -> (forall a, sensor_only (k a)) -> sensor_only (bind m k).
Proof.
  intros Hm Hk w. unfold bind.
  destruct (Hm w) as [f Hf]. destruct (m w) as [[a | e |] w']; cbn [snd] in *; subst w'.
  - destruct (Hk a (with_sensor f w)) as [g Hg]. rewrite Hg, with_sensor_compose. eauto.
  - eauto.
  - eauto.
Qed.

(** A call of the producer's leaves a world that differs from the one it
    found in [_sensor_data] only. *)
Lemma sensor_call_confined (c : call) :
  is_sensor_call c = true -> sensor_only (invoke c).
Proof.
  destruct c; try discriminate; intros _; cbn [invoke];
    unfold update_imu_data, update_gps_data, update_bar_data, update_mag_data,
      write_press_data;
    repeat first [ apply sensor_only_bind; [| intros ?]
                 | apply sensor_only_eval | apply sensor_only_assign ].
Qed.

(** X2. A call that feeds an aggregator ([update_imu_data],
    [update_gps_data], [update_bar_data], [update_mag_data], a write of the
    differential pressure) changes nothing outside [_sensor_data], and
    inside it neither the values nor the flag of any group but its own,
    whether it returns or raises half-way. *)
Theorem sensor_call_stays_in_group (c : call) (w : World) :
  is_sensor_call c = true ->
  let w' := snd (invoke c w) in
  set_self (set_sensor_data (sensor_data (self w)) (self w')) w' = w /\
  foreign_groups c (sensor_data (self w')) = foreign_groups c (sensor_data (self w)).
Proof.
  intros Hc w'. split.
  - destruct (sensor_call_confined c Hc w) as [f Hf]. subst w'. rewrite Hf.
    apply with_sensor_undo.
  - subst w'. destruct c; try discriminate Hc; cbn [invoke foreign_groups];
      unfold update_imu_data, update_gps_data, update_bar_data, update_mag_data,
        write_press_data, bind, eval;
      repeat (step_m; rewrite ?assign_sensor_eq; cbn [fst snd]);
      rewrite ?assign_sensor_eq; cbn [fst snd];
      rewrite ?sensor_data_with_sensor;
      destruct (sensor_data (self w)); reflexivity.
Qed.

(** A magnetometer sample with two components only: the update raises
    after two writes, and the other groups have not moved. *)
Lemma sensor_call_stays_in_group_witness :
  let c := UpdateMagData (<["magnetic_field" := VList [VInt 1; VInt 2]]> ∅) in
  let w := Build endpoint 4 true fzero in
  fst (invoke c w) = Raise IndexError /\
  xmag (sensor_data (self (snd (invoke c w)))) = VInt 1 /\
  foreign_groups c (sensor_data (self (snd (invoke c w))))
  = foreign_groups c (sensor_data (self w)).
Proof.
  intros c w.
  destruct (sensor_call_stays_in_group c w eq_refl) as [_ H].
  split; [vm_compute; reflexivity |].
  split; [vm_compute; reflexivity | exact H].
Defined.

(** ** From the producer to the wire *)

Lemma getitem_index_list (data : dict) (k : string) (l : list pyval) (i : nat) :
  data !! k = Some (VList l) ->
  getitem_index data k i
  = match l !! i with Some x => Ok x | None => Raise IndexError end.
Proof. unfold getitem_index, getitem. intros ->. reflexivity. Qed.

Lemma can_send_with_sensor (f : SensorMsg -> SensorMsg) (w : World) :
  can_send (with_sensor f w) = can_send w.
Proof. reflexivity. Qed.

Lemma wire_with_sensor (f : SensorMsg -> SensorMsg) (w : World) :
  wire (with_sensor f w) = wire w.
Proof. reflexivity. Qed.

(** The frame a drain sends when the send goes through. *)
Lemma send_sensor_msgs_sends (w : World) (c : nat) (t : Z) :
  can_send w = Some (c, t) ->
  wire (snd (send_sensor_msgs w))
  = wire w ++ [(c, Wire.HIL_SENSOR
                     (hil_sensor_args t (sensor_data (self w))
                        (mask_of_flags (sensor_data (self w)))))].
Proof.
  intros Hs. rewrite send_sensor_msgs_spec; cbn [snd]. rewrite Hs. reflexivity.
Qed.

(** X3. An IMU sample with three components of acceleration and three of
    angular velocity is taken as it is: the update returns, and the frame
    of the next drain carries the six values unchanged, with the bits of
    ACCEL and GYRO added to whatever was dirty before. *)
Theorem imu_sample_reaches_wire (data : dict) (w : World)
    (ax ay az gx gy gz : pyval) (la lg : list pyval) (c : nat) (t : Z) :
  data !! "linear_acceleration" = Some (VList (ax :: ay :: az :: la)) ->
  data !! "angular_velocity" = Some (VList (gx :: gy :: gz :: lg)) ->
  can_send w = Some (c, t) ->
  let w1 := snd (update_imu_data data w) in
  fst (update_imu_data data w) = Ok tt /\
  exists s,
    wire (snd (send_sensor_msgs w1)) = wire w ++ [(c, Wire.HIL_SENSOR s)] /\
    [Wire.xacc s; Wire.yacc s; Wire.zacc s; Wire.xgyro s; Wire.ygyro s; Wire.zgyro s]
    = [ax; ay; az; gx; gy; gz] /\
    Wire.fields_updated s = Z.lor 0x3F (mask_of_flags (sensor_data (self w))).
Proof.
  intros Ha Hg Hs w1.
  pose proof (apply_update_mask (ImuUpdate data) w) as Hmask.
  cbn [apply_update group_code] in Hmask. fold w1 in Hmask.
  assert (Hupd : exists f,
             update_imu_data data w = (Ok tt, with_sensor f w) /\
             forall m, let m' := f m in
               [xacc m'; yacc m'; zacc m'; xgyro m'; ygyro m'; zgyro m']
               = [ax; ay; az; gx; gy; gz]).
  { unfold update_imu_data, bind, eval.
    rewrite !(getitem_index_list data _ _ _ Ha), !(getitem_index_list data _ _ _ Hg).
    cbn. eexists (fun m => _). split; [unfold with_sensor; cbn; reflexivity |].
    intros m. reflexivity. }
  destruct Hupd as (f & Hupd & Hvals).
  subst w1. rewrite Hupd in *. cbn [fst snd is_ok] in *.
  split; [reflexivity |].
  eexists. split; [| split].
  - rewrite (send_sensor_msgs_sends _ c t) by exact Hs. reflexivity.
  - cbn [Wire.xacc Wire.yacc Wire.zacc Wire.xgyro Wire.ygyro Wire.zgyro hil_sensor_args].
    rewrite sensor_data_with_sensor. apply Hvals.
  - cbn [Wire.fields_updated hil_sensor_args]. exact Hmask.
Qed.

(** The sample of the scenario on a fresh interface. *)
Lemma imu_sample_reaches_wire_witness :
  exists s,
    wire (snd (send_sensor_msgs
                 (snd (update_imu_data imu_123 (Build endpoint 4 true t_10)))))
    = [(0%nat, Wire.HIL_SENSOR s)] /\
    Wire.zacc s = VInt 3 /\ Wire.fields_updated s = 0x3F.
Proof.
  assert (Ha : imu_123 !! "linear_acceleration"
               = Some (VList (VInt 1 :: VInt 2 :: VInt 3 :: [])))
    by (vm_compute; reflexivity).
  assert (Hg : imu_123 !! "angular_velocity"
               = Some (VList (VInt 0 :: VInt 0 :: VInt 0 :: [])))
    by (vm_compute; reflexivity).
  destruct (imu_sample_reaches_wire imu_123 (Build endpoint 4 true t_10)
              _ _ _ _ _ _ _ _ 0%nat 10 Ha Hg eq_refl) as (_ & s & Hw & Hv & Hm).
  exists s. split; [exact Hw |].
  split; [| exact Hm].
  exact (f_equal (fun l => nth 2 l (VInt 0)) Hv).
Defined.

(** X4. A barometer sample with its three keys is stored as it is and the
    next drain sends the two pressures with the bits of BARO; the
    temperature is stored but never sent: the slot of the frame that
    pymavlink calls [temperature] carries the stored altitude, and the
    frame is the same whatever temperature is stored. *)
Theorem barometer_sample_reaches_wire (data : dict) (w : World)
    (tv p a : pyval) (c : nat) (t : Z) :
  data !! "temperature" = Some tv ->
  data !! "absolute_pressure" = Some p ->
  data !! "pressure_altitude" = Some a ->
  can_send w = Some (c, t) ->
  let w1 := snd (update_bar_data data w) in
  fst (update_bar_data data w) = Ok tt /\
  temperature (sensor_data (self w1)) = tv /\
  (exists s,
     wire (snd (send_sensor_msgs w1)) = wire w ++ [(c, Wire.HIL_SENSOR s)] /\
     Wire.abs_pressure s = p /\ Wire.pressure_alt s = a /\
     Wire.temperature s = altitude (sensor_data (self w)) /\
     Wire.fields_updated s
     = Z.lor SensorSource.BARO (mask_of_flags (sensor_data (self w)))) /\
  (forall v, wire (snd (send_sensor_msgs (with_sensor (set_temperature v) w1)))
             = wire (snd (send_sensor_msgs w1))).
Proof.
  intros Ht Hp Ha Hs w1.
  pose proof (apply_update_mask (BarUpdate data) w) as Hmask.
  cbn [apply_update group_code] in Hmask. fold w1 in Hmask.
  assert (Hupd : update_bar_data data w
                 = (Ok tt,
                    with_sensor (fun m => set_new_bar_data true
                                   (set_pressure_alt a
                                      (set_abs_pressure p (set_temperature tv m)))) w)).
  { unfold update_bar_data, bind, eval, getitem. rewrite Ht, Hp, Ha. reflexivity. }
  subst w1. rewrite Hupd in *. cbn [fst snd is_ok] in *.
  split; [reflexivity |]. split; [reflexivity |]. split.
  - eexists. split; [rewrite (send_sensor_msgs_sends _ c t) by exact Hs; reflexivity |].
    repeat split. cbn [Wire.fields_updated hil_sensor_args]. exact Hmask.
  - intros v. rewrite !(send_sensor_msgs_sends _ c t) by exact Hs. reflexivity.
Qed.

(** Twenty degrees are stored, and the altitude the constructor set goes
    out in their place. *)
Lemma barometer_sample_reaches_wire_witness :
  let data : dict :=
    <["temperature" := VInt 20]>
      (<["absolute_pressure" := VInt 1013]> (<["pressure_altitude" := VInt 5]> ∅)) in
  let w1 := snd (update_bar_data data (Build endpoint 4 true t_10)) in
  temperature (sensor_data (self w1)) = VInt 20 /\
  exists s,
    wire (snd (send_sensor_msgs w1)) = [(0%nat, Wire.HIL_SENSOR s)] /\
    Wire.temperature s = VInt (-999) /\ Wire.fields_updated s = 0x1A00.
Proof.
  intros data w1.
  destruct (barometer_sample_reaches_wire data (Build endpoint 4 true t_10)
              (VInt 20) (VInt 1013) (VInt 5) 0%nat 10
              eq_refl eq_refl eq_refl eq_refl)
    as (_ & Htemp & (s & Hw & _ & _ & Hslot & Hm) & _).
  split; [exact Htemp |].
  exists s. split; [exact Hw |]. split; [exact Hslot | exact Hm].
Defined.

(** X5. An IMU sample that has its acceleration and lacks the key
    ["angular_velocity"]: the update raises the missing-key error with the
    three accelerations already written and the dirty flag untouched, so
    the next drain sends the new accelerations under the mask it would
    have sent without them. *)
Theorem imu_update_half_written (data : dict) (w : World)
    (ax ay az : pyval) (la : list pyval) (c : nat) (t : Z) :
  data !! "linear_acceleration" = Some (VList (ax :: ay :: az :: la)) ->
  data !! "angular_velocity" = None ->
  can_send w = Some (c, t) ->
  let w1 := snd (update_imu_data data w) in
  fst (update_imu_data data w) = Raise (KeyError "angular_velocity") /\
  new_imu_data (sensor_data (self w1)) = new_imu_data (sensor_data (self w)) /\
  exists s,
    wire (snd (send_sensor_msgs w1)) = wire w ++ [(c, Wire.HIL_SENSOR s)] /\
    [Wire.xacc s; Wire.yacc s; Wire.zacc s] = [ax; ay; az] /\
    [Wire.xgyro s; Wire.ygyro s; Wire.zgyro s]
    = [xgyro (sensor_data (self w)); ygyro (sensor_data (self w));
       zgyro (sensor_data (self w))] /\
    Wire.fields_updated s = mask_of_flags (sensor_data (self w)).
Proof.
  intros Ha Hg Hs w1.
  assert (Hupd : update_imu_data data w
                 = (Raise (KeyError "angular_velocity"),
                    with_sensor (fun m => set_zacc az (set_yacc ay (set_xacc ax m))) w)).
  { unfold update_imu_data, bind, eval.
    rewrite !(getitem_index_list data _ _ _ Ha).
    unfold getitem_index, getitem. rewrite Hg. reflexivity. }
  subst w1. rewrite Hupd. cbn [fst snd].
  split; [reflexivity |]. split; [reflexivity |].
  eexists. split; [rewrite (send_sensor_msgs_sends _ c t) by exact Hs; reflexivity |].
  repeat split.
Qed.

(** Accelerations alone on a fresh interface: they go out under mask 0. *)
Lemma imu_update_half_written_witness :
  let data : dict := <["linear_acceleration" := VList [VInt 1; VInt 2; VInt 3]]> ∅ in
  let w1 := snd (update_imu_data data (Build endpoint 4 true t_10)) in
  exists s,
    wire (snd (send_sensor_msgs w1)) = [(0%nat, Wire.HIL_SENSOR s)] /\
    Wire.xacc s = VInt 1 /\ Wire.fields_updated s = 0.
Proof.
  intros data w1.
  destruct (imu_update_half_written data (Build endpoint 4 true t_10)
              (VInt 1) (VInt 2) (VInt 3) [] 0%nat 10 eq_refl eq_refl eq_refl)
    as (_ & _ & s & Hw & Hv & _ & Hm).
  exists s. split; [exact Hw |]. split; [| exact Hm].
  exact (f_equal (fun l => nth 0 l (VInt 0)) Hv).
Defined.

(** ** The GPS aggregator, beyond the missing key *)

(** X6. [update_gps_data] stops at the first of its twelve conversions
    that raises (a missing key, a value [int] rejects, a float that is not
    a number or infinite) and passes that exception on; the attributes of
    the conversions before it are overwritten, the others and the dirty
    flag are as they were.  Only when all twelve return is the flag set. *)
Theorem gps_update_stops_at_first_failure (data : dict) (w : World) :
  let convs := gps_all_conversions data in
  let m := sensor_data (self w) in
  let m' := sensor_data (self (snd (update_gps_data data w))) in
  fst (update_gps_data data w)
  = match first_raise convs with Some e => Raise e | None => Ok tt end /\
  gps_all_fields m'
  = map VInt (ok_prefix convs) ++ drop (length (ok_prefix convs)) (gps_all_fields m) /\
  new_gps_data m'
  = match first_raise convs with Some _ => new_gps_data m | None => true end.
Proof.
  intros convs m m'. subst convs m m'.
  unfold gps_all_conversions, gps_conversions.
  gps_cases; rewrite ?sensor_data_with_sensor.
  all: try (exfalso; eapply int_item_not_hang; eassumption).
  all: try (exfalso; eapply int_scaled_item_not_hang; eassumption).
  all: repeat match goal with
         | H : int_item _ _ = _ |- _ => rewrite H; clear H
         | H : int_scaled_item _ _ _ = _ |- _ => rewrite H; clear H
         end.
  all: cbn [app ok_prefix first_raise map length drop];
    destruct (sensor_data (self w)); repeat split.
Qed.

(** A latitude that is not a number: [int] raises [ValueError] with the fix
    type already overwritten and the latitude still the constructor's. *)
Example gps_update_nan_latitude :
  let data : dict := <["latitude" := VFloat S754_nan]> gps_sample in
  let w' := snd (update_gps_data data (Build endpoint 4 true t_10)) in
  fst (update_gps_data data (Build endpoint 4 true t_10)) = Raise ValueError /\
  fix_type (sensor_data (self w')) = VInt 3 /\
  latitude_deg (sensor_data (self w')) = VInt (-999) /\
  new_gps_data (sensor_data (self w')) = false.
Proof. vm_compute. repeat split. Qed.

(** X7. [send_gps_msgs] takes the GPS dirty flag down whether or not the
    frame gets through, so an update is sent once at most: a frame goes on
    the wire only when the flag was up and the send goes through, a second
    call right after sends nothing, and the flags of the sensor aggregator
    are not touched. *)
Theorem gps_sent_once_per_update (w : World) :
  let w1 := snd (send_gps_msgs w) in
  fst (send_gps_msgs w) = Ok tt /\
  new_gps_data (sensor_data (self w1)) = false /\
  wire w1
  = (if new_gps_data (sensor_data (self w))
     then match can_send w with
          | Some (c, t) =>
              wire w ++ [(c, Wire.HIL_GPS (hil_gps_args t (sensor_data (self w1))))]
          | None => wire w
          end
     else wire w) /\
  wire (snd (send_gps_msgs w1)) = wire w1 /\
  sensor_flags w1 = sensor_flags w.
Proof.
  intros w1.
  assert (Hflag : new_gps_data (sensor_data (self w1)) = false).
  { subst w1. rewrite send_gps_msgs_spec; cbn [snd].
    destruct (new_gps_data (sensor_data (self w))) eqn:Hf; [| exact Hf].
    destruct (can_send w) as [[c t] |]; reflexivity. }
  split; [rewrite send_gps_msgs_spec; reflexivity |].
  split; [exact Hflag |].
  split; [| split].
  - subst w1. rewrite send_gps_msgs_spec; cbn [snd].
    destruct (new_gps_data (sensor_data (self w))); [| reflexivity].
    destruct (can_send w) as [[c t] |]; reflexivity.
  - rewrite (send_gps_msgs_spec w1); cbn [snd]. rewrite Hflag. reflexivity.
  - subst w1. rewrite send_gps_msgs_spec; cbn [snd].
    destruct (new_gps_data (sensor_data (self w))); [| reflexivity].
    destruct (can_send w) as [[c t] |]; reflexivity.
Qed.

(** ** What the scheduler thread never does *)

Lemma gps_frames_app (l1 l2 : list (nat * Wire.frame)) :
  gps_frames (l1 ++ l2) = gps_frames l1 ++ gps_frames l2.
Proof.
  unfold gps_frames. induction l1 as [| [c f] l1 IH]; [reflexivity |].
  cbn. rewrite IH. destruct f; reflexivity.
Qed.

Lemma conn_send_keeps_gps (f : Wire.frame) :
  is_gps_frame f = false -> keeps gps_view (conn_send f).
Proof.
  intros Hf w. unfold conn_send, bind, attr, raise.
  destruct (connection (self w)) as [c |]; [| reflexivity].
  destruct (link_up w); [| reflexivity].
  unfold gps_view. cbn. rewrite gps_frames_app. cbn.
  destruct f; try discriminate Hf; cbn; rewrite app_nil_r; reflexivity.
Qed.

Ltac keeps_gps_tac :=
  cbv zeta;
  repeat first
    [ apply conn_send_keeps_gps; reflexivity
    | apply keeps_ret | apply keeps_raise | apply keeps_eval | apply keeps_attr
    | apply keeps_time_time
    | apply keeps_bind; [| intros ?]
    | apply keeps_try_except
    | match goal with
      | |- keeps _ (if ?b then _ else _) => destruct b
      | |- keeps _ (match ?x with _ => _ end) => destruct x
      end
    | (intros w; cbn;
       repeat match goal with
         | |- context [match ?x with _ => _ end] => destruct x
         end;
       reflexivity) ].

Lemma sched_at_keeps_gps (p : pc) : keeps gps_view (sched_at p).
Proof.
  destruct p; cbn [sched_at];
    unfold poll_enter, poll_recv, recv_match, heartbeat_due, send_heartbeat,
      send_sensor_msgs, collect_fields_updated, send_ground_truth, handle_control,
      sleep_period, sensor;
    keeps_gps_tac.
Qed.

Lemma sched_step_keeps_gps (w : World) : gps_view (sched_step w) = gps_view w.
Proof.
  unfold sched_step.
  destruct (update_thread (self w)) as [[| p] |]; try reflexivity.
  pose proof (sched_at_keeps_gps p w) as H.
  destruct (sched_at p w) as [[p' | e |] w']; cbn [snd] in H; try reflexivity;
    rewrite <- H; reflexivity.
Qed.

(** X8. The loop of [mavlink_update] never calls [send_gps_msgs]: however
    many steps the scheduler thread takes, it puts no GPS frame on the
    wire, leaves the GPS dirty flag where it is (a GPS update is never
    sent by the loop, and never lost to it), and alters no stored value;
    all it does to [_sensor_data] is take sensor flags down. *)
Theorem scheduler_never_sends_gps (n : nat) (w : World) :
  let w' := sched_run n w in
  gps_frames (wire w') = gps_frames (wire w) /\
  new_gps_data (sensor_data (self w')) = new_gps_data (sensor_data (self w)) /\
  clear_flags (sensor_data (self w')) = clear_flags (sensor_data (self w)).
Proof.
  assert (H : gps_view (sched_run n w) = gps_view w).
  { revert w. induction n as [| n IH]; intros w; [reflexivity |].
    cbn [sched_run]. rewrite IH. apply sched_step_keeps_gps. }
  pose proof (f_equal fst H) as Hw. pose proof (f_equal snd H) as Hm.
  cbn [fst snd gps_view] in Hw, Hm.
  cbn zeta. split; [exact Hw |]. split; [| exact Hm].
  exact (f_equal new_gps_data Hm).
Qed.

(** A GPS update on a loop that runs: three ticks later it is still
    waiting to be sent. *)
Example gps_update_waits_for_ever :
  let w := snd (update_gps_data gps_sample (sched_run 3 (entered_early t_10))) in
  new_gps_data (sensor_data (self (sched_run 30 w))) = true /\
  gps_frames (wire (sched_run 30 w)) = [] /\
  length (wire (sched_run 30 w)) = 6%nat.
Proof. vm_compute. repeat split. Qed.

(** ** A whole tick *)

Lemma step_LoopTest (w : World) :
  sched_pc w = Some LoopTest ->
  sched_step w
  = set_thread (At (if is_running (self w) then LockstepGate else Exited)) w.
Proof. intros Hpc. rewrite (sched_step_at LoopTest w Hpc). reflexivity. Qed.






Lemma step_GroundTruth (w : World) :
  sched_pc w = Some GroundTruth -> sched_step w = set_thread (At Control) w.
Proof. intros Hpc. rewrite (sched_step_at GroundTruth w Hpc). reflexivity. Qed.

Lemma step_Control (w : World) :
  sched_pc w = Some Control -> sched_step w = set_thread (At Sleep) w.
Proof. intros Hpc. rewrite (sched_step_at Control w Hpc). reflexivity. Qed.

Lemma step_Sleep (w : World) :
  sched_pc w = Some Sleep ->
  update_rate (self w) = f250 ->
  sched_step w = set_thread (At LoopTest) w.
Proof.
  intros Hpc Hr. rewrite (sched_step_at Sleep w Hpc).
  cbn [sched_at]. unfold sleep_period, bind, attr. rewrite Hr. reflexivity.
Qed.

Lemma sched_run_add (n k : nat) (w : World) :
  sched_run (n + k) w = sched_run k (sched_run n w).
Proof.
  revert w. induction n as [| n IH]; intros w; [reflexivity |].
  cbn [Nat.add sched_run]. apply IH.
Qed.



(** ** When the heartbeat cannot be sent *)

Lemma sched_step_finished (p : pc) (w : World) :
  sched_pc w = Some p -> finished p = true -> sched_step w = w.
Proof.
  intros Hpc Hfin. rewrite (sched_step_at p w Hpc).
  assert (Hut : update_thread (self w) = Some (At p)).
  { unfold sched_pc in Hpc.
    destruct (update_thread (self w)) as [[| q] |]; try discriminate Hpc. congruence. }
  destruct p; try discriminate Hfin; cbn;
    destruct w as [o ? ? ? ? ? ? ? ? ?]; destruct o; cbn in *; rewrite Hut; reflexivity.
Qed.

Lemma sched_run_finished (n : nat) (p : pc) (w : World) :
  sched_pc w = Some p -> finished p = true -> sched_run n w = w.
Proof.
  intros Hpc Hfin. induction n as [| n IH]; [reflexivity |].
  cbn [sched_run]. rewrite (sched_step_finished p w Hpc Hfin). exact IH.
Qed.

(** X10. Unlike the sensor frame, the heartbeat is sent outside any
    [try]: when it cannot be sent (no connection object, or the send
    raises) the exception ends the scheduler thread.  Nothing is put on
    the wire then or ever after by that thread, while [is_running] stays
    as it was: the interface still counts as running. *)
Theorem heartbeat_send_failure_ends_loop (w : World) :
  sched_pc w = Some HeartbeatSend ->
  connection (self w) = None \/ link_up w = false ->
  let w' := sched_step w in
  (exists e, sched_pc w' = Some (Crashed e)) /\
  is_running (self w') = is_running (self w) /\
  last_heartbeat_sent_time (self w') = last_heartbeat_sent_time (self w) /\
  forall n, sched_run n w' = w' /\ wire (sched_run n w') = wire w.
Proof.
  intros Hpc Hfail w'.
  assert (Hstep : exists e,
             w' = set_thread (At (Crashed e)) (logged (Warn "Sending heartbeat") w)).
  { subst w'. rewrite (sched_step_at HeartbeatSend w Hpc).
    cbn [sched_at]. unfold send_heartbeat, conn_send, bind, attr, raise, log_warn. cbn.
    destruct (connection (self w)) as [c |] eqn:Hc; cbn.
    - destruct Hfail as [Hn | Hl]; [discriminate Hn |]. rewrite Hl. eauto.
    - eauto. }
  destruct Hstep as [e He].
  split; [exists e; rewrite He; reflexivity |].
  split; [rewrite He; reflexivity |].
  split; [rewrite He; reflexivity |].
  intros n.
  assert (Hn : sched_run n w' = w')
    by (apply (sched_run_finished n (Crashed e)); [rewrite He |]; reflexivity).
  split; [exact Hn |]. rewrite Hn, He. reflexivity.
Qed.

(** The link is down when the first heartbeat of the loop is due. *)
Lemma heartbeat_send_failure_ends_loop_witness :
  let w := set_link_up false (sched_run 6 handshaken) in
  sched_pc w = Some HeartbeatSend /\
  sched_pc (sched_step w) = Some (Crashed ConnectionError) /\
  is_running (self (sched_step w)) = true /\
  wire (sched_run 100 (sched_step w)) = [].
Proof.
  intros w.
  assert (Hpc : sched_pc w = Some HeartbeatSend) by (vm_compute; reflexivity).
  destruct (heartbeat_send_failure_ends_loop w Hpc (or_intror eq_refl))
    as (_ & Hrun & _ & Hn).
  split; [exact Hpc |].
  split; [vm_compute; reflexivity |].
  split; [rewrite Hrun; vm_compute; reflexivity |].
  rewrite (proj2 (Hn 100%nat)). vm_compute; reflexivity.
Defined.

(** ** The lifecycle at its edges *)

(** X11. [stop_stream] before the peer's first heartbeat: the scheduler
    thread has been created and not started, so joining it raises
    [RuntimeError].  The running flag is already down by then and the
    connection is left open and in place; the [start_stream] that follows
    therefore re-initialises nothing: it keeps the connection and the
    flags as they are and spawns one more waiting thread. *)
Theorem stop_before_first_heartbeat (during : list env_event) (w : World) :
  is_running (self w) = true ->
  update_thread (self w) = Some NotStarted ->
  connection (self w) <> None ->
  let w1 := snd (stop_stream during w) in
  let w2 := snd (start_stream w1) in
  stop_stream during w
  = (Raise RuntimeError, set_self (set_is_running false (self w)) w) /\
  fst (start_stream w1) = Ok tt /\
  connection (self w2) = connection (self w) /\
  closed w2 = closed w /\
  next_handle w2 = next_handle w /\
  transient_flags w2 = transient_flags w /\
  is_running (self w2) = true /\
  waiters w2 = waiters w ++ [WaitStart].
Proof.
  intros Hrun Hth Hconn w1 w2.
  assert (Hstop : stop_stream during w
                  = (Raise RuntimeError, set_self (set_is_running false (self w)) w)).
  { unfold stop_stream, bind, attr. rewrite Hrun. cbn [negb assign].
    destruct during; cbn [join]; cbn; rewrite Hth; reflexivity. }
  split; [exact Hstop |].
  subst w2 w1. rewrite Hstop. cbn [snd].
  unfold start_stream, bind, attr. cbn.
  destruct (connection (self w)) as [c |] eqn:Hc; [| contradiction Hconn; reflexivity].
  cbn. repeat split. exact Hc.
Qed.

(** The stream is stopped while the interface still waits for the peer. *)
Lemma stop_before_first_heartbeat_witness :
  let w2 := snd (start_stream (snd (stop_stream [] awaiting_heartbeat))) in
  fst (stop_stream [] awaiting_heartbeat) = Raise RuntimeError /\
  connection (self w2) = Some {| conn_id := 0; conn_port := endpoint |} /\
  waiters w2 = [WaitHeartbeat; WaitStart].
Proof.
  cbv zeta.
  assert (Hconn : connection (self awaiting_heartbeat) <> None)
    by (vm_compute; discriminate).
  destruct (stop_before_first_heartbeat [] awaiting_heartbeat eq_refl eq_refl Hconn)
    as (Hstop & _ & Hc & _ & _ & _ & _ & Hw).
  split; [rewrite Hstop; reflexivity |].
  split; [rewrite Hc; vm_compute; reflexivity |].
  rewrite Hw. vm_compute; reflexivity.
Defined.

(** A thread in the receive loop that waits for an actuator stays there:
    nothing the environment does sets [received_actuator]. *)
Lemma waiting_for_actuator_kept (e : env_event) (w : World) :
  sched_pc w = Some (PollRecv true) ->
  received_actuator (self w) = false ->
  connection (self w) <> None ->
  sched_pc (env_step e w) = Some (PollRecv true) /\
  received_actuator (self (env_step e w)) = false /\
  connection (self (env_step e w)) <> None.
Proof.
  intros Hpc Hact Hconn.
  assert (Hut : update_thread (self w) = Some (At (PollRecv true))).
  { unfold sched_pc in Hpc.
    destruct (update_thread (self w)) as [[| q] |]; try discriminate Hpc. congruence. }
  destruct e; cbn [env_step]; try (repeat split; assumption).
  - rewrite (sched_step_at (PollRecv true) w Hpc).
    cbn [sched_at]. unfold poll_recv, recv_match, bind, attr, raise, log_warn.
    destruct (connection (self w)) as [c |] eqn:Hc; [| contradiction Hconn; reflexivity].
    destruct (inbox w) as [| m rest]; cbn.
    + rewrite Hc. repeat split; assumption.
    + rewrite Hact. cbn. rewrite Hc. repeat split; [exact Hact | discriminate].
  - unfold waiter_step.
    destruct (waiters w !! i) as [[|] |]; try (repeat split; assumption).
    destruct (connection (self w)) as [c |] eqn:Hc; [| contradiction Hconn; reflexivity].
    destruct (existsb Wire.is_peer_heartbeat (inbox w)).
    + unfold sched_pc. cbn. rewrite Hut. cbn. rewrite Hut, Hc.
      repeat split; [exact Hact | discriminate].
    + cbn. rewrite Hc. repeat split; [exact Hpc | exact Hact | discriminate].
Qed.

(** X12. Once [poll_mavlink_messages] waits for an actuator message, its
    loop has no way out: no frame of the peer sets [received_actuator].
    So a [stop_stream] called then never returns, whatever the peer
    sends and however long it waits in the join; the connection is not
    closed. *)
Theorem stop_hangs_waiting_for_actuator (during : list env_event) (w : World) :
  is_running (self w) = true ->
  sched_pc w = Some (PollRecv true) ->
  received_actuator (self w) = false ->
  connection (self w) <> None ->
  fst (stop_stream during w) = Hang /\
  closed (snd (stop_stream during w)) = closed w /\
  connection (self (snd (stop_stream during w))) = connection (self w).
Proof.
  intros Hrun Hpc Hact Hconn.
  unfold stop_stream, bind, attr. rewrite Hrun. cbn [negb assign].
  set (wa := set_self (set_is_running false (self w)) w).
  assert (Hj : forall tr w0,
             sched_pc w0 = Some (PollRecv true) ->
             received_actuator (self w0) = false ->
             connection (self w0) <> None ->
             fst (join tr w0) = Hang).
  { induction tr as [| e tr IH]; intros w0 Hp Ha Hc; cbn [join];
      pose proof Hp as Hp'; unfold sched_pc in Hp';
      destruct (update_thread (self w0)) as [[| q] |]; try discriminate Hp';
      injection Hp' as ->; cbn [finished]; [reflexivity |].
    destruct (waiting_for_actuator_kept e w0 Hp Ha Hc) as (Hp1 & Ha1 & Hc1).
    apply IH; assumption. }
  pose proof (Hj during wa Hpc Hact Hconn) as Hhang.
  pose proof (join_keeps_lifecycle during wa) as Hl.
  destruct (join during wa) as [r wj]. cbn [fst snd] in *. subst r.
  unfold lifecycle in Hl. injection Hl as Hc _ _ _ Hcl.
  split; [reflexivity |].
  split; [exact Hcl | exact Hc].
Qed.

(** The peer keeps sending, the scheduler thread keeps reading: the
    caller of [stop_stream] is still waiting. *)
Lemma stop_hangs_waiting_for_actuator_witness :
  let w := set_thread (At (PollRecv true))
             (set_self (set_received_first_actuator true (self handshaken)) handshaken) in
  fst (stop_stream [Deliver (Wire.PEER_OTHER 93); SchedStep; SchedStep;
                    Deliver Wire.PEER_HEARTBEAT; SchedStep; ClockTick t_10_5;
                    SchedStep] w) = Hang.
Proof.
  intros w.
  assert (Hconn : connection (self w) <> None) by (vm_compute; discriminate).
  exact (proj1 (stop_hangs_waiting_for_actuator _ w eq_refl eq_refl eq_refl Hconn)).
Defined.

(** X16. A second [start_stream] is ignored: once one has returned, the
    next changes nothing (no second waiting thread, no new connection, no
    new scheduler thread). *)
Theorem start_stream_twice (w : World) :
  fst (start_stream w) = Ok tt ->
  start_stream (snd (start_stream w)) = (Ok tt, snd (start_stream w)).
Proof.
  intros Hok.
  assert (Hrun : is_running (self (snd (start_stream w))) = true).
  { revert Hok. unfold start_stream, bind, attr.
    destruct (is_running (self w)) eqn:Hr; [intros _; exact Hr |].
    destruct (connection (self w)); cbn; [reflexivity |].
    unfold re_initialize_interface, bind, attr, assign, mavlink_connection. cbn.
    destruct (endpoint_up w); cbn; [reflexivity | discriminate]. }
  unfold start_stream at 1. unfold bind, attr. rewrite Hrun. reflexivity.
Qed.

(** Two calls on a fresh interface: one waiting thread. *)
Lemma start_stream_twice_witness :
  let w := Build endpoint 4 true t_10 in
  waiters (snd (start_stream (snd (start_stream w)))) = [WaitStart].
Proof.
  intros w.
  rewrite (start_stream_twice w eq_refl). reflexivity.
Defined.

(** ** Connections: closed once, and sometimes never *)

Lemma tidy_kept (w w' : World) :
  lifecycle w' = lifecycle w -> tidy w -> tidy w'.
Proof.
  intros Hl (Hok & Hnd & Hlive).
  split; [exact (handles_ok_kept w w' Hl Hok) |].
  unfold lifecycle in Hl. injection Hl as Hc _ _ _ Hcl.
  rewrite Hc, Hcl. split; assumption.
Qed.

Lemma tidy_running_flag (b : bool) (w : World) :
  tidy w -> tidy (set_self (set_is_running b (self w)) w).
Proof. intros H. exact H. Qed.

Lemma tidy_re_initialize (w : World) :
  tidy w -> tidy (snd (re_initialize_interface w)).
Proof.
  intros (Hok & Hnd & Hlive).
  split; [apply handles_ok_re_initialize, Hok |].
  destruct Hok as [_ Hclosed].
  destruct w as [o ? ? ? ? ? ? ? ? ?]; destruct o.
  unfold re_initialize_interface, bind, attr, assign, mavlink_connection. cbn in *.
  destruct endpoint_up0; cbn; (split; [exact Hnd |]); [| exact Hlive].
  intros c [= <-]. cbn. intros Hin.
  rewrite Forall_forall in Hclosed. specialize (Hclosed _ Hin). lia.
Qed.

Lemma tidy_start_stream (w : World) : tidy w -> tidy (snd (start_stream w)).
Proof.
  intros Ht. unfold start_stream, bind at 1, attr at 1.
  destruct (is_running (self w)) eqn:Hrun; [exact Ht |].
  unfold bind at 1, attr at 1.
  destruct (connection (self w)) eqn:Hc.
  - exact Ht.
  - pose proof (tidy_re_initialize w Ht) as Hre.
    unfold bind at 1.
    destruct (re_initialize_interface w) as [[[] | e |] w']; cbn [snd] in *; exact Hre.
Qed.

Lemma tidy_stop_stream (during : list env_event) (w : World) :
  tidy w -> tidy (snd (stop_stream during w)).
Proof.
  intros Ht. unfold stop_stream, bind at 1, attr at 1.
  destruct (is_running (self w)) eqn:Hrun; [| exact Ht].
  cbn [negb]. unfold bind at 1. cbn [assign].
  set (wa := set_self (set_is_running false (self w)) w).
  assert (Hwa : tidy wa) by exact Ht.
  pose proof (join_keeps_lifecycle during wa) as Hj.
  unfold bind at 1.
  destruct (join during wa) as [[[] | e |] wj]; cbn [snd] in *;
    try (revert Hwa; apply tidy_kept; exact Hj).
  assert (Hwj : tidy wj) by (revert Hwa; apply tidy_kept; exact Hj).
  unfold conn_close, bind, attr.
  destruct (connection (self wj)) as [c |] eqn:Hc; cbn; [| exact Hwj].
  destruct Hwj as ([Hlive Hclosed] & Hnd & Hfresh).
  split; [split |].
  - intros c' [=].
  - constructor; [apply (Hlive c Hc) | exact Hclosed].
  - split; [constructor; [apply (Hfresh c Hc) | exact Hnd] | intros c' [=]].
Qed.

Lemma tidy_step (e : event) (w : World) : tidy w -> tidy (step e w).
Proof.
  intros Ht. destruct e as [e | c]; cbn [step].
  - revert Ht. apply tidy_kept, env_step_keeps_lifecycle.
  - pose proof (sensor_call_keeps_lifecycle c) as Hk.
    destruct c; cbn [invoke];
      try (revert Ht; apply tidy_kept; apply Hk).
    + apply tidy_start_stream, Ht.
    + apply tidy_stop_stream, Ht.
    + apply tidy_re_initialize, Ht.
Qed.

Lemma lifecycle_port (w w' : World) :
  lifecycle w' = lifecycle w -> connection_port (self w') = connection_port (self w).
Proof. intros H. exact (f_equal (fun x => snd (fst (fst (fst x)))) H). Qed.

Lemma re_initialize_keeps_port (w : World) :
  connection_port (self (snd (re_initialize_interface w))) = connection_port (self w).
Proof.
  unfold re_initialize_interface, bind, attr, assign, mavlink_connection. cbn.
  destruct (endpoint_up w); reflexivity.
Qed.

Lemma start_stream_keeps_port (w : World) :
  connection_port (self (snd (start_stream w))) = connection_port (self w).
Proof.
  unfold start_stream, bind at 1, attr at 1.
  destruct (is_running (self w)); [reflexivity |].
  unfold bind at 1, attr at 1.
  destruct (connection (self w)); [reflexivity |].
  pose proof (re_initialize_keeps_port w) as Hre.
  unfold bind at 1.
  destruct (re_initialize_interface w) as [[[] | e |] w']; cbn [snd] in *; exact Hre.
Qed.

Lemma stop_stream_keeps_port (during : list env_event) (w : World) :
  connection_port (self (snd (stop_stream during w))) = connection_port (self w).
Proof.
  unfold stop_stream, bind at 1, attr at 1.
  destruct (is_running (self w)); [| reflexivity].
  cbn [negb]. unfold bind at 1. cbn [assign].
  set (wa := set_self (set_is_running false (self w)) w).
  pose proof (lifecycle_port _ _ (join_keeps_lifecycle during wa)) as Hp.
  unfold bind at 1.
  destruct (join during wa) as [[[] | e |] wj]; cbn [snd] in *; try exact Hp.
  unfold conn_close, bind, attr.
  destruct (connection (self wj)); cbn; exact Hp.
Qed.

Lemma step_keeps_port (e : event) (w : World) :
  connection_port (self (step e w)) = connection_port (self w).
Proof.
  destruct e as [e | c]; cbn [step].
  - apply lifecycle_port, env_step_keeps_lifecycle.
  - pose proof (sensor_call_keeps_lifecycle c) as Hk.
    destruct c; cbn [invoke]; try (apply lifecycle_port; apply Hk).
    + apply start_stream_keeps_port.
    + apply stop_stream_keeps_port.
    + apply re_initialize_keeps_port.
Qed.

Lemma tidy_run (tr : list event) (w : World) : tidy w -> tidy (run tr w).
Proof.
  revert w. induction tr as [| e tr IH]; intros w Hw; [exact Hw |].
  apply IH, tidy_step, Hw.
Qed.

Lemma tidy_Build (port : string) (n : nat) (lockstep : bool) (t : float) :
  tidy (Build port n lockstep t).
Proof.
  split; [apply handles_ok_Build |].
  split; [constructor |]. intros c _. cbn. apply not_elem_of_nil.
Qed.

Lemma run_keeps_port (tr : list event) (w : World) :
  connection_port (self (run tr w)) = connection_port (self w).
Proof.
  revert w. induction tr as [| e tr IH]; intros w; [reflexivity |].
  cbn [run foldl]. change (foldl _ ?x tr) with (run tr x).
  rewrite IH. apply step_keeps_port.
Qed.

(** X14. Whatever the producer calls and whatever happens around the
    interface from its construction on, no connection is closed twice, the
    connection in use is not a closed one, and every connection is on the
    endpoint the interface was built with. *)
Theorem connections_closed_once (port : string) (n : nat) (lockstep : bool)
    (t : float) (tr : list event) :
  let w := run tr (Build port n lockstep t) in
  NoDup (closed w) /\
  (forall c, connection (self w) = Some c ->
             (conn_id c ∉ closed w) /\ conn_port c = port).
Proof.
  intros w.
  destruct (tidy_run tr _ (tidy_Build port n lockstep t)) as ([Hlive _] & Hnd & Hfresh).
  split; [exact Hnd |].
  intros c Hc. split; [apply Hfresh, Hc |].
  destruct (Hlive c Hc) as [_ Hp]. rewrite Hp. subst w. rewrite run_keeps_port. reflexivity.
Qed.

(** A session with a restart: the first connection is closed once, the
    second is in use and open. *)
Lemma connections_closed_once_witness :
  let w := run session (Build endpoint 4 true t_10) in
  closed w = [0%nat] /\
  connection (self w) = Some {| conn_id := 1; conn_port := endpoint |} /\
  NoDup (closed w) /\
  (1%nat ∉ closed w).
Proof.
  intros w.
  assert (Hc : connection (self w) = Some {| conn_id := 1; conn_port := endpoint |})
    by (vm_compute; reflexivity).
  destruct (connections_closed_once endpoint 4 true t_10 session) as [Hnd Hlive].
  split; [vm_compute; reflexivity |].
  split; [exact Hc |].
  split; [exact Hnd |].
  exact (proj1 (Hlive _ Hc)).
Defined.

Lemma leaked_kept (h : nat) (w w' : World) :
  lifecycle w' = lifecycle w -> leaked h w -> leaked h w'.
Proof.
  unfold lifecycle, leaked. intros [= Hc _ _ Hn Hcl]. rewrite Hc, Hn, Hcl. auto.
Qed.

Lemma leaked_re_initialize (h : nat) (w : World) :
  leaked h w -> leaked h (snd (re_initialize_interface w)).
Proof.
  intros (Hlt & Hcl & Hlive).
  destruct w as [o ? ? ? ? ? ? ? ? ?]; destruct o.
  unfold re_initialize_interface, bind, attr, assign, mavlink_connection, leaked.
  cbn in *.
  destruct endpoint_up0; cbn; (split; [lia |]); (split; [exact Hcl |]); [| exact Hlive].
  intros c [= <-]. cbn. lia.
Qed.

Lemma leaked_start_stream (h : nat) (w : World) :
  leaked h w -> leaked h (snd (start_stream w)).
Proof.
  intros Hl. unfold start_stream, bind at 1, attr at 1.
  destruct (is_running (self w)); [exact Hl |].
  unfold bind at 1, attr at 1.
  destruct (connection (self w)) eqn:Hc; [exact Hl |].
  pose proof (leaked_re_initialize h w Hl) as Hre.
  unfold bind at 1.
  destruct (re_initialize_interface w) as [[[] | e |] w']; cbn [snd] in *; exact Hre.
Qed.

Lemma leaked_stop_stream (h : nat) (during : list env_event) (w : World) :
  leaked h w -> leaked h (snd (stop_stream during w)).
Proof.
  intros Hl. unfold stop_stream, bind at 1, attr at 1.
  destruct (is_running (self w)); [| exact Hl].
  cbn [negb]. unfold bind at 1. cbn [assign].
  set (wa := set_self (set_is_running false (self w)) w).
  assert (Hwa : leaked h wa) by exact Hl.
  pose proof (join_keeps_lifecycle during wa) as Hj.
  unfold bind at 1.
  destruct (join during wa) as [[[] | e |] wj]; cbn [snd] in *;
    try (revert Hwa; apply leaked_kept; exact Hj).
  assert (Hwj : leaked h wj) by (revert Hwa; apply leaked_kept; exact Hj).
  unfold conn_close, bind, attr.
  destruct (connection (self wj)) as [c |] eqn:Hc; cbn; [| exact Hwj].
  destruct Hwj as (Hlt & Hcl & Hlive).
  split; [exact Hlt |]. split; [| intros c' [=]].
  intros Hin. apply elem_of_cons in Hin as [Heq | Hin]; [| exact (Hcl Hin)].
  exact (Hlive c Hc (eq_sym Heq)).
Qed.

Lemma leaked_step (h : nat) (e : event) (w : World) :
  leaked h w -> leaked h (step e w).
Proof.
  intros Hl. destruct e as [e | c]; cbn [step].
  - revert Hl. apply leaked_kept, env_step_keeps_lifecycle.
  - pose proof (sensor_call_keeps_lifecycle c) as Hk.
    destruct c; cbn [invoke];
      try (revert Hl; apply leaked_kept; apply Hk).
    + apply leaked_start_stream, Hl.
    + apply leaked_stop_stream, Hl.
    + apply leaked_re_initialize, Hl.
Qed.

Lemma leaked_run (h : nat) (tr : list event) (w : World) :
  leaked h w -> leaked h (run tr w).
Proof.
  revert w. induction tr as [| e tr IH]; intros w Hw; [exact Hw |].
  apply IH, leaked_step, Hw.
Qed.

(** X15. [re_initialize_interface] opens a new connection without closing
    the one in use: called on an interface that has one, it drops it
    unclosed, and nothing that happens later closes it, since no
    reference to it is left. *)
Theorem re_initialize_leaks_connection (w : World) (c : Connection)
    (tr : list event) :
  handles_ok w ->
  connection (self w) = Some c ->
  conn_id c ∉ closed w ->
  endpoint_up w = true ->
  let w' := snd (re_initialize_interface w) in
  fst (re_initialize_interface w) = Ok tt /\
  closed w' = closed w /\
  (exists c', connection (self w') = Some c' /\ conn_id c' <> conn_id c) /\
  (conn_id c ∉ closed (run tr w')) /\
  (forall c', connection (self (run tr w')) = Some c' -> conn_id c' <> conn_id c).
Proof.
  intros [Hlive _] Hc Hcl Hup w'.
  destruct (Hlive c Hc) as [Hlt _].
  assert (Hre : re_initialize_interface w
                = (Ok tt, w') /\ closed w' = closed w /\
                  connection (self w')
                  = Some {| conn_id := next_handle w;
                            conn_port := connection_port (self w) |} /\
                  next_handle w' = S (next_handle w)).
  { subst w'. unfold re_initialize_interface, bind, attr, assign, mavlink_connection.
    cbn. rewrite Hup. cbn. repeat split. }
  destruct Hre as (Hre & Hcl' & Hc' & Hn').
  assert (Hleak : leaked (conn_id c) w').
  { split; [rewrite Hn'; lia |]. split; [rewrite Hcl'; exact Hcl |].
    intros c2. rewrite Hc'. intros [= <-]. cbn. lia. }
  destruct (leaked_run (conn_id c) tr w' Hleak) as (_ & Hcl2 & Hlive2).
  split; [rewrite Hre; reflexivity |].
  split; [exact Hcl' |].
  split; [eexists; split; [exact Hc' | cbn; lia] |].
  split; [exact Hcl2 | exact Hlive2].
Qed.

(** The interface is re-initialised while it streams, then stopped and
    started again: the first connection is never closed. *)
Lemma re_initialize_leaks_connection_witness :
  let w' := snd (re_initialize_interface handshaken) in
  connection (self handshaken) = Some {| conn_id := 0; conn_port := endpoint |} /\
  connection (self w') = Some {| conn_id := 1; conn_port := endpoint |} /\
  (0%nat ∉ closed (run [Call StartStream; Call (StopStream []); Call StartStream] w')).
Proof.
  cbv zeta.
  assert (Hok : handles_ok handshaken) by apply handles_ok_run, handles_ok_Build.
  assert (Hc : connection (self handshaken) = Some {| conn_id := 0; conn_port := endpoint |})
    by (vm_compute; reflexivity).
  assert (Hcl : 0%nat ∉ closed handshaken) by (vm_compute; apply not_elem_of_nil).
  destruct (re_initialize_leaks_connection handshaken _
              [Call StartStream; Call (StopStream []); Call StartStream]
              Hok Hc Hcl eq_refl) as (_ & _ & _ & Hnot & _).
  split; [exact Hc |].
  split; [vm_compute; reflexivity | exact Hnot].
Defined.

(** X18. [__del__] closes the connection in use, if there is one, and
    nothing else; at whatever point of the life of the interface it comes,
    it closes no connection a second time. *)
Theorem del_closes_once (port : string) (n : nat) (lockstep : bool) (t : float)
    (tr : list event) :
  let w := run tr (Build port n lockstep t) in
  let w' := snd (del_interface w) in
  fst (del_interface w) = Ok tt /\
  NoDup (closed w') /\
  closed w'
  = match connection (self w) with
    | Some c => conn_id c :: closed w
    | None => closed w
    end.
Proof.
  intros w w'.
  destruct (tidy_run tr _ (tidy_Build port n lockstep t)) as (_ & Hnd & Hfresh).
  fold w in Hnd, Hfresh. subst w'.
  unfold del_interface, conn_close, bind, attr, ret.
  destruct (connection (self w)) as [c |] eqn:Hc; cbn; rewrite ?Hc; cbn.
  - split; [reflexivity |].
    split; [constructor; [apply (Hfresh c eq_refl) | exact Hnd] | reflexivity].
  - repeat split; assumption.
Qed.

(** ** The lockstep as the class leaves it *)

Lemma sched_at_keeps_gate_flags (p : pc) : keeps gate_flags (sched_at p).
Proof.
  destruct p; cbn [sched_at];
    unfold poll_enter, poll_recv, recv_match, heartbeat_due, send_heartbeat,
      send_sensor_msgs, collect_fields_updated, send_ground_truth, handle_control,
      sleep_period, conn_send, sensor;
    keeps_tac.
Qed.

Lemma call_keeps_lockstep_view (c : call) :
  match c with
  | StartStream | StopStream _ | ReInitializeInterface => True
  | _ => keeps lockstep_view (invoke c)
  end.
Proof.
  destruct c; cbn [invoke]; try exact I;
    unfold update_imu_data, update_gps_data, update_bar_data, update_mag_data,
      write_press_data, update_imu, send_gps_msgs, conn_send, sensor;
    keeps_tac.
Qed.

Lemma dormant_kept (w w' : World) :
  lockstep_view w' = lockstep_view w -> dormant w -> dormant w'.
Proof.
  unfold lockstep_view, dormant, sched_pc. intros [= Hi Ha Ht]. rewrite Hi, Ha, Ht. auto.
Qed.

(** Where a step leads while the gates are down: into neither wait. *)
Lemma sched_at_dormant (p : pc) (w : World) :
  received_first_imu (self w) = false ->
  received_first_actuator (self w) = false ->
  p <> LockstepWait -> p <> PollRecv true ->
  match fst (sched_at p w) with
  | Ok p' => p' <> LockstepWait /\ p' <> PollRecv true
  | _ => True
  end.
Proof.
  intros Hi Ha Hlw Hpr.
  destruct p as [| | | | | needs | | | | | | | | |]; cbn [sched_at].
  - unfold bind, attr. cbn. destruct (is_running (self w)); split; discriminate.
  - unfold bind, attr. cbn. rewrite Hi. split; discriminate.
  - contradiction Hlw; reflexivity.
  - cbn. split; discriminate.
  - unfold poll_enter, bind, attr. cbn.
    destruct (received_first_hearbeat (self w)); cbn; [rewrite Ha |]; split; discriminate.
  - destruct needs; [contradiction Hpr; reflexivity |].
    unfold poll_recv, recv_match, bind, attr, raise, log_warn. cbn.
    destruct (connection (self w)); cbn; [| exact I].
    destruct (inbox w); cbn; split; discriminate.
  - unfold heartbeat_due, bind, time_time, attr, eval. cbn.
    destruct (fsub_val (clock w) (last_heartbeat_sent_time (self w))) as [d | e |];
      cbn; try exact I.
    destruct (fgt d fone); cbn;
      [| destruct (received_first_hearbeat (self w)); cbn ]; split; discriminate.
  - unfold send_heartbeat, conn_send, bind, attr, raise, log_warn. cbn.
    destruct (connection (self w)); cbn; [| exact I].
    destruct (link_up w); cbn; [split; discriminate | exact I].
  - cbn. split; discriminate.
  - unfold bind. rewrite send_sensor_msgs_spec. cbn. split; discriminate.
  - cbn. split; discriminate.
  - cbn. split; discriminate.
  - unfold sleep_period, bind, attr, raise, ret. cbn [fst].
    destruct (update_rate (self w)); cbn [fst]; try exact I;
      match goal with
      | |- context [fdiv ?a ?b] => destruct (fdiv a b) as [[|] | [|] | | [|] ? ?]
      end; cbn [fst]; first [exact I | split; discriminate].
  - cbn. split; discriminate.
  - cbn. split; discriminate.
Qed.

Lemma dormant_sched_step (w : World) : dormant w -> dormant (sched_step w).
Proof.
  intros (Hi & Ha & Hlw & Hpr).
  destruct (sched_pc w) as [p |] eqn:Hpc.
  - assert (Hp1 : p <> LockstepWait) by congruence.
    assert (Hp2 : p <> PollRecv true) by congruence.
    pose proof (sched_at_dormant p w Hi Ha Hp1 Hp2) as Hat.
    pose proof (sched_step_result p w Hpc) as Hres.
    pose proof (sched_at_keeps_gate_flags p w) as Hk.
    rewrite (sched_step_at p w Hpc) in *.
    destruct (sched_at p w) as [[p' | e |] w']; cbn [fst snd] in *.
    + unfold gate_flags in Hk. injection Hk as Hi' Ha'.
      split; [exact (eq_trans Hi' Hi) |]. split; [exact (eq_trans Ha' Ha) |].
      rewrite Hres. destruct Hat. split; congruence.
    + unfold gate_flags in Hk. injection Hk as Hi' Ha'.
      split; [exact (eq_trans Hi' Hi) |]. split; [exact (eq_trans Ha' Ha) |].
      rewrite Hres. split; discriminate.
    + split; [exact Hi |]. split; [exact Ha |]. rewrite Hpc. split; assumption.
  - unfold sched_step. unfold sched_pc in Hpc.
    destruct (update_thread (self w)) as [[| q] |] eqn:Hut; try discriminate Hpc;
      (split; [exact Hi |]; split; [exact Ha |]);
      unfold sched_pc; rewrite Hut; split; discriminate.
Qed.

Lemma dormant_waiter_step (i : nat) (w : World) : dormant w -> dormant (waiter_step i w).
Proof.
  intros (Hi & Ha & Hlw & Hpr). unfold waiter_step.
  destruct (waiters w !! i) as [[|] |]; try (repeat split; assumption).
  destruct (connection (self w)); try (repeat split; assumption).
  destruct (existsb Wire.is_peer_heartbeat (inbox w)); try (repeat split; assumption).
  unfold dormant, sched_pc in *. cbn.
  destruct (update_thread (self w)) as [[| p] |] eqn:Hut; cbn; rewrite ?Hut;
    repeat split; first [assumption | discriminate].
Qed.

Lemma dormant_env_step (e : env_event) (w : World) : dormant w -> dormant (env_step e w).
Proof.
  destruct e; cbn [env_step]; intros H;
    auto using dormant_sched_step, dormant_waiter_step.
Qed.

Lemma dormant_join (during : list env_event) (w : World) :
  dormant w -> dormant (snd (join during w)).
Proof.
  revert w. induction during as [| e during IH]; intros w Hw; cbn [join];
    destruct (update_thread (self w)) as [[| p] |]; try exact Hw;
    destruct (finished p); try exact Hw.
  apply IH, dormant_env_step, Hw.
Qed.

Lemma dormant_re_initialize (w : World) :
  dormant w -> dormant (snd (re_initialize_interface w)).
Proof.
  intros (Hi & Ha & Hlw & Hpr).
  unfold re_initialize_interface, bind, attr, assign, mavlink_connection. cbn.
  destruct (endpoint_up w); cbn; repeat split; assumption.
Qed.

Lemma dormant_start_stream (w : World) : dormant w -> dormant (snd (start_stream w)).
Proof.
  intros Hd. unfold start_stream, bind at 1, attr at 1.
  destruct (is_running (self w)); [exact Hd |].
  unfold bind at 1, attr at 1.
  destruct (connection (self w)).
  - destruct Hd as (Hi & Ha & _ & _). cbn. repeat split; first [assumption | discriminate].
  - pose proof (dormant_re_initialize w Hd) as Hre.
    unfold bind at 1.
    destruct (re_initialize_interface w) as [[[] | e |] w']; cbn [snd] in *;
      try exact Hre.
    destruct Hre as (Hi & Ha & _ & _). cbn. repeat split; first [assumption | discriminate].
Qed.

Lemma dormant_stop_stream (during : list env_event) (w : World) :
  dormant w -> dormant (snd (stop_stream during w)).
Proof.
  intros Hd. unfold stop_stream, bind at 1, attr at 1.
  destruct (is_running (self w)); [| exact Hd].
  cbn [negb]. unfold bind at 1. cbn [assign].
  set (wa := set_self (set_is_running false (self w)) w).
  assert (Hwa : dormant wa) by exact Hd.
  pose proof (dormant_join during wa Hwa) as Hj.
  unfold bind at 1.
  destruct (join during wa) as [[[] | e |] wj]; cbn [snd] in *; try exact Hj.
  unfold conn_close, bind, attr.
  destruct (connection (self wj)); cbn; exact Hj.
Qed.

Lemma dormant_step (e : event) (w : World) : dormant w -> dormant (step e w).
Proof.
  intros Hd. destruct e as [e | c]; cbn [step].
  - apply dormant_env_step, Hd.
  - pose proof (call_keeps_lockstep_view c) as Hk.
    destruct c; cbn [invoke];
      try (revert Hd; apply dormant_kept; apply Hk).
    + apply dormant_start_stream, Hd.
    + apply dormant_stop_stream, Hd.
    + apply dormant_re_initialize, Hd.
Qed.

Lemma dormant_run (tr : list event) (w : World) : dormant w -> dormant (run tr w).
Proof.
  revert w. induction tr as [| e tr IH]; intros w Hw; [exact Hw |].
  apply IH, dormant_step, Hw.
Qed.

Lemma dormant_Build (port : string) (n : nat) (lockstep : bool) (t : float) :
  dormant (Build port n lockstep t).
Proof. repeat split; discriminate. Qed.

(** X13. Nothing in the class ever sets [received_first_imu] or
    [received_first_actuator]: from the construction of the interface on,
    whatever the producer calls and the peer sends, with lockstep enabled
    or not, both stay down, the scheduler thread never waits for an IMU
    sample and never blocks in the receive loop for an actuator. *)
Theorem lockstep_never_engages (port : string) (n : nat) (lockstep : bool)
    (t : float) (tr : list event) :
  let w := run tr (Build port n lockstep t) in
  received_first_imu (self w) = false /\
  received_first_actuator (self w) = false /\
  sched_pc w <> Some LockstepWait /\
  sched_pc w <> Some (PollRecv true).
Proof. exact (dormant_run tr _ (dormant_Build port n lockstep t)). Qed.

(** X19. So a [stop_stream] on a running interface whose scheduler thread
    has been started always returns, as soon as that thread has had 13
    steps, at whatever point of a run from the constructor it is called. *)
Theorem stop_stream_returns_in_runs (port : string) (n : nat) (lockstep : bool)
    (t : float) (tr : list event) (p : pc) (c : Connection) (k : nat) :
  let w := run tr (Build port n lockstep t) in
  is_running (self w) = true ->
  sched_pc w = Some p ->
  connection (self w) = Some c ->
  (13 <= k)%nat ->
  fst (stop_stream (replicate k SchedStep) w) = Ok tt /\
  connection (self (snd (stop_stream (replicate k SchedStep) w))) = None /\
  closed (snd (stop_stream (replicate k SchedStep) w)) = conn_id c :: closed w.
Proof.
  intros w Hrun Hpc Hc Hk.
  destruct (dormant_run tr _ (dormant_Build port n lockstep t)) as (_ & Ha & _ & Hpr).
  fold w in Ha, Hpr.
  assert (Hp : p <> PollRecv true) by congruence.
  assert (Hwait : waits_for_actuator w = false)
    by (unfold waits_for_actuator; rewrite Ha; reflexivity).
  pose proof (stop_stream_returns w p c k Hrun Hpc Hp Hwait Hc Hk) as Hret.
  split; [exact Hret |].
  revert Hret. unfold stop_stream, bind, attr. rewrite Hrun. cbn [negb assign].
  set (wa := set_self (set_is_running false (self w)) w).
  pose proof (join_keeps_lifecycle (replicate k SchedStep) wa) as Hl.
  destruct (join (replicate k SchedStep) wa) as [[[] | e |] wj]; cbn [fst snd] in *;
    try discriminate.
  unfold lifecycle in Hl. injection Hl as Hconn _ _ _ Hcl.
  unfold conn_close, bind, attr. rewrite Hconn. cbn. rewrite Hc. cbn.
  intros _. rewrite Hcl. split; reflexivity.
Qed.

(** The steady state again: thirteen steps are enough. *)
Lemma stop_stream_returns_in_runs_witness :
  fst (stop_stream (replicate 13 SchedStep) streaming) = Ok tt /\
  connection (self (snd (stop_stream (replicate 13 SchedStep) streaming))) = None.
Proof.
  unfold streaming.
  match goal with
  | |- context [run ?tr (Build ?port ?n ?l ?t)] =>
      assert (Hrun : is_running (self (run tr (Build port n l t))) = true)
        by (vm_compute; reflexivity);
      assert (Hpc : sched_pc (run tr (Build port n l t)) = Some HeartbeatCheck)
        by (vm_compute; reflexivity);
      assert (Hc : connection (self (run tr (Build port n l t)))
                   = Some {| conn_id := 0; conn_port := endpoint |})
        by (vm_compute; reflexivity);
      destruct (stop_stream_returns_in_runs port n l t tr HeartbeatCheck _ 13
                  Hrun Hpc Hc (le_n 13)) as (Hret & Hnone & _)
  end.
  split; [exact Hret | exact Hnone].
Defined.

(** ** The handshake *)

Lemma sched_at_keeps_heartbeat_flag (p : pc) : keeps heartbeat_flag (sched_at p).
Proof.
  destruct p; cbn [sched_at];
    unfold poll_enter, poll_recv, recv_match, heartbeat_due, send_heartbeat,
      send_sensor_msgs, collect_fields_updated, send_ground_truth, handle_control,
      sleep_period, conn_send, sensor;
    keeps_tac.
Qed.

Lemma call_keeps_heartbeat_view (c : call) :
  match c with
  | StartStream | StopStream _ | ReInitializeInterface => True
  | _ => keeps heartbeat_view (invoke c)
  end.
Proof.
  destruct c; cbn [invoke]; try exact I;
    unfold update_imu_data, update_gps_data, update_bar_data, update_mag_data,
      write_press_data, update_imu, send_gps_msgs, conn_send, sensor;
    keeps_tac.
Qed.

Lemma started_after_heartbeat_kept (w w' : World) :
  heartbeat_view w' = heartbeat_view w ->
  started_after_heartbeat w -> started_after_heartbeat w'.
Proof.
  unfold heartbeat_view, started_after_heartbeat, sched_pc.
  intros [= Hf Ht]. rewrite Hf, Ht. auto.
Qed.

Lemma started_sched_step (w : World) :
  started_after_heartbeat w -> started_after_heartbeat (sched_step w).
Proof.
  intros Hs.
  destruct (sched_pc w) as [p |] eqn:Hpc.
  - pose proof (Hs p Hpc) as Hf.
    pose proof (sched_at_keeps_heartbeat_flag p w) as Hk.
    rewrite (sched_step_at p w Hpc).
    destruct (sched_at p w) as [[p' | e |] w']; cbn [snd] in Hk;
      [| | exact Hs]; intros q _; unfold heartbeat_flag in Hk; cbn;
      rewrite Hk; exact Hf.
  - unfold sched_step. unfold sched_pc in Hpc.
    destruct (update_thread (self w)) as [[| q] |]; try discriminate Hpc; exact Hs.
Qed.

Lemma started_waiter_step (i : nat) (w : World) :
  started_after_heartbeat w -> started_after_heartbeat (waiter_step i w).
Proof.
  intros Hs. unfold waiter_step.
  destruct (waiters w !! i) as [[|] |]; try exact Hs.
  destruct (connection (self w)); try exact Hs.
  destruct (existsb Wire.is_peer_heartbeat (inbox w)); try exact Hs.
  intros p _. cbn.
  destruct (update_thread (self w)) as [[| q] |]; reflexivity.
Qed.

Lemma started_env_step (e : env_event) (w : World) :
  started_after_heartbeat w -> started_after_heartbeat (env_step e w).
Proof.
  destruct e; cbn [env_step]; intros H;
    auto using started_sched_step, started_waiter_step.
Qed.

Lemma started_join (during : list env_event) (w : World) :
  started_after_heartbeat w -> started_after_heartbeat (snd (join during w)).
Proof.
  revert w. induction during as [| e during IH]; intros w Hw; cbn [join];
    destruct (update_thread (self w)) as [[| p] |]; try exact Hw;
    destruct (finished p); try exact Hw.
  apply IH, started_env_step, Hw.
Qed.

Lemma started_start_stream (w : World) :
  started_after_heartbeat w -> started_after_heartbeat (snd (start_stream w)).
Proof.
  intros Hs. unfold start_stream, bind at 1, attr at 1.
  destruct (is_running (self w)); [exact Hs |].
  unfold bind at 1, attr at 1.
  destruct (connection (self w)).
  - intros p Hp. discriminate Hp.
  - unfold re_initialize_interface, bind, attr, assign, mavlink_connection. cbn.
    destruct (endpoint_up w); cbn.
    + intros p Hp. discriminate Hp.
    + exact Hs.
Qed.

Lemma started_stop_stream (during : list env_event) (w : World) :
  started_after_heartbeat w -> started_after_heartbeat (snd (stop_stream during w)).
Proof.
  intros Hs. unfold stop_stream, bind at 1, attr at 1.
  destruct (is_running (self w)); [| exact Hs].
  cbn [negb]. unfold bind at 1. cbn [assign].
  set (wa := set_self (set_is_running false (self w)) w).
  assert (Hwa : started_after_heartbeat wa) by exact Hs.
  pose proof (started_join during wa Hwa) as Hj.
  unfold bind at 1.
  destruct (join during wa) as [[[] | e |] wj]; cbn [snd] in *; try exact Hj.
  unfold conn_close, bind, attr.
  destruct (connection (self wj)); cbn; exact Hj.
Qed.

Lemma started_step (e : event) (w : World) :
  is_re_initialize e = false ->
  started_after_heartbeat w -> started_after_heartbeat (step e w).
Proof.
  intros He Hs. destruct e as [e | c]; cbn [step].
  - apply started_env_step, Hs.
  - pose proof (call_keeps_heartbeat_view c) as Hk.
    destruct c; cbn [invoke]; try discriminate He;
      try (revert Hs; apply started_after_heartbeat_kept; apply Hk).
    + apply started_start_stream, Hs.
    + apply started_stop_stream, Hs.
Qed.

(** X17. The interface starts its loop only after the handshake: in any
    run from the constructor in which [re_initialize_interface] is not
    called directly, whenever the scheduler thread has been started the
    first heartbeat of the peer has been received. *)
Theorem loop_starts_after_heartbeat (port : string) (n : nat) (lockstep : bool)
    (t : float) (tr : list event) (p : pc) :
  existsb is_re_initialize tr = false ->
  sched_pc (run tr (Build port n lockstep t)) = Some p ->
  received_first_hearbeat (self (run tr (Build port n lockstep t))) = true.
Proof.
  intros Htr.
  assert (H : forall tr w, existsb is_re_initialize tr = false ->
                started_after_heartbeat w -> started_after_heartbeat (run tr w)).
  { induction tr0 as [| e tr0 IH]; intros w Hno Hw; [exact Hw |].
    cbn [existsb] in Hno. apply orb_false_elim in Hno as [He Hno].
    apply IH; [exact Hno |]. apply started_step; assumption. }
  apply (H tr _ Htr). intros q Hq. discriminate Hq.
Qed.

(** The handshake of the scenario: a frame of another kind is skipped,
    the heartbeat is taken, the loop is started. *)
Lemma loop_starts_after_heartbeat_witness :
  sched_pc handshaken = Some LoopTest /\
  received_first_hearbeat (self handshaken) = true.
Proof.
  unfold handshaken.
  match goal with
  | |- context [run ?tr (Build ?port ?n ?l ?t)] =>
      assert (Hno : existsb is_re_initialize tr = false) by reflexivity;
      assert (Hpc : sched_pc (run tr (Build port n l t)) = Some LoopTest)
        by (vm_compute; reflexivity);
      pose proof (loop_starts_after_heartbeat port n l t tr LoopTest Hno Hpc) as Hf
  end.
  split; [exact Hpc | exact Hf].
Defined.

(** Before the heartbeat the loop does not start and the interface sends
    nothing, however long the waiting thread is given and whatever else
    the peer sends. *)
Example no_heartbeat_no_loop :
  let w := run [Env (Deliver (Wire.PEER_OTHER 1)); Env (WaiterStep 0);
                Env (Deliver (Wire.PEER_OTHER 2)); Env (WaiterStep 0);
                Env SchedStep; Env SchedStep] awaiting_heartbeat in
  update_thread (self w) = Some NotStarted /\
  received_first_hearbeat (self w) = false /\
  wire w = [] /\ inbox w = [].
Proof. vm_compute. repeat split. Qed.

(** ** More compositions *)

(** X20. A magnetometer sample with three components is taken as it is:
    the update returns, and the frame of the next drain carries the three
    values unchanged with the bits of MAG added to the mask. *)
Theorem mag_sample_reaches_wire (data : dict) (w : World)
    (mx my mz : pyval) (l : list pyval) (c : nat) (t : Z) :
  data !! "magnetic_field" = Some (VList (mx :: my :: mz :: l)) ->
  can_send w = Some (c, t) ->
  let w1 := snd (update_mag_data data w) in
  fst (update_mag_data data w) = Ok tt /\
  exists s,
    wire (snd (send_sensor_msgs w1)) = wire w ++ [(c, Wire.HIL_SENSOR s)] /\
    [Wire.xmag s; Wire.ymag s; Wire.zmag s] = [mx; my; mz] /\
    Wire.fields_updated s = Z.lor 0x1C0 (mask_of_flags (sensor_data (self w))).
Proof.
  intros Hm Hs w1.
  pose proof (apply_update_mask (MagUpdate data) w) as Hmask.
  cbn [apply_update group_code] in Hmask. fold w1 in Hmask.
  assert (Hupd : update_mag_data data w
                 = (Ok tt,
                    with_sensor (fun m => set_new_mag_data true
                                   (set_zmag mz (set_ymag my (set_xmag mx m)))) w)).
  { unfold update_mag_data, bind, eval.
    rewrite !(getitem_index_list data _ _ _ Hm). reflexivity. }
  subst w1. rewrite Hupd in *. cbn [fst snd is_ok] in *.
  split; [reflexivity |].
  eexists. split; [rewrite (send_sensor_msgs_sends _ c t) by exact Hs; reflexivity |].
  split; [reflexivity |].
  cbn [Wire.fields_updated hil_sensor_args]. exact Hmask.
Qed.

Lemma mag_sample_reaches_wire_witness :
  let data : dict := <["magnetic_field" := VList [VInt 7; VInt 8; VInt 9]]> ∅ in
  exists s,
    wire (snd (send_sensor_msgs
                 (snd (update_mag_data data (Build endpoint 4 true t_10)))))
    = [(0%nat, Wire.HIL_SENSOR s)] /\
    Wire.ymag s = VInt 8 /\ Wire.fields_updated s = 0x1C0.
Proof.
  intros data.
  destruct (mag_sample_reaches_wire data (Build endpoint 4 true t_10)
              (VInt 7) (VInt 8) (VInt 9) [] 0%nat 10 eq_refl eq_refl)
    as (_ & s & Hw & Hv & Hm).
  exists s. split; [exact Hw |]. split; [| exact Hm].
  exact (f_equal (fun l => nth 1 l (VInt 0)) Hv).
Defined.

Lemma update_gps_data_mask (data : dict) (w : World) :
  mask_of_flags (sensor_data (self (snd (update_gps_data data w))))
  = mask_of_flags (sensor_data (self w)).
Proof.
  gps_cases; rewrite ?assign_sensor_eq; cbn [fst snd];
    rewrite ?sensor_data_with_sensor; destruct (sensor_data (self w)); reflexivity.
Qed.

Lemma update_gps_data_altitude (data : dict) (w : World) :
  fst (update_gps_data data w) = Ok tt ->
  exists z, int_scaled_item data "altitude" 1000 = Ok z /\
            altitude (sensor_data (self (snd (update_gps_data data w)))) = VInt z.
Proof.
  gps_cases; try discriminate. intros _. eexists. split; reflexivity.
Qed.

(** X21. The altitude of the GPS aggregator is the value the sensor frame
    sends in its thirteenth slot: after a GPS update that returns, the
    next drain sends the new altitude in millimetres there, under a mask
    the update has not changed. *)
Theorem gps_altitude_in_sensor_frame (data : dict) (w : World) (c : nat) (t : Z) :
  fst (update_gps_data data w) = Ok tt ->
  can_send w = Some (c, t) ->
  let w1 := snd (update_gps_data data w) in
  exists s z,
    wire (snd (send_sensor_msgs w1)) = wire w ++ [(c, Wire.HIL_SENSOR s)] /\
    int_scaled_item data "altitude" 1000 = Ok z /\
    Wire.temperature s = VInt z /\
    Wire.fields_updated s = mask_of_flags (sensor_data (self w)).
Proof.
  intros Hok Hs w1.
  destruct (update_gps_data_altitude data w Hok) as (z & Hz & Halt).
  pose proof (update_gps_data_mask data w) as Hmask.
  assert (Hc : sensor_only (update_gps_data data))
    by exact (sensor_call_confined (UpdateGpsData data) eq_refl).
  destruct (Hc w) as [f Hf]. fold w1 in Hf, Halt, Hmask.
  assert (Hs1 : can_send w1 = Some (c, t)) by (rewrite Hf; exact Hs).
  assert (Hw1 : wire w1 = wire w) by (rewrite Hf; reflexivity).
  eexists _, z. split; [rewrite (send_sensor_msgs_sends _ c t Hs1), Hw1; reflexivity |].
  split; [exact Hz |].
  split; [exact Halt | exact Hmask].
Qed.

(** The sample of the scenario: 1.9999 m are sent as 1999 under mask 0. *)
Lemma gps_altitude_in_sensor_frame_witness :
  exists s,
    wire (snd (send_sensor_msgs
                 (snd (update_gps_data gps_sample (Build endpoint 4 true t_10)))))
    = [(0%nat, Wire.HIL_SENSOR s)] /\
    Wire.temperature s = VInt 1999 /\ Wire.fields_updated s = 0.
Proof.
  assert (Hok : fst (update_gps_data gps_sample (Build endpoint 4 true t_10)) = Ok tt)
    by (vm_compute; reflexivity).
  destruct (gps_altitude_in_sensor_frame gps_sample (Build endpoint 4 true t_10)
              0%nat 10 Hok eq_refl) as (s & z & Hw & Hz & Ht & Hm).
  assert (Hz' : z = 1999) by (vm_compute in Hz; congruence).
  subst z. exists s. split; [exact Hw |]. split; [exact Ht | exact Hm].
Defined.

Lemma join_finished (during : list env_event) (p : pc) (w : World) :
  sched_pc w = Some p -> finished p = true -> join during w = (Ok tt, w).
Proof.
  intros Hpc Hfin. unfold sched_pc in Hpc.
  destruct during; cbn [join];
    destruct (update_thread (self w)) as [[| q] |]; try discriminate Hpc;
    injection Hpc as ->; rewrite Hfin; reflexivity.
Qed.

Lemma join_sched_step (during : list env_event) (p : pc) (w : World) :
  sched_pc w = Some p -> finished p = false ->
  join (SchedStep :: during) w = join during (sched_step w).
Proof.
  intros Hpc Hfin. unfold sched_pc in Hpc. cbn [join].
  destruct (update_thread (self w)) as [[| q] |]; try discriminate Hpc.
  injection Hpc as ->. rewrite Hfin. reflexivity.
Qed.

(** X22. A [stop_stream] that finds the scheduler thread about to send the
    sensor frame lets it send that frame, the running flag being down
    already: the frame goes out on the connection, the thread goes on to
    the loop test and ends there, and [stop_stream] returns with the
    connection closed and dropped. *)
Theorem stop_completes_tick (w : World) (c : Connection) (t : Z) (k : nat) :
  is_running (self w) = true ->
  sched_pc w = Some SensorMsgs ->
  connection (self w) = Some c ->
  link_up w = true ->
  trunc (clock w) = Ok t ->
  update_rate (self w) = f250 ->
  let w1 := snd (stop_stream (replicate (5 + k) SchedStep) w) in
  fst (stop_stream (replicate (5 + k) SchedStep) w) = Ok tt /\
  sched_pc w1 = Some Exited /\
  wire w1
  = wire w ++ [(conn_id c,
                Wire.HIL_SENSOR
                  (hil_sensor_args t (sensor_data (self w))
                     (mask_of_flags (sensor_data (self w)))))] /\
  closed w1 = conn_id c :: closed w /\
  connection (self w1) = None.
Proof.
  intros Hrun Hpc Hc Hl Ht Hrate w1. subst w1.
  cut (exists w1,
         stop_stream (replicate (5 + k) SchedStep) w = (Ok tt, w1) /\
         sched_pc w1 = Some Exited /\
         wire w1
         = wire w ++ [(conn_id c,
                       Wire.HIL_SENSOR
                         (hil_sensor_args t (sensor_data (self w))
                            (mask_of_flags (sensor_data (self w)))))] /\
         closed w1 = conn_id c :: closed w /\
         connection (self w1) = None).
  { intros (w1 & -> & H). exact (conj eq_refl H). }
  unfold stop_stream, bind at 1 2, attr at 1. rewrite Hrun. cbn [negb assign].
  set (wa := set_self (set_is_running false (self w)) w).
  assert (Hsend : can_send wa = Some (conn_id c, t))
    by (unfold can_send; cbn; rewrite Ht, Hc, Hl; reflexivity).
  assert (Hj : join (replicate (5 + k) SchedStep) wa
               = (Ok tt,
                  set_thread (At Exited)
                    (sent (conn_id c)
                       (Wire.HIL_SENSOR
                          (hil_sensor_args t (clear_flags (sensor_data (self wa)))
                             (mask_of_flags (sensor_data (self wa)))))
                       (with_sensor clear_flags (logged (Warn "Sending sensor msgs") wa))))).
  { cbn [Nat.add replicate].
    rewrite (join_sched_step _ SensorMsgs) by first [exact Hpc | reflexivity].
    rewrite (step_SensorMsgs wa Hpc), send_sensor_msgs_spec; cbn [snd]. rewrite Hsend.
    rewrite (join_sched_step _ GroundTruth) by reflexivity.
    sched_next step_GroundTruth ltac:(reflexivity).
    rewrite (join_sched_step _ Control) by reflexivity.
    sched_next step_Control ltac:(reflexivity).
    rewrite (join_sched_step _ Sleep) by reflexivity.
    sched_next step_Sleep ltac:(first [reflexivity | exact Hrate]).
    rewrite (join_sched_step _ LoopTest) by reflexivity.
    sched_next step_LoopTest ltac:(reflexivity).
    cbn [is_running self set_thread set_self set_update_thread sent logged with_sensor
           set_sensor_data set_wire set_console wa set_is_running].
    rewrite (join_finished _ Exited) by reflexivity.
    destruct w as [o ? ? ? ? ? ? ? ? ?]; destruct o; reflexivity. }
  unfold bind at 1. rewrite Hj.
  unfold conn_close, bind, attr. cbn. rewrite Hc. cbn.
  eexists. split; [reflexivity |]. repeat split.
Qed.

(** The steady state, a few steps on, is stopped as the thread is about
    to send: the frame still goes out. *)
Lemma stop_completes_tick_witness :
  let w := sched_run 3 streaming in
  sched_pc w = Some SensorMsgs /\
  length (wire w) = 1%nat /\
  length (wire (snd (stop_stream (replicate 5 SchedStep) w))) = 2%nat.
Proof.
  intros w.
  assert (Hpc : sched_pc w = Some SensorMsgs) by (vm_compute; reflexivity).
  assert (Hrun : is_running (self w) = true) by (vm_compute; reflexivity).
  assert (Hc : connection (self w) = Some {| conn_id := 0; conn_port := endpoint |})
    by (vm_compute; reflexivity).
  assert (Hl : link_up w = true) by (vm_compute; reflexivity).
  assert (Ht : trunc (clock w) = Ok 10) by (vm_compute; reflexivity).
  assert (Hr : update_rate (self w) = f250) by (vm_compute; reflexivity).
  destruct (stop_completes_tick w _ 10 0 Hrun Hpc Hc Hl Ht Hr) as (_ & _ & Hw & _).
  assert (Hlen : length (wire w) = 1%nat) by (vm_compute; reflexivity).
  split; [exact Hpc |]. split; [exact Hlen |].
  change (5 + 0)%nat with 5%nat in Hw. rewrite Hw, length_app, Hlen. reflexivity.
Defined.

(** ** The tick before the peer's first heartbeat, in full *)

Lemma step_HeartbeatCheck_raises (w : World) :
  sched_pc w = Some HeartbeatCheck ->
  (forall d, fsub_val (clock w) (last_heartbeat_sent_time (self w)) <> Ok d) ->
  exists e, sched_step w = set_thread (At (Crashed e)) w.
Proof.
  intros Hpc Hd. rewrite (sched_step_at HeartbeatCheck w Hpc).
  cbn [sched_at]. unfold heartbeat_due, bind, time_time, attr, eval.
  destruct (last_heartbeat_sent_time (self w)) as [z | f | l]; cbn in *.
  - exfalso. eapply Hd. reflexivity.
  - exfalso. eapply Hd. reflexivity.
  - eauto.
Qed.

Lemma step_HeartbeatSend_raises (w : World) :
  sched_pc w = Some HeartbeatSend ->
  connection (self w) = None \/ link_up w = false ->
  exists e,
    sched_step w = set_thread (At (Crashed e)) (logged (Warn "Sending heartbeat") w).
Proof.
  intros Hpc Hfail. rewrite (sched_step_at HeartbeatSend w Hpc).
  cbn [sched_at]. unfold send_heartbeat, conn_send, bind, attr, raise, log_warn. cbn.
  destruct (connection (self w)) as [c |] eqn:Hc; cbn.
  - destruct Hfail as [Hn | Hl]; [discriminate Hn |]. rewrite Hl. eauto.
  - eauto.
Qed.

(** C4, as the code has it. In a tick that finds the first-heartbeat flag
    down, the poll step returns without reading from the wire, and the
    tick goes on to the sends: a heartbeat is due whatever the clock says.
    When it gets through (a connection, the link up), the heartbeat frame
    goes out, then the sensor frame (unless the clock does not convert to
    an integer, which the [try] absorbs), and only then does the tick reach
    the sleep step.  When it does not, the exception ends the thread:
    nothing is sent and the sleep step is never reached. *)
Theorem tick_before_first_heartbeat_sends (w : World) :
  sched_pc w = Some Poll ->
  received_first_hearbeat (self w) = false ->
  sched_step w = set_thread (At HeartbeatCheck) w /\
  match heartbeat_goes_out w with
  | Some c =>
      sched_pc (sched_run 2 w) = Some HeartbeatSend /\
      sched_pc (sched_run 7 w) = Some Sleep /\
      inbox (sched_run 7 w) = inbox w /\
      wire (sched_run 7 w)
      = wire w ++ (conn_id c, heartbeat_frame) ::
          match trunc (clock w) with
          | Ok t =>
              [(conn_id c,
                Wire.HIL_SENSOR
                  (hil_sensor_args t (sensor_data (self w))
                     (mask_of_flags (sensor_data (self w)))))]
          | _ => []
          end
  | None =>
      exists e, forall n,
        sched_pc (sched_run (3 + n) w) = Some (Crashed e) /\
        wire (sched_run (3 + n) w) = wire w
  end.
Proof.
  intros Hpc Hf.
  pose proof (step_Poll_before_heartbeat w Hpc Hf) as H1.
  split; [exact H1 |].
  unfold heartbeat_goes_out.
  destruct (fsub_val (clock w) (last_heartbeat_sent_time (self w))) as [d | e |] eqn:Hd.
  - (* the heartbeat is due *)
    assert (H2 : sched_run 2 w = set_thread (At HeartbeatSend) w).
    { cbn [sched_run]. rewrite H1.
      sched_next (step_HeartbeatCheck d) ltac:(first [reflexivity | exact Hd]).
      replace (received_first_hearbeat (self (set_thread (At HeartbeatCheck) w)))
        with false by (symmetry; exact Hf).
      rewrite orb_true_r. reflexivity. }
    destruct (connection (self w)) as [c |] eqn:Hc;
      [destruct (link_up w) eqn:Hl |].
    + split; [rewrite H2; reflexivity |].
      change 7%nat with (2 + 5)%nat. rewrite sched_run_add, H2.
      cbn [sched_run].
      sched_next (step_HeartbeatSend c) ltac:(first [reflexivity | exact Hc | exact Hl]).
      sched_next step_HeartbeatStamp ltac:(reflexivity).
      sched_next step_SensorMsgs ltac:(reflexivity).
      rewrite send_sensor_msgs_spec; cbn [snd].
      match goal with
      | |- context [can_send ?x] =>
          replace (can_send x)
            with (match trunc (clock w) with
                  | Ok t => Some (conn_id c, t)
                  | _ => None
                  end)
            by (unfold can_send; cbn; rewrite Hc, Hl;
                destruct (trunc (clock w)); reflexivity)
      end.
      sched_next step_GroundTruth ltac:(destruct (trunc (clock w)); reflexivity).
      sched_next step_Control ltac:(destruct (trunc (clock w)); reflexivity).
      destruct (trunc (clock w)) as [t | e |]; cbn;
        rewrite <- ?app_assoc; repeat split.
    + destruct (step_HeartbeatSend_raises (set_thread (At HeartbeatSend) w))
        as [e He]; [reflexivity | right; exact Hl |].
      exists e. intros n. rewrite Nat.add_comm.
      change (n + 3)%nat with (n + (2 + 1))%nat.
      rewrite Nat.add_comm, !sched_run_add, H2. cbn [sched_run]. rewrite He.
      rewrite (sched_run_finished n (Crashed e)) by reflexivity.
      split; reflexivity.
    + destruct (step_HeartbeatSend_raises (set_thread (At HeartbeatSend) w))
        as [e He]; [reflexivity | left; exact Hc |].
      exists e. intros n. rewrite Nat.add_comm.
      change (n + 3)%nat with (n + (2 + 1))%nat.
      rewrite Nat.add_comm, !sched_run_add, H2. cbn [sched_run]. rewrite He.
      rewrite (sched_run_finished n (Crashed e)) by reflexivity.
      split; reflexivity.
  - (* the time since the recorded send cannot be computed *)
    destruct (step_HeartbeatCheck_raises (set_thread (At HeartbeatCheck) w))
      as [e' He]; [reflexivity | cbn; rewrite Hd; discriminate |].
    exists e'. intros n.
    change (3 + n)%nat with (2 + (1 + n))%nat.
    rewrite sched_run_add. cbn [sched_run Nat.add]. rewrite H1, He.
    rewrite (sched_step_finished (Crashed e')) by reflexivity.
    rewrite (sched_run_finished n (Crashed e')) by reflexivity.
    split; reflexivity.
  - destruct (last_heartbeat_sent_time (self w)); discriminate Hd.
Qed.

(** The first tick of a loop entered before the peer's heartbeat: with
    the link up both frames go out before the sleep step; with the link
    down the thread ends and the wire stays empty. *)
Lemma tick_before_first_heartbeat_sends_witness :
  let w := sched_run 3 (entered_early t_10) in
  (sched_pc w = Some Poll /\
   received_first_hearbeat (self w) = false /\
   sched_pc (sched_run 7 w) = Some Sleep /\
   length (wire (sched_run 7 w)) = 2%nat) /\
  (sched_pc entered_early_link_down = Some Poll /\
   received_first_hearbeat (self entered_early_link_down) = false /\
   exists e, sched_pc (sched_run 7 entered_early_link_down) = Some (Crashed e) /\
             wire (sched_run 7 entered_early_link_down) = []).
Proof.
  intros w. split.
  - assert (Hpc : sched_pc w = Some Poll) by (vm_compute; reflexivity).
    assert (Hf : received_first_hearbeat (self w) = false) by (vm_compute; reflexivity).
    assert (Hg : heartbeat_goes_out w = Some {| conn_id := 0; conn_port := endpoint |})
      by (vm_compute; reflexivity).
    assert (Ht : trunc (clock w) = Ok 10) by (vm_compute; reflexivity).
    pose proof (tick_before_first_heartbeat_sends w Hpc Hf) as [_ H].
    rewrite Hg, Ht in H. destruct H as (_ & Hsleep & _ & Hw).
    split; [exact Hpc |]. split; [exact Hf |]. split; [exact Hsleep |].
    assert (Hw0 : wire w = []) by (vm_compute; reflexivity).
    rewrite Hw, Hw0. reflexivity.
  - set (v := entered_early_link_down).
    assert (Hpc : sched_pc v = Some Poll) by (vm_compute; reflexivity).
    assert (Hf : received_first_hearbeat (self v) = false) by (vm_compute; reflexivity).
    assert (Hg : heartbeat_goes_out v = None) by (vm_compute; reflexivity).
    assert (Hw : wire v = []) by (vm_compute; reflexivity).
    pose proof (tick_before_first_heartbeat_sends v Hpc Hf) as [_ H].
    rewrite Hg in H. destruct H as [e He].
    split; [exact Hpc |]. split; [exact Hf |].
    exists e. destruct (He 4%nat) as [Hc Hwire].
    change (3 + 4)%nat with 7%nat in Hc, Hwire.
    split; [exact Hc | rewrite Hwire; exact Hw].
Defined.

(** C4 as stated fails: the first tick of a loop entered before the
    peer's heartbeat puts a heartbeat frame and a sensor frame on the wire
    before it sleeps. *)
Lemma tick_before_first_heartbeat_counterexample :
  let w := entered_early t_10 in
  received_first_hearbeat (self w) = false /\
  sched_pc w = Some LoopTest /\
  sched_pc (sched_run 10 w) = Some Sleep /\
  received_first_hearbeat (self (sched_run 10 w)) = false /\
  exists s,
    map snd (wire (sched_run 10 w)) = [heartbeat_frame; Wire.HIL_SENSOR s].
Proof. vm_compute. repeat split. eexists. reflexivity. Qed.

(** ** Stop, then start, in a run *)

(** [start_stream] on a stopped interface without a connection returns
    only if the endpoint could be opened. *)
Lemma start_stream_needs_endpoint (w : World) :
  is_running (self w) = false ->
  connection (self w) = None ->
  fst (start_stream w) = Ok tt ->
  endpoint_up w = true.
Proof.
  intros Hrun Hc. unfold start_stream, bind at 1, attr at 1. rewrite Hrun.
  unfold bind at 1, attr at 1. rewrite Hc.
  unfold re_initialize_interface, mavlink_connection, bind, attr, assign. cbn.
  destruct (endpoint_up w); [reflexivity | discriminate].
Qed.

(** C5, as the code has it. In any run from the constructor, when
    [stop_stream] is called on a running interface and returns, it has
    closed the connection; when the [start_stream] that follows returns,
    the four lockstep flags and the first-heartbeat flag are down and a
    connection has been newly opened on the endpoint string of the
    interface, whose handle is neither the one [stop_stream] closed nor
    any closed one. *)
Theorem stop_then_start_is_fresh (port : string) (n : nat) (lockstep : bool)
    (t : float) (tr : list event) (during : list env_event) :
  let w := run tr (Build port n lockstep t) in
  let w1 := snd (stop_stream during w) in
  let w2 := snd (start_stream w1) in
  is_running (self w) = true ->
  fst (stop_stream during w) = Ok tt ->
  fst (start_stream w1) = Ok tt ->
  exists c c',
    connection (self w) = Some c /\
    closed w1 = conn_id c :: closed w /\
    connection (self w1) = None /\
    transient_flags w2 = [false; false; false; false; false] /\
    connection (self w2) = Some c' /\
    conn_id c' <> conn_id c /\
    (conn_id c' ∉ closed w2) /\
    conn_port c = port /\
    conn_port c' = port /\
    is_running (self w2) = true.
Proof.
  intros w w1 w2 Hrun Hstop Hstart.
  assert (Hok : handles_ok w) by apply handles_ok_run, handles_ok_Build.
  assert (Hport : connection_port (self w) = port) by apply run_keeps_port.
  assert (Hstop' : stop_stream during w = (Ok tt, w1)).
  { subst w1. destruct (stop_stream during w) as [r w']. cbn in Hstop.
    rewrite Hstop. reflexivity. }
  assert (Hdown : is_running (self w1) = false) by apply stop_stream_stops.
  assert (Hnone : connection (self w1) = None).
  { revert Hstop'. generalize w1. intros v.
    unfold stop_stream, bind, attr. rewrite Hrun. cbn [negb assign].
    destruct (join during _) as [[[] | e |] wj]; try discriminate.
    unfold conn_close, bind, attr.
    destruct (connection (self wj)); [| discriminate].
    cbn. intros [= <-]. reflexivity. }
  pose proof (start_stream_needs_endpoint w1 Hdown Hnone Hstart) as Hup.
  destruct (restart_from_running during w w1 Hok Hrun Hstop' Hup)
    as (c & c' & w2' & Hc & _ & Hcl & Hst & Hflags & Hc' & Hne & Hnotin & Hp & Hrun2 & _).
  assert (Hw2 : w2 = w2') by (subst w2; rewrite Hst; reflexivity).
  destruct Hok as [Hlive _]. destruct (Hlive c Hc) as [_ Hcp].
  exists c, c'. rewrite Hw2.
  repeat split; try assumption; congruence.
Qed.

(** The streaming interface is stopped, with time for the scheduler
    thread to finish its tick, and started again. *)
Lemma stop_then_start_is_fresh_witness :
  let during := replicate 13 SchedStep in
  is_running (self streaming) = true /\
  fst (stop_stream during streaming) = Ok tt /\
  fst (start_stream (snd (stop_stream during streaming))) = Ok tt /\
  transient_flags streaming = [false; false; true; false; true] /\
  transient_flags (snd (start_stream (snd (stop_stream during streaming))))
  = [false; false; false; false; false].
Proof.
  intros during.
  assert (Hbefore : transient_flags streaming = [false; false; true; false; true])
    by (vm_compute; reflexivity).
  revert Hbefore. unfold streaming.
  match goal with
  | |- context [run ?tr (Build ?port ?n ?l ?t)] =>
      assert (Hrun : is_running (self (run tr (Build port n l t))) = true)
        by (vm_compute; reflexivity);
      assert (Hret : fst (stop_stream during (run tr (Build port n l t))) = Ok tt)
        by (apply (stop_stream_returns _ HeartbeatCheck
                     {| conn_id := 0; conn_port := endpoint |});
            first [vm_compute; reflexivity | discriminate | lia]);
      assert (Hstart : fst (start_stream
                              (snd (stop_stream during (run tr (Build port n l t)))))
                       = Ok tt)
        by (vm_compute; reflexivity);
      destruct (stop_then_start_is_fresh port n l t tr during Hrun Hret Hstart)
        as (c & c' & _ & _ & _ & Hflags & _)
  end.
  intros Hbefore.
  split; [exact Hrun |].
  split; [exact Hret |].
  split; [exact Hstart |].
  split; [exact Hbefore | exact Hflags].
Defined.

(** C5 as stated fails: [stop_stream] on an interface that was never
    started returns at once, and the [start_stream] that follows opens no
    connection and resets no flag. After a call of [update_imu],
    [received_imu] is still up, the connection is the constructor's, no
    handle has been given out and none closed. *)
Lemma stop_then_start_counterexample :
  let w := run [Call (UpdateImu ∅)] (Build endpoint 4 true t_10) in
  let w1 := snd (stop_stream [] w) in
  let w2 := snd (start_stream w1) in
  fst (stop_stream [] w) = Ok tt /\
  fst (start_stream w1) = Ok tt /\
  transient_flags w2 = [false; false; true; false; false] /\
  connection (self w) = Some {| conn_id := 0; conn_port := endpoint |} /\
  connection (self w2) = Some {| conn_id := 0; conn_port := endpoint |} /\
  closed w2 = [] /\
  next_handle w2 = next_handle w.
Proof. vm_compute. repeat split. Qed.

(** ** The lockstep wait in the runs of the interface *)

